(** * StudySync: the hybrid AI managers

    A shallow embedding of the resolution and fallback code of the
    StudySync browser extension:

    - [AIManager] (Chrome AI with Gemini fallback): [geminiPrompt] with
      its defensive extraction of the answer text, and [prompt];
    - [AIManagerEnhanced]: [checkCapabilities], [geminiPrompt] over its
      list of endpoints, [prompt] with its usage statistics;
    - [HybridAIManager]: [checkBuiltInAI], the three strategies, the
      heuristics of the basic fallback, [parseQuestions],
      [parseFlashcards], [updateStats] and the loop of [process].

    Conventions.  A JavaScript string is a [string]: one [ascii] per
    code unit, so the texts covered are those whose code units are below
    256.  JavaScript values are the inductive [value].  A computation
    that can throw returns a [res]; the message of the thrown error is
    kept.  Console output and calls to the outside (the on-device
    [ai.*] objects, [fetch]) are recorded, in order, in a list of
    [event]s.  What the outside answers is given by a [world] record of
    functions: a theorem quantified over the [world] holds whatever the
    backends answer. *)

From Stdlib Require Import String Ascii List Bool Arith Lia ZArith QArith.
From Stdlib Require Import DecimalString.
Import ListNotations.
Open Scope string_scope.
Open Scope list_scope.
Open Scope nat_scope.

Set Implicit Arguments.
Set Warnings "-register-all".

(* ------------------------------------------------------------------ *)
(** ** Results of computations that may throw *)

Inductive res (A : Type) : Type :=
| Ok (a : A)
| Throw (msg : string).

Arguments Ok {A} a.
Arguments Throw {A} msg.

Definition bind {A B} (r : res A) (k : A -> res B) : res B :=
  match r with
  | Ok a => k a
  | Throw msg => Throw msg
  end.

Notation "'try!' x <- r ;; k" := (bind r (fun x => k))
  (at level 61, x name, r at next level, right associativity).

(* ------------------------------------------------------------------ *)
(** ** JavaScript values *)

(** The values the managers handle: what [response.json()] produces
    (null, booleans, numbers, strings, arrays, objects with their own
    properties in order) and [undefined]. *)
Inductive value : Type :=
| JUndefined
| JNull
| JBool (b : bool)
| JNum (q : Q)
| JStr (s : string)
| JArr (l : list value)
| JObj (props : list (string * value)).

(** [if (v)]: the falsy values are undefined, null, false, 0 and the
    empty string; arrays and objects are always truthy. *)
Definition truthy (v : value) : bool :=
  match v with
  | JUndefined | JNull => false
  | JBool b => b
  | JNum q => negb (Z.eqb (Qnum q) 0)
  | JStr s => negb (String.eqb s EmptyString)
  | JArr _ | JObj _ => true
  end.

(** [a || b]. *)
Definition js_or (a b : value) : value := if truthy a then a else b.

Fixpoint assoc (k : string) (props : list (string * value)) : value :=
  match props with
  | [] => JUndefined
  | (k', v) :: rest => if String.eqb k k' then v else assoc k rest
  end.

Definition str_of_nat (n : nat) : string :=
  NilZero.string_of_uint (Nat.to_uint n).

Definition first_char (s : string) : value :=
  match s with
  | EmptyString => JUndefined
  | String c _ => JStr (String c EmptyString)
  end.

(** Reading property [k] of a value that is neither null nor undefined.
    The managers read the names candidates, content, parts, text,
    output, error, message, available, length and 0; none of them is
    inherited from a prototype except [length] of arrays and strings,
    and index 0 of arrays and strings is their first element. *)
Definition prop_of (v : value) (k : string) : value :=
  match v with
  | JObj props => assoc k props
  | JArr l =>
      if String.eqb k "length" then JNum (inject_Z (Z.of_nat (List.length l)))
      else if String.eqb k "0" then hd JUndefined l
      else JUndefined
  | JStr s =>
      if String.eqb k "length" then JNum (inject_Z (Z.of_nat (String.length s)))
      else if String.eqb k "0" then first_char s
      else JUndefined
  | _ => JUndefined
  end.

(** V8's message for a property read on null or undefined. *)
Definition cannot_read (v : value) (k : string) : string :=
  "Cannot read properties of "
  ++ (match v with JNull => "null" | _ => "undefined" end)
  ++ " (reading '" ++ k ++ "')".

(** [v.k]: a TypeError on null and undefined. *)
Definition get (v : value) (k : string) : res value :=
  match v with
  | JUndefined | JNull => Throw (cannot_read v k)
  | _ => Ok (prop_of v k)
  end.

(** [v?.k]: undefined on null and undefined. *)
Definition get_opt (v : value) (k : string) : value :=
  match v with
  | JUndefined | JNull => JUndefined
  | _ => prop_of v k
  end.

(** The engine's conversions that the managers rely on but that are not
    spelled out here: [v > 0] for a string or an array [v] (it goes
    through ToNumber), and the conversion of a value that is not a
    string inside a template literal. *)
Record engine : Type := {
  coerced_gt_zero : value -> bool;
  display : value -> string
}.

(** [v > 0]. *)
Definition gt_zero (E : engine) (v : value) : bool :=
  match v with
  | JUndefined | JNull => false
  | JBool b => b
  | JNum q => Z.ltb 0 (Qnum q)
  | JStr _ | JArr _ => coerced_gt_zero E v
  | JObj _ => false
  end.

(** [`${v}`]. *)
Definition to_str (E : engine) (v : value) : string :=
  match v with
  | JStr s => s
  | JUndefined => "undefined"
  | JNull => "null"
  | JBool true => "true"
  | JBool false => "false"
  | _ => display E v
  end.

(* ------------------------------------------------------------------ *)
(** ** String operations of the JavaScript library *)

Definition code (c : ascii) : nat := nat_of_ascii c.

(** White space and line terminators among the code units below 256:
    what [trim] removes and what [\s] matches. *)
Definition is_ws (c : ascii) : bool :=
  let n := code c in
  ((9 <=? n) && (n <=? 13)) || (n =? 32) || (n =? 160).

Definition is_empty (s : string) : bool :=
  match s with EmptyString => true | String _ _ => false end.

Fixpoint trimStart (s : string) : string :=
  match s with
  | EmptyString => EmptyString
  | String c rest => if is_ws c then trimStart rest else s
  end.

Fixpoint trimEnd (s : string) : string :=
  match s with
  | EmptyString => EmptyString
  | String c rest =>
      let rest' := trimEnd rest in
      if is_ws c && is_empty rest' then EmptyString else String c rest'
  end.

(** [s.trim()]. *)
Definition trim (s : string) : string := trimEnd (trimStart s).

(** [s.substring(n)] for [n] within the string: the units after the
    first [n]. *)
Fixpoint drop (n : nat) (s : string) : string :=
  match n, s with
  | 0, _ => s
  | S n', String _ rest => drop n' rest
  | S _, EmptyString => EmptyString
  end.

(** [s.substring(0, n)]. *)
Fixpoint take (n : nat) (s : string) : string :=
  match n, s with
  | S n', String c rest => String c (take n' rest)
  | _, _ => EmptyString
  end.

(** [hay.includes(needle)]. *)
Fixpoint includes (needle hay : string) : bool :=
  prefix needle hay
  || match hay with
     | EmptyString => false
     | String _ rest => includes needle rest
     end.

(** [s.split(c)] for a separator of one unit: never an empty list. *)
Fixpoint split (c : ascii) (s : string) : list string :=
  match s with
  | EmptyString => [EmptyString]
  | String a rest =>
      let parts := split c rest in
      if Ascii.eqb a c then EmptyString :: parts
      else match parts with
           | p :: ps => String a p :: ps
           | [] => [String a EmptyString]
           end
  end.

(** [s.replace(pat, rep)] for a string pattern that is not empty: only
    the first occurrence is replaced. *)
Fixpoint replace_first (pat rep s : string) : string :=
  if prefix pat s then rep ++ drop (String.length pat) s
  else match s with
       | EmptyString => EmptyString
       | String a rest => String a (replace_first pat rep rest)
       end.

(** [l.join(sep)]. *)
Definition join (sep : string) (l : list string) : string :=
  String.concat sep l.

Definition newline : ascii := ascii_of_nat 10.
Definition nl : string := String newline EmptyString.

(* ------------------------------------------------------------------ *)
(** ** Options of a request and the network *)

(** The options object of a request.  A field that is absent is [None];
    [o.f || d] also takes the default [d] for the empty string and for
    the number 0. *)
Module Options.
Record t : Type := {
  length : option string;
  format : option string;
  tone : option string;
  sourceLanguage : option string;
  targetLanguage : option string;
  difficulty : option string;
  level : option string;
  count : option nat;
  systemPrompt : option string;
  temperature : option Q;
  maxTokens : option nat;
  forceNew : bool
}.

(** [{}], the default of [options]. *)
Definition none : t :=
  {| length := None; format := None; tone := None; sourceLanguage := None;
     targetLanguage := None; difficulty := None; level := None;
     count := None; systemPrompt := None; temperature := None;
     maxTokens := None; forceNew := false |}.
End Options.

Definition options : Type := Options.t.

(** [o || d] on an optional string. *)
Definition or_str (o : option string) (d : string) : string :=
  match o with
  | Some s => if is_empty s then d else s
  | None => d
  end.

(** [o || d] on an optional number. *)
Definition or_nat (o : option nat) (d : nat) : nat :=
  match o with
  | Some 0 | None => d
  | Some n => n
  end.

Definition or_Q (o : option Q) (d : Q) : Q :=
  match o with
  | Some q => if Z.eqb (Qnum q) 0 then d else q
  | None => d
  end.

(** The JSON body of a [generateContent] request. *)
Record body : Type := {
  body_text : option string;
  body_temperature : Q;
  body_maxOutputTokens : nat
}.

(** [text] is [None] when the prompt is not a string (a member that the
    table of prompts inherits from [Object.prototype]). *)
Definition generateContent (text : option string) (o : options) : body :=
  {| body_text := text;
     body_temperature := or_Q (Options.temperature o) (7 # 10);
     body_maxOutputTokens := or_nat (Options.maxTokens o) 1024 |}.

(** What [fetch] resolves to: a response with its [ok] flag, status line
    and what [response.json()] gives (it throws on a body that is not
    JSON). *)
Record response : Type := {
  ok : bool;
  status : nat;
  statusText : string;
  json : res value
}.

(** [fetch] rejects (no network, blocked request) or resolves. *)
Inductive fetched : Type :=
| Rejected (msg : string)
| Resolved (r : response).

(** The network: the answer to a POST of a body to a URL. *)
Definition network : Type := string -> body -> fetched.

(** V8's message for a call of something that is not a function. *)
Definition not_a_function (what : string) : string :=
  what ++ " is not a function".

(** [data.candidates[0].content.parts[0].text], read without any check:
    a TypeError as soon as one step is null or undefined. *)
Definition answer_text (data : value) : res value :=
  try! candidates <- get data "candidates" ;;
  try! candidate <- get candidates "0" ;;
  try! content <- get candidate "content" ;;
  try! parts <- get content "parts" ;;
  try! part <- get parts "0" ;;
  get part "text".

(* ------------------------------------------------------------------ *)
(** ** AIManager (Chrome AI with Gemini fallback) *)

Module AIManager.

Definition invalid_structure : string :=
  "Invalid response structure from Gemini API - check console for details".

(** The text of an ok response, as [geminiPrompt] looks for it:
    first [candidates[0].content.parts[0].text], then
    [candidates[0].output].  Both are logged through [substring]
    before they are returned, which throws on a value that is not a
    string. *)
Definition extract (E : engine) (data : value) : res value :=
  try! candidates <- get data "candidates" ;;
  if gt_zero E (get_opt candidates "length") then
    try! candidate <- get candidates "0" ;;
    try! found <-
      (if gt_zero E
            (get_opt (get_opt (get_opt candidate "content") "parts") "length")
       then
         try! content <- get candidate "content" ;;
         try! parts <- get content "parts" ;;
         try! part <- get parts "0" ;;
         try! text <- get part "text" ;;
         if truthy text then
           match text with
           | JStr _ => Ok (Some text)
           | _ => Throw (not_a_function "text.substring")
           end
         else Ok None
       else Ok None) ;;
    match found with
    | Some text => Ok text
    | None =>
        let output := get_opt candidate "output" in
        if truthy output then
          match output with
          | JStr _ => Ok output
          | _ => Throw (not_a_function "candidate.output.substring")
          end
        else Throw invalid_structure
    end
  else Throw invalid_structure.

Record geminiConfig : Type := {
  apiKey : option string;
  endpoint : string
}.

Definition prompt_text (text : string) (o : options) : string :=
  match Options.systemPrompt o with
  | Some sp => if is_empty sp then text else sp ++ nl ++ nl ++ text
  | None => text
  end.

Definition url (cfg : geminiConfig) : string :=
  endpoint cfg ++ "?key="
  ++ match apiKey cfg with Some k => k | None => "null" end.

(** [geminiPrompt(text, options)]: the body is read before the status
    is looked at; every error is logged and thrown again. *)
Definition geminiPrompt (E : engine) (net : network) (cfg : geminiConfig)
    (text : string) (o : options) : res value :=
  match net (url cfg) (generateContent (Some (prompt_text text o)) o) with
  | Rejected msg => Throw msg
  | Resolved r =>
      try! data <- json r ;;
      if ok r then extract E data
      else
        try! err <- get data "error" ;;
        Throw (to_str E
                 (js_or (get_opt err "message")
                    (JStr ("Gemini API request failed: "
                           ++ str_of_nat (status r)))))
  end.

(** What [prompt] meets outside: the Chrome path (the session obtained
    by [getPromptSession] and its answer to the text, or the error of
    either), and the key the user gives when [promptForApiKey] asks for
    one ([None] when none is given, as in the service worker). *)
Record world : Type := {
  eng : engine;
  net : network;
  chrome : string -> options -> res value;
  supplied : option string
}.

Definition has_key (cfg : geminiConfig) : bool :=
  match apiKey cfg with
  | Some k => negb (is_empty k)
  | None => false
  end.

(** [await this.promptForApiKey()]: a key that is given is stored. *)
Definition promptForApiKey (W : world) (cfg : geminiConfig) : geminiConfig :=
  match supplied W with
  | Some k => if is_empty k then cfg
              else {| apiKey := Some k; endpoint := endpoint cfg |}
  | None => cfg
  end.

(** The end of both branches of [prompt]: Gemini if a key is there,
    after asking for one if need be, else the error [otherwise]. *)
Definition gemini_or (W : world) (cfg : geminiConfig) (text : string)
    (o : options) (otherwise : string) : geminiConfig * res value :=
  if has_key cfg then (cfg, geminiPrompt (eng W) (net W) cfg text o)
  else
    let cfg' := promptForApiKey W cfg in
    if has_key cfg' then (cfg', geminiPrompt (eng W) (net W) cfg' text o)
    else (cfg', Throw otherwise).

Definition no_key : string :=
  "AI features require Gemini API key. Please configure in extension settings.".

(** [prompt(text, options)] with [this.currentMethod] and
    [this.geminiConfig]: the configuration afterwards and the result. *)
Definition prompt (W : world) (currentMethod : string) (cfg : geminiConfig)
    (text : string) (o : options) : geminiConfig * res value :=
  if String.eqb currentMethod "chrome-ai" then
    match chrome W text o with
    | Ok result => (cfg, Ok result)
    | Throw error => gemini_or W cfg text o error
    end
  else gemini_or W cfg text o no_key.

(** *** Choice of the method and the key at run time *)

(** [determineMethod()], from [this.capabilities.prompt] and the
    configuration. *)
Definition determineMethod (prompt_cap : value) (cfg : geminiConfig) : string :=
  if match get_opt prompt_cap "available" with
     | JStr s => String.eqb s "readily"
     | _ => false
     end
  then "chrome-ai"
  else if has_key cfg then "gemini-api"
  else "none".

(** [setGeminiApiKey(apiKey)]: the configuration and the method
    afterwards.  The key is set before it is stored, and when the store
    throws the method is left as it was. *)
Definition setGeminiApiKey (stored : res unit) (prompt_cap : value)
    (currentMethod : string) (cfg : geminiConfig) (key : string)
    : geminiConfig * string * res unit :=
  let cfg' := {| apiKey := Some key; endpoint := endpoint cfg |} in
  match stored with
  | Ok _ => (cfg', determineMethod prompt_cap cfg', Ok tt)
  | Throw msg => (cfg', currentMethod, Throw msg)
  end.

(** *** Images *)

(** The object [processImage] resolves to; [base64] is undefined when
    the URL has no comma. *)
Record imageData : Type := {
  base64 : value;
  mimeType : value
}.

(** The longest prefix of [s] without a semicolon: what [[^;]*]
    matches at the start of [s]. *)
Fixpoint before_semicolon (s : string) : string :=
  match s with
  | EmptyString => EmptyString
  | String c rest =>
      if Ascii.eqb c ";" then EmptyString else String c (before_semicolon rest)
  end.

(** The first match of [/data:([^;]+)/] in [s]: its group. *)
Fixpoint data_match (s : string) : option string :=
  match s with
  | EmptyString => None
  | String _ rest =>
      if prefix "data:" s then
        let run := before_semicolon (drop 5 s) in
        if is_empty run then data_match rest else Some run
      else data_match rest
  end.

(** [processImage(imageUrl)]: a [data:] URL is taken apart on the spot,
    and a URL without a media type makes [match] return null; any other
    URL is fetched and read, which [fetched_image] stands for. *)
Definition processImage (fetched_image : string -> res imageData)
    (imageUrl : string) : res imageData :=
  if prefix "data:" imageUrl then
    let parts := split "," imageUrl in
    match data_match (hd EmptyString parts) with
    | Some mime =>
        Ok {| base64 := match tl parts with
                        | second :: _ => JStr second
                        | [] => JUndefined
                        end;
              mimeType := JStr mime |}
    | None => Throw (cannot_read JNull "1")
    end
  else fetched_image imageUrl.

(** The JSON body of a request with an image. *)
Record image_body : Type := {
  image_text : string;
  inline_mime_type : value;
  inline_data : value;
  image_temperature : Q;
  image_maxOutputTokens : nat
}.

Definition image_network : Type := string -> image_body -> fetched.

Definition no_multimodal : string :=
  "Multimodal features require Gemini API. Please configure API key.".

Definition invalid_image_structure : string :=
  "Invalid response structure from Gemini API".

(** The text of an ok response to a request with an image: only
    [candidates[0].content.parts[0].text] is looked at. *)
Definition extract_image (E : engine) (candidates : value) : res value :=
  try! candidate <- get candidates "0" ;;
  try! found <-
    (if gt_zero E
          (get_opt (get_opt (get_opt candidate "content") "parts") "length")
     then
       try! content <- get candidate "content" ;;
       try! parts <- get content "parts" ;;
       try! part <- get parts "0" ;;
       try! text <- get part "text" ;;
       if truthy text then
         match text with
         | JStr _ => Ok (Some text)
         | _ => Throw (not_a_function "text.substring")
         end
       else Ok None
     else Ok None) ;;
  match found with
  | Some text => Ok text
  | None => Throw invalid_image_structure
  end.

(** [promptWithImage(text, imageData, options)]. *)
Definition promptWithImage (W : world) (inet : image_network)
    (cfg : geminiConfig) (text : string) (image : imageData) (o : options)
    : geminiConfig * res value :=
  let cfg' := if has_key cfg then cfg else promptForApiKey W cfg in
  if negb (has_key cfg') then (cfg', Throw no_multimodal)
  else
    (cfg',
     match inet (url cfg')
             {| image_text := text;
                inline_mime_type := js_or (mimeType image) (JStr "image/jpeg");
                inline_data := base64 image;
                image_temperature := or_Q (Options.temperature o) (7 # 10);
                image_maxOutputTokens := or_nat (Options.maxTokens o) 1024 |} with
     | Rejected msg => Throw msg
     | Resolved r =>
         try! data <- json r ;;
         let failure :=
           try! err <- get data "error" ;;
           Throw (to_str (eng W)
                    (js_or (get_opt err "message")
                       (JStr "Multimodal request failed"))) in
         if ok r then
           try! candidates <- get data "candidates" ;;
           if gt_zero (eng W) (get_opt candidates "length")
           then extract_image (eng W) candidates
           else failure
         else failure
     end).

(** [analyzeImage(imageUrl, prompt = 'What is in this image?')]. *)
Definition analyzeImage (W : world) (inet : image_network)
    (fetched_image : string -> res imageData) (cfg : geminiConfig)
    (imageUrl : string) (prompt_ : option string) : geminiConfig * res value :=
  match processImage fetched_image imageUrl with
  | Ok image =>
      promptWithImage W inet cfg
        (match prompt_ with Some p => p | None => "What is in this image?" end)
        image Options.none
  | Throw msg => (cfg, Throw msg)
  end.

End AIManager.

(* ------------------------------------------------------------------ *)
(** ** Character classes and the regular expressions of the heuristics *)

Definition is_terminator (c : ascii) : bool :=
  Ascii.eqb c "." || Ascii.eqb c "!" || Ascii.eqb c "?".

Definition is_upper (c : ascii) : bool := (65 <=? code c) && (code c <=? 90).
Definition is_lower (c : ascii) : bool := (97 <=? code c) && (code c <=? 122).
Definition is_digit (c : ascii) : bool := (48 <=? code c) && (code c <=? 57).

(** [\w]. *)
Definition is_word (c : ascii) : bool :=
  is_upper c || is_lower c || is_digit c || Ascii.eqb c "_".

Definition upper (c : ascii) : ascii :=
  if is_lower c then ascii_of_nat (code c - 32) else c.

Definition unit_str (c : ascii) : string := String c EmptyString.

(** The scan of [/[^.!?]+[.!?]+/g]: [body] is the run of other
    characters read so far, [marks] the run of terminators after it.  A
    match never starts on a terminator, and a body that reaches the end
    of the text without a terminator is no match. *)
Fixpoint scan_sentences (body marks : string) (s : string) : list string :=
  match s with
  | EmptyString => if is_empty marks then [] else [(body ++ marks)%string]
  | String c rest =>
      if is_terminator c then
        if is_empty body then scan_sentences body marks rest
        else scan_sentences body (marks ++ unit_str c)%string rest
      else
        if is_empty marks then scan_sentences (body ++ unit_str c)%string marks rest
        else (body ++ marks)%string :: scan_sentences (unit_str c) EmptyString rest
  end.

(** [text.match(/[^.!?]+[.!?]+/g) || []]. *)
Definition match_sentences (text : string) : list string :=
  scan_sentences EmptyString EmptyString text.

(** The longest prefix of [s] whose characters satisfy [p], and what
    follows it. *)
Fixpoint span (p : ascii -> bool) (s : string) : string * string :=
  match s with
  | EmptyString => (EmptyString, EmptyString)
  | String c rest =>
      if p c then let '(a, b) := span p rest in (String c a, b)
      else (EmptyString, s)
  end.

(** [\b] after a word character: the end of the text or a character that
    is not a word character comes next. *)
Definition boundary_after (s : string) : bool :=
  match s with
  | EmptyString => true
  | String c _ => negb (is_word c)
  end.

(** A match of [/\b[A-Z][a-z]+\b|\b\d+\b/] at the start of [s], where a
    word boundary is known to precede [s]. *)
Definition key_term_at (s : string) : option string :=
  match s with
  | EmptyString => None
  | String c rest =>
      if is_upper c then
        let '(low, after) := span is_lower rest in
        if negb (is_empty low) && boundary_after after
        then Some (String c low) else None
      else if is_digit c then
        let '(digits, after) := span is_digit s in
        if boundary_after after then Some digits else None
      else None
  end.

(** The first match of the key-term expression in [s]; [prev_word] tells
    whether the character before [s] is a word character. *)
Fixpoint first_key_term (prev_word : bool) (s : string) : option string :=
  match s with
  | EmptyString => None
  | String c rest =>
      match (if prev_word then None else key_term_at s) with
      | Some t => Some t
      | None => first_key_term (is_word c) rest
      end
  end.

(** [pat] is a prefix of [s] up to the case of ASCII letters. *)
Fixpoint ci_prefix (pat s : string) : bool :=
  match pat, s with
  | EmptyString, _ => true
  | String a pat', String b s' => Ascii.eqb (upper a) (upper b) && ci_prefix pat' s'
  | String _ _, EmptyString => false
  end.

(** [s.replace(new RegExp(`\\b${wrong}\\b`, 'gi'), right)] for a word
    [wrong] of letters: [skip] counts the characters of the current
    match still to be dropped. *)
Fixpoint replace_word (wrong right : string) (skip : nat) (prev_word : bool)
    (s : string) : string :=
  match s with
  | EmptyString => EmptyString
  | String c rest =>
      match skip with
      | S k => replace_word wrong right k true rest
      | 0 =>
          if negb prev_word && ci_prefix wrong s
             && boundary_after (drop (String.length wrong) s)
          then right ++ replace_word wrong right (String.length wrong - 1) true rest
          else String c (replace_word wrong right 0 (is_word c) rest)
      end
  end.

Definition is_line_terminator (c : ascii) : bool :=
  (code c =? 10) || (code c =? 13).

(** [s.replace(/^\s*[a-z]/gm, m => m.toUpperCase())]: [at_start] holds
    when only white space separates the current position from the start
    of a line. *)
Fixpoint capitalize_lines (at_start : bool) (s : string) : string :=
  match s with
  | EmptyString => EmptyString
  | String c rest =>
      if at_start && is_lower c then String (upper c) (capitalize_lines false rest)
      else if is_line_terminator c then String c (capitalize_lines true rest)
      else String c (capitalize_lines (at_start && is_ws c) rest)
  end.

(** [s.replace(/\. [a-z]/g, m => m.toUpperCase())]. *)
Fixpoint capitalize_after_period (s : string) : string :=
  match s with
  | EmptyString => EmptyString
  | String c tail =>
      match tail with
      | String sp (String l rest) =>
          if Ascii.eqb c "." && Ascii.eqb sp " " && is_lower l
          then String c (String sp (String (upper l) (capitalize_after_period rest)))
          else String c (capitalize_after_period tail)
      | _ => String c (capitalize_after_period tail)
      end
  end.

(** [s.split(/\s+/)]: [prev_ws] tells whether the character before [s]
    is white space. *)
Fixpoint split_ws (prev_ws : bool) (s : string) : list string :=
  match s with
  | EmptyString => [EmptyString]
  | String c rest =>
      if is_ws c then
        if prev_ws then split_ws true rest else EmptyString :: split_ws true rest
      else match split_ws false rest with
           | p :: ps => String c p :: ps
           | [] => [unit_str c]
           end
  end.

Definition hex_digit (n : nat) : ascii :=
  if n <? 10 then ascii_of_nat (48 + n) else ascii_of_nat (55 + n).

Definition percent (byte : nat) : string :=
  String "%" (String (hex_digit (byte / 16)) (unit_str (hex_digit (byte mod 16)))).

Definition is_unreserved (c : ascii) : bool :=
  is_upper c || is_lower c || is_digit c
  || existsb (Ascii.eqb c) ["-"; "_"; "."; "!"; "~"; "*"; "'"; "("; ")"]%char.

(** [encodeURIComponent(s)]: the UTF-8 bytes of every character that is
    not unreserved, in percent notation. *)
Fixpoint encodeURIComponent (s : string) : string :=
  match s with
  | EmptyString => EmptyString
  | String c rest =>
      (if is_unreserved c then unit_str c
       else if code c <? 128 then percent (code c)
       else percent (192 + code c / 64) ++ percent (128 + code c mod 64))
      ++ encodeURIComponent rest
  end.

(* ------------------------------------------------------------------ *)
(** ** HybridAIManager *)

Module HybridAIManager.

Record flashcard : Type := {
  question : string;
  answer : string
}.

Definition flashcard_value (f : flashcard) : value :=
  JObj [("question", JStr (question f)); ("answer", JStr (answer f))].

Definition strings_value (l : list string) : value := JArr (map JStr l).
Definition flashcards_value (l : list flashcard) : value :=
  JArr (map flashcard_value l).

(** *** Helper methods: the parsers of structured answers *)

(** [line.replace(/^\d+[\.\)]\s*/, '')]. *)
Definition strip_numbering (line : string) : string :=
  let '(digits, after) := span is_digit line in
  match after with
  | String c rest =>
      if negb (is_empty digits) && (Ascii.eqb c "." || Ascii.eqb c ")")
      then trimStart rest else line
  | EmptyString => line
  end.

Definition cleaned (line : string) : string := trim (strip_numbering line).

(** The lines [parseQuestions] keeps: not blank and, once the numbering
    is removed and the line trimmed, longer than 10 characters. *)
Definition question_lines (text : string) : list string :=
  filter (fun c => negb (is_empty c) && (10 <? String.length c))
    (map cleaned
       (filter (fun line => negb (is_empty (trim line))) (split newline text))).

Definition no_questions : string := "Could not generate questions".

Definition parseQuestions (text : string) : list string :=
  match question_lines text with
  | [] => [no_questions]
  | questions => questions
  end.

(** One turn of the loop of [parseFlashcards]: the card of a line, if
    it gives one.  A line with both labels and no [|] leaves the
    answer half undefined, and [a.replace] throws. *)
Definition flashcard_of_line (line : string) : res (list flashcard) :=
  if includes "Q:" line && includes "A:" line then
    match map trim (split "|" line) with
    | q :: a :: _ =>
        let question := trim (replace_first "Q:" EmptyString q) in
        let answer := trim (replace_first "A:" EmptyString a) in
        if negb (is_empty question) && negb (is_empty answer)
        then Ok [{| question := question; answer := answer |}]
        else Ok []
    | _ => Throw (cannot_read JUndefined "replace")
    end
  else Ok [].

Fixpoint flashcards_of_lines (lines : list string) : res (list flashcard) :=
  match lines with
  | [] => Ok []
  | line :: rest =>
      try! here <- flashcard_of_line line ;;
      try! more <- flashcards_of_lines rest ;;
      Ok (here ++ more)%list
  end.

Definition sample_flashcard : flashcard :=
  {| question := "Sample Question"; answer := "Sample Answer" |}.

Definition parseFlashcards (text : string) : res (list flashcard) :=
  try! flashcards <- flashcards_of_lines (split newline text) ;;
  match flashcards with
  | [] => Ok [sample_flashcard]
  | _ => Ok flashcards
  end.

(** The parsers applied to what a backend answered: [text.split] needs
    a string. *)
Definition on_string {A} (what : string) (f : string -> res A) (v : value)
    : res A :=
  match v with
  | JStr s => f s
  | JUndefined | JNull => Throw (cannot_read v what)
  | _ => Throw (not_a_function ("text." ++ what))
  end.

Definition parseQuestions_value (v : value) : res value :=
  on_string "split" (fun s => Ok (strings_value (parseQuestions s))) v.

Definition parseFlashcards_value (v : value) : res value :=
  on_string "split"
    (fun s => try! l <- parseFlashcards s ;; Ok (flashcards_value l)) v.

(** *** Basic fallback implementations *)

(** The names every object literal inherits from [Object.prototype]:
    [counts[length]] finds a function or an object under them. *)
Definition object_prototype : list string :=
  ["constructor"; "hasOwnProperty"; "isPrototypeOf"; "propertyIsEnumerable";
   "toLocaleString"; "toString"; "valueOf"; "__proto__";
   "__defineGetter__"; "__defineSetter__"; "__lookupGetter__";
   "__lookupSetter__"].

Definition inherited (k : string) : bool :=
  existsb (String.eqb k) object_prototype.

(** [counts[length] || 4] with [counts = { short: 2, medium: 4, long: 6 }]:
    [None] stands for an inherited member, which is not a number. *)
Definition count_for (length : string) : option nat :=
  if String.eqb length "short" then Some 2
  else if String.eqb length "medium" then Some 4
  else if String.eqb length "long" then Some 6
  else if inherited length then None
  else Some 4.

(** The loop [for (let i = step; i < sentences.length - 1; i += step)]
    of [basicSummarize], with one unit of [fuel] per turn. *)
Fixpoint pick (fuel i step count : nat) (sentences result : list string)
    : list string :=
  match fuel with
  | 0 => result
  | S fuel' =>
      if i <? List.length sentences - 1 then
        pick fuel' (i + step) step count sentences
          (if List.length result <? count - 1
           then (result ++ [nth i sentences EmptyString])%list else result)
      else result
  end.

Definition basicSummarize (text : string) (o : options) : string :=
  let sentences := match_sentences text in
  let n := List.length sentences in
  match count_for (or_str (Options.length o) "medium") with
  | Some count =>
      if n <=? count then join " " sentences
      else
        let step := n / count in
        join " "
          (pick n step step count sentences [nth 0 sentences EmptyString]
           ++ [nth (n - 1) sentences EmptyString])%list
  | None =>
      (* every comparison with the member is false and [step] is NaN:
         the first and the last sentence, undefined when there is none *)
      join " " [nth 0 sentences EmptyString; nth (n - 1) sentences EmptyString]
  end.

Definition basicTranslate (text : string) (o : options) : string :=
  "Translation not available offline. Open Google Translate: "
  ++ "https://translate.google.com/?sl=" ++ or_str (Options.sourceLanguage o) "en"
  ++ "&tl=" ++ or_str (Options.targetLanguage o) "es"
  ++ "&text=" ++ encodeURIComponent text.

Definition templates : list string :=
  ["What is the main topic discussed?";
   "Can you explain the key concept mentioned?";
   "What are the important points to remember?";
   "How does this information relate to the subject?";
   "What conclusions can be drawn from this text?"].

Definition basicGenerateQuestions (text : string) : list string :=
  ((match match_sentences text with
    | [] => []
    | firstSentence :: _ =>
        [("What do you know about "
          ++ join " " (firstn 5 (split " " firstSentence)) ++ "?")%string]
    end)
   ++ firstn 4 templates)%list.

Fixpoint flashcards_from (index : nat) (sentences : list string)
    : list flashcard :=
  match sentences with
  | [] => []
  | sentence :: rest =>
      {| question :=
           match first_key_term false sentence with
           | Some term => "What is " ++ term ++ "?"
           | None => "Fact #" ++ str_of_nat (index + 1)
           end;
         answer := trim sentence |}
      :: flashcards_from (index + 1) rest
  end.

Definition basicCreateFlashcards (text : string) : list flashcard :=
  flashcards_from 0 (firstn 10 (match_sentences text)).

Definition corrections : list (string * string) :=
  [("teh", "the"); ("recieve", "receive"); ("occured", "occurred");
   ("untill", "until"); ("wich", "which"); ("doesnt", "doesn't");
   ("dont", "don't"); ("wont", "won't"); ("cant", "can't");
   ("wouldnt", "wouldn't")].

Definition basicProofread (text : string) : string :=
  let corrected :=
    fold_left (fun acc wr => replace_word (fst wr) (snd wr) 0 false acc)
      corrections text in
  capitalize_after_period (capitalize_lines true corrected).

Definition indent12 : string := "            ".

Fixpoint key_points (i : nat) (sentences : list string) : list string :=
  match sentences with
  | [] => []
  | s :: rest => (str_of_nat (i + 1) ++ ". " ++ trim s)%string :: key_points (i + 1) rest
  end.

Definition basicExplain (text : string) : string :=
  let words := split_ws false text in
  let sentences := match_sentences text in
  "This text contains " ++ str_of_nat (List.length words) ++ " words and "
  ++ str_of_nat (List.length sentences) ++ " sentences. " ++ nl
  ++ indent12 ++ "The main topic appears to be: "
  ++ join " " (firstn 5 words) ++ "..." ++ nl
  ++ indent12 ++ nl
  ++ indent12 ++ "Key points:" ++ nl
  ++ indent12 ++ join nl (key_points 0 (firstn 3 sentences)).

(** *** The outside: on-device objects, network, console *)

(** The objects under the global [ai]. *)
Inductive api : Type :=
| Summarizer | Translator | LanguageModel | Proofreader | Rewriter.

(** The on-device model as the manager meets it: whether the global
    [ai] and [ai.languageModel] exist, what
    [ai.languageModel.capabilities()] resolves to, whether [ai.x] is
    there when a request is processed, whether [ai.x.create(...)]
    succeeds on an object that is there, and what the created object
    answers to an input. *)
Record device : Type := {
  defined : bool;
  languageModel : bool;
  capabilities : res value;
  has : api -> bool;
  create : api -> options -> res unit;
  run : api -> options -> string -> res value
}.

Record world : Type := {
  eng : engine;
  net : network;
  ai : device;
  (** [chrome.storage.sync.get(['geminiApiKey'])] and the key in it *)
  storage : res value
}.

(** Console lines and calls to the outside, in the order they happen. *)
Inductive event : Type :=
| Trying (name : string)
| Succeeded (name : string)
| Failed (name msg : string)
| Create (a : api)
| Run (a : api) (input : string)
| Fetch (url : string) (b : body)
| GeminiError (msg : string)
| UsingBasicFallback
| NotReady (available : value)
| TriggerDownload
| NotAvailable
| CheckError (msg : string)
| LoadError (msg : string)
| NoKeyWarning.

(** A computation that logs, calls the outside and may throw. *)
Definition M (A : Type) : Type := (list event * res A)%type.

Definition ret {A} (a : A) : M A := ([], Ok a).
Definition throw {A} (msg : string) : M A := ([], Throw msg).
Definition emit (e : event) : M unit := ([e], Ok tt).
Definition lift {A} (r : res A) : M A := ([], r).

Definition mbind {A B} (m : M A) (k : A -> M B) : M B :=
  match m with
  | (t, Ok a) => let '(t', r) := k a in ((t ++ t')%list, r)
  | (t, Throw msg) => (t, Throw msg)
  end.

Notation "'do!' x <- m ;; k" := (mbind m (fun x => k))
  (at level 61, x name, m at next level, right associativity).

(** *** State *)

(** The counters of [this.stats]. *)
Record usage : Type := {
  builtInCalls : nat;
  cloudCalls : nat;
  fallbackCalls : nat;
  errors : nat
}.

Record manager : Type := {
  isBuiltInAIAvailable : bool;
  geminiApiKey : value;
  mstats : usage   (* [this.stats] *)
}.

Definition set_stats (m : manager) (st : usage) : manager :=
  {| isBuiltInAIAvailable := isBuiltInAIAvailable m;
     geminiApiKey := geminiApiKey m;
     mstats := st |}.

Definition set_available (m : manager) (b : bool) : manager :=
  {| isBuiltInAIAvailable := b;
     geminiApiKey := geminiApiKey m;
     mstats := mstats m |}.

Definition set_key (m : manager) (k : value) : manager :=
  {| isBuiltInAIAvailable := isBuiltInAIAvailable m;
     geminiApiKey := k;
     mstats := mstats m |}.

(** The fields the constructor sets before [initialize] runs. *)
Definition fresh : manager :=
  {| isBuiltInAIAvailable := false;
     geminiApiKey := JNull;
     mstats := {| builtInCalls := 0; cloudCalls := 0;
                  fallbackCalls := 0; errors := 0 |} |}.

(** *** Initialization *)

(** [v === s] for a string literal [s]. *)
Definition is_string (s : string) (v : value) : bool :=
  match v with JStr s' => String.eqb s' s | _ => false end.

(** [checkBuiltInAI()]: the flag is set from the capabilities; a
    model that is there after a download gets one [create()] to start
    it, whose outcome is ignored.  Every error is caught and leaves the
    flag false. *)
Definition checkBuiltInAI (D : device) (m : manager) : manager * list event :=
  if defined D && languageModel D then
    match capabilities D with
    | Throw msg => (set_available m false, [CheckError msg])
    | Ok caps =>
        match get caps "available" with
        | Throw msg => (set_available m false, [CheckError msg])
        | Ok available =>
            let ready := is_string "readily" available in
            (set_available m ready,
             if ready then []
             else NotReady available
                  :: (if is_string "after-download" available
                      then [TriggerDownload] else []))
        end
    end
  else (set_available m false, [NotAvailable]).

(** [loadApiKey()]. *)
Definition loadApiKey (W : world) (m : manager) : manager * list event :=
  match storage W with
  | Throw msg => (m, [LoadError msg])
  | Ok stored =>
      match get stored "geminiApiKey" with
      | Throw msg => (m, [LoadError msg])
      | Ok key =>
          (set_key m key,
           if negb (truthy key) && negb (isBuiltInAIAvailable m)
           then [NoKeyWarning] else [])
      end
  end.

(** [initialize()], whose promise [process] awaits: it always
    resolves. *)
Definition initialize (W : world) (m : manager) : manager * list event :=
  let '(m1, t1) := checkBuiltInAI (ai W) m in
  let '(m2, t2) := loadApiKey W m1 in
  (m2, (t1 ++ t2)%list).

(** *** Strategy 1: Chrome Built-in AI *)

(** [const x = await ai.a.create(...); return await x.f(input)].  When
    [ai.a] is missing, reading its [create] is a TypeError and nothing
    on the device is called. *)
Definition call (D : device) (a : api) (o : options) (input : string) : M value :=
  if has D a then
    do! _ <- emit (Create a) ;;
    do! _ <- lift (create D a o) ;;
    do! _ <- emit (Run a input) ;;
    lift (run D a o input)
  else throw (cannot_read JUndefined "create").

Definition indent19 : string := "                   ".

Definition generateQuestionsBuiltIn (D : device) (text : string) (o : options)
    : M value :=
  do! response <-
    call D LanguageModel o
      ("Generate " ++ str_of_nat (or_nat (Options.count o) 5)
       ++ " study questions based on this text. " ++ nl
       ++ indent19 ++ "Difficulty: " ++ or_str (Options.difficulty o) "medium" ++ nl
       ++ indent19 ++ "Format as numbered list." ++ nl
       ++ indent19 ++ nl
       ++ indent19 ++ "Text: " ++ text) ;;
  lift (parseQuestions_value response).

Definition createFlashcardsBuiltIn (D : device) (text : string) (o : options)
    : M value :=
  do! response <-
    call D LanguageModel o
      ("Create " ++ str_of_nat (or_nat (Options.count o) 10)
       ++ " flashcards from this text." ++ nl
       ++ indent19 ++ "Format: Q: [question] | A: [answer]" ++ nl
       ++ indent19 ++ nl
       ++ indent19 ++ "Text: " ++ text) ;;
  lift (parseFlashcards_value response).

Definition proofreadBuiltIn (D : device) (text : string) (o : options) : M value :=
  if has D Proofreader then call D Proofreader o text
  else call D LanguageModel o
         ("Proofread and correct this text. Return only the corrected version: "
          ++ text).

Definition explainBuiltIn (D : device) (text : string) (o : options) : M value :=
  call D LanguageModel o
    ("Explain this concept in simple terms for a "
     ++ or_str (Options.level o) "beginner" ++ " level student: " ++ text).

Definition rewriteBuiltIn (D : device) (text : string) (o : options) : M value :=
  if has D Rewriter then call D Rewriter o text
  else call D LanguageModel o
         ("Rewrite this text in a " ++ or_str (Options.tone o) "neutral"
          ++ " tone: " ++ text).

(** Every case of the switch starts by reading the global [ai]: a
    ReferenceError when it is gone since the check. *)
Definition processWithBuiltInAI (W : world) (m : manager)
    (text operation : string) (o : options) : M value :=
  if negb (isBuiltInAIAvailable m) then throw "Built-in AI not available"
  else if negb (defined (ai W)) then throw "ai is not defined"
  else if String.eqb operation "summarize" then call (ai W) Summarizer o text
  else if String.eqb operation "translate" then call (ai W) Translator o text
  else if String.eqb operation "generateQuestions"
    then generateQuestionsBuiltIn (ai W) text o
  else if String.eqb operation "createFlashcards"
    then createFlashcardsBuiltIn (ai W) text o
  else if String.eqb operation "proofread" then proofreadBuiltIn (ai W) text o
  else if String.eqb operation "explain" then explainBuiltIn (ai W) text o
  else if String.eqb operation "rewrite" then rewriteBuiltIn (ai W) text o
  else call (ai W) LanguageModel o text.

(** *** Strategy 2: Gemini API *)

(** [prompts[operation] || text]. *)
Definition prompt_for (text operation : string) (o : options) : option string :=
  if String.eqb operation "summarize" then
    Some ("Summarize this text in " ++ or_str (Options.length o) "medium"
          ++ " length: " ++ text)%string
  else if String.eqb operation "translate" then
    Some ("Translate this text from " ++ or_str (Options.sourceLanguage o) "en"
          ++ " to " ++ or_str (Options.targetLanguage o) "es" ++ ": " ++ text)%string
  else if String.eqb operation "generateQuestions" then
    Some ("Generate " ++ str_of_nat (or_nat (Options.count o) 5)
          ++ " study questions (" ++ or_str (Options.difficulty o) "medium"
          ++ " difficulty) from: " ++ text)%string
  else if String.eqb operation "createFlashcards" then
    Some ("Create " ++ str_of_nat (or_nat (Options.count o) 10)
          ++ " flashcards. Format: Q: [question] | A: [answer]. Text: " ++ text)%string
  else if String.eqb operation "proofread" then
    Some ("Proofread and correct this text. Return only corrected version: "
          ++ text)%string
  else if String.eqb operation "explain" then
    Some ("Explain this for a " ++ or_str (Options.level o) "beginner"
          ++ " student: " ++ text)%string
  else if String.eqb operation "rewrite" then
    Some ("Rewrite in " ++ or_str (Options.tone o) "neutral" ++ " tone: " ++ text)%string
  else if inherited operation then None
  else Some text.

Definition gemini_pro : string :=
  "https://generativelanguage.googleapis.com/v1beta/models/gemini-pro:generateContent".

Definition processWithGeminiAPI (W : world) (m : manager)
    (text operation : string) (o : options) : M value :=
  if negb (truthy (geminiApiKey m)) then throw "Gemini API key not configured"
  else
    let url := (gemini_pro ++ "?key=" ++ to_str (eng W) (geminiApiKey m))%string in
    let b := generateContent (prompt_for text operation o) o in
    let attempt : M value :=
      do! _ <- emit (Fetch url b) ;;
      match net W url b with
      | Rejected msg => throw msg
      | Resolved r =>
          if negb (ok r) then
            do! error <- lift (json r) ;;
            do! e <- lift (get error "error") ;;
            throw ("Gemini API error: "
                   ++ to_str (eng W)
                        (js_or (get_opt e "message") (JStr (statusText r))))%string
          else
            do! data <- lift (json r) ;;
            do! result <- lift (answer_text data) ;;
            if String.eqb operation "generateQuestions"
            then lift (parseQuestions_value result)
            else if String.eqb operation "createFlashcards"
            then lift (parseFlashcards_value result)
            else ret result
      end in
    match attempt with
    | (t, Throw msg) => ((t ++ [GeminiError msg])%list, Throw msg)
    | (t, Ok result) => (t, Ok result)
    end.

(** *** Strategy 3: Basic fallback (no AI) *)

Definition processWithBasicFallback (text operation : string) (o : options)
    : M value :=
  do! _ <- emit UsingBasicFallback ;;
  ret (if String.eqb operation "summarize" then JStr (basicSummarize text o)
       else if String.eqb operation "translate" then JStr (basicTranslate text o)
       else if String.eqb operation "generateQuestions"
         then strings_value (basicGenerateQuestions text)
       else if String.eqb operation "createFlashcards"
         then flashcards_value (basicCreateFlashcards text)
       else if String.eqb operation "proofread" then JStr (basicProofread text)
       else if String.eqb operation "explain" then JStr (basicExplain text)
       else if String.eqb operation "rewrite" then JStr text
       else JStr ("[Basic processing] " ++ take 200 text ++ "...")%string).

(** *** The main processing method *)

Definition updateStats (method : string) (st : usage) : usage :=
  if String.eqb method "Built-in AI" then
    {| builtInCalls := S (builtInCalls st); cloudCalls := cloudCalls st;
       fallbackCalls := fallbackCalls st; errors := errors st |}
  else if String.eqb method "Gemini API" then
    {| builtInCalls := builtInCalls st; cloudCalls := S (cloudCalls st);
       fallbackCalls := fallbackCalls st; errors := errors st |}
  else
    {| builtInCalls := builtInCalls st; cloudCalls := cloudCalls st;
       fallbackCalls := S (fallbackCalls st); errors := errors st |}.

(** [this.stats.errors++]. *)
Definition count_error (st : usage) : usage :=
  {| builtInCalls := builtInCalls st; cloudCalls := cloudCalls st;
     fallbackCalls := fallbackCalls st; errors := S (errors st) |}.

Definition strategy : Type :=
  (string * (string -> string -> options -> M value))%type.

Definition strategies (W : world) (m : manager) : list strategy :=
  [("Built-in AI", processWithBuiltInAI W m);
   ("Gemini API", processWithGeminiAPI W m);
   ("Basic Fallback", processWithBasicFallback)].

(** What [process] returns: [stats] is the manager's own object, here
    with the counters it has at the return. *)
Record outcome : Type := {
  result : value;
  method : string;
  stats : usage
}.

Definition all_failed : string := "All AI processing strategies failed".

(** The loop [for (const strategy of strategies)]: a result that is
    falsy is passed over in silence, an error is logged and counted,
    and the next strategy is tried. *)
Fixpoint attempt (l : list strategy) (text operation : string) (o : options)
    (st : usage) : usage * M outcome :=
  match l with
  | [] => (st, throw all_failed)
  | (name, run_method) :: rest =>
      match run_method text operation o with
      | (t, Ok r) =>
          if truthy r then
            let st' := updateStats name st in
            (st',
             (Trying name :: (t ++ [Succeeded name])%list,
              Ok {| result := r; method := name; stats := st' |}))
          else
            let '(st', (t', out)) := attempt rest text operation o st in
            (st', (Trying name :: (t ++ t')%list, out))
      | (t, Throw msg) =>
          let '(st', (t', out)) :=
            attempt rest text operation o (count_error st) in
          (st', (Trying name :: (t ++ Failed name msg :: t')%list, out))
      end
  end.

(** A call of [process]: the manager after it, what was logged and
    called, and what the caller gets. *)
Record execution : Type := {
  final : manager;
  trace : list event;
  returned : res outcome
}.

(** [process(text, operation, options)] on a manager whose
    initialization has completed. *)
Definition process (W : world) (m : manager) (text operation : string)
    (o : options) : execution :=
  let '(st, (t, out)) :=
    attempt (strategies W m) text operation o (mstats m) in
  {| final := set_stats m st; trace := t; returned := out |}.

(** *** Status for the UI and settings at run time *)

(** What [getStatus()] returns. *)
Record status : Type := {
  ready : bool;
  builtInAvailable : bool;
  apiKeyConfigured : bool;
  fallbackOnly : bool;
  status_stats : usage
}.

Definition getStatus (m : manager) : status :=
  {| ready := true;
     builtInAvailable := isBuiltInAIAvailable m;
     apiKeyConfigured := truthy (geminiApiKey m);
     fallbackOnly := negb (isBuiltInAIAvailable m) && negb (truthy (geminiApiKey m));
     status_stats := mstats m |}.


(** [recheckAvailability()]. *)
Definition recheckAvailability (D : device) (m : manager)
    : manager * list event * status :=
  let '(m', t) := checkBuiltInAI D m in
  (m', t, getStatus m').

End HybridAIManager.

(* ------------------------------------------------------------------ *)
(** ** AIManagerEnhanced *)

Module AIManagerEnhanced.

(** [this.capabilities]; a field is [JNull] until a check fills it. *)
Record capabilities : Type := {
  prompt_cap : value;
  summarizer : value;
  writer : value;
  rewriter : value;
  translator : value;
  proofreader : value
}.

(** The globals [checkCapabilities] looks at.  For each object under
    [globalScope.ai]: [None] when it is not there, otherwise what its
    [capabilities()] resolves to. *)
Record globals : Type := {
  ai_languageModel : option (res value);
  ai_summarizer : option (res value);
  ai_writer : option (res value);
  ai_rewriter : option (res value);
  canTranslate : bool
}.

(** One block of [checkCapabilities]: the field is left as it is when
    the object is missing and reset to null when the check throws. *)
Definition check (probe : option (res value)) (old : value) : value :=
  match probe with
  | None => old
  | Some (Ok c) => c
  | Some (Throw _) => JNull
  end.

Definition readily : value := JObj [("available", JStr "readily")].

Definition checkCapabilities (G : globals) (c : capabilities) : capabilities :=
  let rewriter' := check (ai_rewriter G) (rewriter c) in
  {| prompt_cap := check (ai_languageModel G) (prompt_cap c);
     summarizer := check (ai_summarizer G) (summarizer c);
     writer := check (ai_writer G) (writer c);
     rewriter := rewriter';
     translator := if canTranslate G then readily else translator c;
     proofreader :=
       match ai_rewriter G with
       | Some _ => rewriter'
       | None => proofreader c
       end |}.

Record usage : Type := {
  builtInCalls : nat;
  geminiCalls : nat;
  fallbackCalls : nat;
  errors : nat;
  lastMethod : option string
}.

Record manager : Type := {
  caps : capabilities;
  session : bool;          (* [this.sessions.prompt] is set *)
  enabled : bool;          (* [this.hybridConfig.enabled] *)
  geminiApiKey : value;    (* [this.hybridConfig.geminiApiKey] *)
  stats : usage
}.

Record world : Type := {
  eng : engine;
  net : network;
  (** [globalScope.ai.languageModel.create(sessionOptions)] *)
  create_session : options -> res unit;
  (** [session.prompt(text)] *)
  session_prompt : string -> res value
}.

Definition endpoints : list string :=
  ["https://generativelanguage.googleapis.com/v1beta/models/gemini-1.5-flash-latest:generateContent";
   "https://generativelanguage.googleapis.com/v1beta/models/gemini-1.5-pro-latest:generateContent";
   "https://generativelanguage.googleapis.com/v1beta/models/gemini-pro:generateContent"].

(** One turn of the loop of [geminiPrompt]: the text of an ok
    response, or what [lastError] becomes. *)
Definition try_endpoint (f : fetched) : value + value :=
  match f with
  | Rejected msg => inr (JStr msg)
  | Resolved r =>
      if ok r then
        match (try! data <- json r ;; answer_text data) with
        | Ok text => inl text
        | Throw msg => inr (JStr msg)
        end
      else
        match (try! error <- json r ;; get error "error") with
        | Ok e => inr (js_or (get_opt e "message") (JStr (statusText r)))
        | Throw msg => inr (JStr msg)
        end
  end.

(** The loop over the endpoints: the URLs fetched, in order, and the
    result.  No failure ends the loop; the error after the loop carries
    the last one. *)
Fixpoint try_endpoints (E : engine) (net : network) (key : string) (b : body)
    (l : list string) (lastError : value) : list string * res value :=
  match l with
  | [] => ([], Throw ("Gemini API error: " ++ to_str E lastError))
  | endpoint :: rest =>
      let url := (endpoint ++ "?key=" ++ key)%string in
      match try_endpoint (net url b) with
      | inl text => ([url], Ok text)
      | inr err =>
          let '(urls, r) := try_endpoints E net key b rest err in
          (url :: urls, r)
      end
  end.

Definition prompt_text (text : string) (o : options) : string :=
  match Options.systemPrompt o with
  | Some sp => if is_empty sp then text else sp ++ nl ++ nl ++ text
  | None => text
  end.

Definition geminiPrompt (W : world) (m : manager) (text : string) (o : options)
    : list string * res value :=
  try_endpoints (eng W) (net W) (to_str (eng W) (geminiApiKey m))
    (generateContent (Some (prompt_text text o)) o) endpoints JNull.

Definition basicPrompt (text : string) : string :=
  "[Basic response - AI not available]" ++ nl ++ "Your input: "
  ++ take 100 text ++ "..." ++ nl ++ nl
  ++ "Please configure Gemini API key for better results.".

(** [getPromptSession(options)]: whether the cached session is set
    afterwards, and the session ([true]) or null ([false]). *)
Definition getPromptSession (W : world) (m : manager) (o : options)
    : bool * res bool :=
  if negb (truthy (prompt_cap (caps m)))
     || negb (match get_opt (prompt_cap (caps m)) "available" with
              | JStr s => String.eqb s "readily"
              | _ => false
              end)
  then
    (session m,
     if enabled m then Ok false
     else Throw "Prompt API is not available. Please enable Chrome AI features.")
  else if negb (session m) || Options.forceNew o then
    match create_session W o with
    | Ok _ => (true, Ok true)
    | Throw msg =>
        (session m,
         if enabled m then Ok false
         else Throw ("Prompt API error: " ++ msg))
    end
  else (true, Ok true).

Definition count (f : usage -> usage) (m : manager) (s : bool) : manager :=
  {| caps := caps m; session := s; enabled := enabled m;
     geminiApiKey := geminiApiKey m; stats := f (stats m) |}.

Definition served (by_builtin by_gemini by_fallback : nat) (name : string)
    (u : usage) : usage :=
  {| builtInCalls := builtInCalls u + by_builtin;
     geminiCalls := geminiCalls u + by_gemini;
     fallbackCalls := fallbackCalls u + by_fallback;
     errors := errors u;
     lastMethod := Some name |}.

Definition failed (u : usage) : usage :=
  {| builtInCalls := builtInCalls u; geminiCalls := geminiCalls u;
     fallbackCalls := fallbackCalls u; errors := S (errors u);
     lastMethod := lastMethod u |}.

(** The two fallbacks of [prompt] once the built-in model is out. *)
Definition after_builtin (W : world) (m : manager) (text : string) (o : options)
    : manager * value :=
  if enabled m && truthy (geminiApiKey m) then
    match snd (geminiPrompt W m text o) with
    | Ok r => (count (served 0 1 0 "gemini") m (session m), r)
    | Throw _ =>
        (count (fun u => served 0 0 1 "fallback" (failed u)) m (session m),
         JStr (basicPrompt text))
    end
  else (count (served 0 0 1 "fallback") m (session m), JStr (basicPrompt text)).

(** [prompt(text, options)]: it returns whatever the first method that
    does not throw gives, and never throws itself. *)
Definition prompt (W : world) (m : manager) (text : string) (o : options)
    : manager * value :=
  match getPromptSession W m o with
  | (s, Ok true) =>
      match session_prompt W text with
      | Ok r => (count (served 1 0 0 "built-in") m s, r)
      | Throw _ => after_builtin W (count failed m s) text o
      end
  | (s, Ok false) => after_builtin W (count (fun u => u) m s) text o
  | (s, Throw _) => after_builtin W (count failed m s) text o
  end.

(** *** The operations on top of [prompt] *)

(** [c?.available === 'readily']. *)
Definition is_readily (c : value) : bool :=
  match get_opt c "available" with
  | JStr s => String.eqb s "readily"
  | _ => false
  end.

(** [isBuiltInAvailable()]. *)
Definition isBuiltInAvailable (m : manager) : bool :=
  is_readily (prompt_cap (caps m)) || is_readily (summarizer (caps m))
  || is_readily (writer (caps m)) || is_readily (rewriter (caps m)).

(** The specialised on-device objects.  A field stands for the body of
    the [try] block of its operation, from [create] to [destroy]: the
    value it comes to, or the message of what it throws.  For the
    translator the question [canTranslate] and the translation are
    apart. *)
Record services : Type := {
  summarizer_service : options -> string -> res value;
  writer_service : options -> string -> res value;
  rewriter_service : options -> string -> res value;
  can_translate : string -> string -> res value;
  translator_service : string -> string -> string -> res value;
  (** [session.promptStreaming]: [None] when the session has no such
      method; otherwise the chunks the stream yields and the error that
      ends it, if one does. *)
  stream : string -> option (list value * option string);
  (** [this.sessions.prompt.destroy()] *)
  destroy : res unit
}.

(** [{ systemPrompt: sp }]. *)
Definition with_system (sp : string) : options :=
  {| Options.length := None; Options.format := None; Options.tone := None;
     Options.sourceLanguage := None; Options.targetLanguage := None;
     Options.difficulty := None; Options.level := None;
     Options.count := None; Options.systemPrompt := Some sp;
     Options.temperature := None; Options.maxTokens := None;
     Options.forceNew := false |}.

Definition summarize (W : world) (D : services) (m : manager) (text : string)
    (o : options) : manager * value :=
  let fallback (m : manager) :=
    prompt W m
      ("Please summarize the following text concisely:" ++ nl ++ nl ++ text)
      (with_system "You are a text summarization assistant.") in
  if is_readily (summarizer (caps m)) then
    match summarizer_service D o text with
    | Ok summary =>
        (count (served 1 0 0 "built-in-summarizer") m (session m), summary)
    | Throw _ => fallback (count failed m (session m))
    end
  else fallback m.

Definition write (W : world) (D : services) (m : manager) (prompt_ : string)
    (o : options) : manager * value :=
  let fallback (m : manager) :=
    prompt W m prompt_ (with_system "You are a creative writing assistant.") in
  if is_readily (writer (caps m)) then
    match writer_service D o prompt_ with
    | Ok result => (count (served 1 0 0 "built-in-writer") m (session m), result)
    | Throw _ => fallback (count failed m (session m))
    end
  else fallback m.

Definition rewrite (W : world) (D : services) (m : manager) (text : string)
    (o : options) : manager * value :=
  let fallback (m : manager) :=
    prompt W m
      ("Please rewrite the following text in a "
       ++ or_str (Options.tone o) "neutral" ++ " tone:" ++ nl ++ nl ++ text)
      (with_system "You are a text rewriting assistant.") in
  if is_readily (rewriter (caps m)) then
    match rewriter_service D o text with
    | Ok result => (count (served 1 0 0 "built-in-rewriter") m (session m), result)
    | Throw _ => fallback (count failed m (session m))
    end
  else fallback m.

(** [proofread(text)]: [rewrite] catches what its own attempt throws and
    [prompt] does not throw, so the [catch] of [proofread] has nothing
    to catch. *)
Definition proofread (W : world) (D : services) (m : manager) (text : string)
    : manager * value :=
  rewrite W D m text
    {| Options.length := Some "as-is"; Options.format := Some "as-is";
       Options.tone := Some "neutral";
       Options.sourceLanguage := None; Options.targetLanguage := None;
       Options.difficulty := None; Options.level := None;
       Options.count := None; Options.systemPrompt := None;
       Options.temperature := None; Options.maxTokens := None;
       Options.forceNew := false |}.

(** A parameter with a default: the default stands in for [undefined]
    only. *)
Definition default {A} (given : option A) (d : A) : A :=
  match given with
  | Some a => a
  | None => d
  end.

(** [translate(text, targetLanguage, sourceLanguage = 'en')]. *)
Definition translate (W : world) (D : services) (m : manager) (text : string)
    (targetLanguage : string) (sourceLanguage : option string)
    : manager * value :=
  let source := default sourceLanguage "en" in
  let fallback (m : manager) :=
    prompt W m
      ("Translate the following text from " ++ source ++ " to "
       ++ targetLanguage ++ ":" ++ nl ++ nl ++ text)
      (with_system "You are a professional translator.") in
  if truthy (translator (caps m)) then
    match can_translate D source targetLanguage with
    | Ok canTranslate =>
        if match canTranslate with
           | JStr s => String.eqb s "no"
           | _ => false
           end
        then fallback m
        else
          match translator_service D source targetLanguage text with
          | Ok result =>
              (count (served 1 0 0 "built-in-translator") m (session m), result)
          | Throw _ => fallback (count failed m (session m))
          end
    | Throw _ => fallback (count failed m (session m))
    end
  else fallback m.

(** [generateQuestions(content, count = 5, difficulty = 'medium')]. *)
Definition generateQuestions (W : world) (m : manager) (content : string)
    (count_ : option nat) (difficulty : option string) : manager * value :=
  prompt W m
    ("Based on the following content, generate "
     ++ str_of_nat (default count_ 5) ++ " " ++ default difficulty "medium"
     ++ " difficulty study questions. Format as a numbered list with clear, concise questions."
     ++ nl ++ nl ++ "Content:" ++ nl ++ content ++ nl ++ nl
     ++ "Generate " ++ str_of_nat (default count_ 5) ++ " questions:")
    (with_system
       "You are an educational assessment expert who creates effective study questions.").

(** [generateFlashcards(content, count = 10)]. *)
Definition generateFlashcards (W : world) (m : manager) (content : string)
    (count_ : option nat) : manager * value :=
  prompt W m
    ("Create " ++ str_of_nat (default count_ 10)
     ++ " flashcards from the following content. Format as:" ++ nl ++ nl
     ++ "Q: [Question]" ++ nl ++ "A: [Answer]" ++ nl ++ nl
     ++ "Content:" ++ nl ++ content ++ nl ++ nl
     ++ "Generate " ++ str_of_nat (default count_ 10) ++ " flashcards:")
    (with_system
       "You are an educational content creator specializing in flashcard creation.").

Definition structureNotes (W : world) (m : manager) (rawNotes : string)
    : manager * value :=
  prompt W m
    ("Convert these raw lecture notes into a well-structured study guide with:"
     ++ nl ++ "1. Main topics (use ## headings)"
     ++ nl ++ "2. Key concepts (use bullet points)"
     ++ nl ++ "3. Important definitions (use bold)"
     ++ nl ++ "4. Examples (use > blockquotes)"
     ++ nl ++ nl ++ "Raw notes:" ++ nl ++ rawNotes ++ nl ++ nl
     ++ "Structured notes:")
    (with_system
       "You are an expert at organizing educational content into clear, structured notes.").

(** [promptStreaming(text, onChunk, options)] with a callback: the
    manager afterwards, the chunks [onChunk] has received, in order, and
    the value returned.  The response is the last chunk of the stream,
    and the empty string when the stream yields none; a stream that
    fails leaves the request to [prompt], whose result is one more
    chunk. *)
Definition promptStreaming (W : world) (D : services) (m : manager)
    (text : string) (o : options) : manager * list value * value :=
  let fallback (m : manager) (seen : list value) :=
    let '(m', result) := prompt W m text o in
    (m', (seen ++ [result])%list, result) in
  match getPromptSession W m o with
  | (s, Ok true) =>
      match stream D text with
      | Some (chunks, None) =>
          (count (served 1 0 0 "built-in-streaming") m s, chunks,
           last chunks (JStr EmptyString))
      | Some (chunks, Some _) => fallback (count (fun u => u) m s) chunks
      | None => fallback (count (fun u => u) m s) []
      end
  | (s, _) => fallback (count (fun u => u) m s) []
  end.

(** *** Configuration and status *)

(** [loadGeminiConfig()]; [stored] is what [chrome.storage.sync.get]
    resolves to.  Hybrid mode is on unless the stored [hybridMode] is
    the boolean false. *)
Definition loadGeminiConfig (stored : res value) (m : manager) : manager :=
  match stored with
  | Ok storage =>
      match get storage "geminiApiKey" with
      | Ok key =>
          {| caps := caps m; session := session m;
             enabled := match prop_of storage "hybridMode" with
                        | JBool false => false
                        | _ => true
                        end;
             geminiApiKey := key; stats := stats m |}
      | Throw _ => m
      end
  | Throw _ => m
  end.

(** [setGeminiApiKey(apiKey)]: the key is set before it is stored, and
    the error of the store is the error of the call. *)
Definition setGeminiApiKey (stored : res unit) (m : manager) (apiKey : value)
    : manager * res unit :=
  ({| caps := caps m; session := session m; enabled := enabled m;
      geminiApiKey := apiKey; stats := stats m |}, stored).

Definition setHybridMode (stored : res unit) (m : manager) (on : bool)
    : manager * res unit :=
  ({| caps := caps m; session := session m; enabled := on;
      geminiApiKey := geminiApiKey m; stats := stats m |}, stored).

(** [cleanup()]: a [destroy] that throws leaves the session where it
    is. *)
Definition cleanup (D : services) (m : manager) : manager :=
  if session m then
    match destroy D with
    | Ok _ => {| caps := caps m; session := false; enabled := enabled m;
                 geminiApiKey := geminiApiKey m; stats := stats m |}
    | Throw _ => m
    end
  else m.

Definition getRecommendation (builtInAvailable geminiAvailable : bool) : string :=
  if builtInAvailable && geminiAvailable then
    "Optimal: Both built-in AI and Gemini API available"
  else if builtInAvailable then
    "Good: Built-in AI available, consider adding Gemini API for redundancy"
  else if geminiAvailable then
    "Good: Using Gemini API fallback, Chrome AI not available"
  else
    "Limited: Using basic fallback, please configure Gemini API or enable Chrome AI".

(** What [getStatus()] returns; the texts of the recommendation are
    given without the sign that starts them. *)
Record status : Type := {
  mode : string;
  status_capabilities : capabilities;
  hybrid_enabled : bool;
  geminiConfigured : bool;
  preferBuiltIn : bool;
  status_stats : usage;
  activeSessions : list string;
  recommendation : string
}.

Definition getStatus (m : manager) : status :=
  {| mode := "hybrid-enhanced";
     status_capabilities := caps m;
     hybrid_enabled := enabled m;
     geminiConfigured := truthy (geminiApiKey m);
     preferBuiltIn := true;
     status_stats := stats m;
     activeSessions := if session m then ["prompt"] else [];
     recommendation :=
       getRecommendation (isBuiltInAvailable m) (truthy (geminiApiKey m)) |}.

(** [initialize()]: nothing in it throws. *)
Definition initialize (G : globals) (stored : res value) (m : manager)
    : manager * status :=
  let m1 :=
    {| caps := checkCapabilities G (caps m); session := session m;
       enabled := enabled m; geminiApiKey := geminiApiKey m;
       stats := stats m |} in
  let m2 := loadGeminiConfig stored m1 in
  (m2, getStatus m2).

(** The manager the constructor makes. *)
Definition fresh : manager :=
  {| caps := {| prompt_cap := JNull; summarizer := JNull; writer := JNull;
                rewriter := JNull; translator := JNull; proofreader := JNull |};
     session := false; enabled := true; geminiApiKey := JNull;
     stats := {| builtInCalls := 0; geminiCalls := 0; fallbackCalls := 0;
                 errors := 0; lastMethod := None |} |}.

End AIManagerEnhanced.

(* ------------------------------------------------------------------ *)
(** ** Scenarios and vocabulary of the statements *)

(** An engine for the scenarios below; none of them reaches the two
    conversions it provides. *)
Definition sample_engine : engine :=
  {| coerced_gt_zero := fun _ => false;
     display := fun _ => "[object Object]" |}.

(** The text contains one of [.], [!], [?]. *)
Fixpoint has_terminator (text : string) : bool :=
  match text with
  | EmptyString => false
  | String c rest => is_terminator c || has_terminator rest
  end.

(** An ok response whose body is [data]. *)
Definition ok_response (data : value) : fetched :=
  Resolved {| ok := true; status := 200; statusText := "OK"; json := Ok data |}.

(** [{"candidates":[{"content":{"parts":[{"text":s}]}}]}]. *)
Definition payload_text (s : string) : value :=
  JObj [("candidates",
         JArr [JObj [("content", JObj [("parts", JArr [JObj [("text", JStr s)]])])]])].

(** [{"candidates":[{"output":s}]}]. *)
Definition payload_output (s : string) : value :=
  JObj [("candidates", JArr [JObj [("output", JStr s)]])].

(** [{"candidates":[{"content":{"parts":[{"text":5}]},"output":s}]}]:
    a number where the text should be, and an [output]. *)
Definition payload_number_and_output (s : string) : value :=
  JObj [("candidates",
         JArr [JObj [("content",
                      JObj [("parts", JArr [JObj [("text", JNum (5 # 1))]])]);
                     ("output", JStr s)]])].

(** [{"candidates":[]}]. *)
Definition payload_empty : value := JObj [("candidates", JArr [])].

(** The answer of the service for a model that it no longer has. *)
Definition not_found : fetched :=
  Resolved {| ok := false; status := 404; statusText := "Not Found";
              json := Ok (JObj [("error",
                                 JObj [("message", JStr "model not found")])]) |}.

(** A service on which the models have moved: only
    [gemini-1.5-pro-latest] answers, with [data]. *)
Definition moved_models (data : value) : network :=
  fun url _ =>
    if includes "gemini-1.5-pro-latest" url then ok_response data
    else not_found.

(** The URLs built from a list of endpoints and a key. *)
Definition keyed (key : string) (l : list string) : list string :=
  map (fun endpoint => (endpoint ++ "?key=" ++ key)%string) l.

(** The configuration of an [AIManager] with a key. *)
Definition gemini_config : AIManager.geminiConfig :=
  {| AIManager.apiKey := Some "key";
     AIManager.endpoint :=
       "https://generativelanguage.googleapis.com/v1/models/gemini-2.5-flash:generateContent" |}.

(** The two places where the text of an answer may be, read leniently:
    [candidates[0].content.parts[0].text] and [candidates[0].output]. *)
Definition first_candidate (data : value) : value :=
  get_opt (get_opt data "candidates") "0".

Definition path_text (data : value) : value :=
  get_opt (get_opt (get_opt (get_opt (first_candidate data) "content") "parts") "0")
    "text".

Definition path_output (data : value) : value :=
  get_opt (first_candidate data) "output".

Module Scenario.
Import HybridAIManager.

(** A browser without the on-device model. *)
Definition no_device : device :=
  {| defined := false; languageModel := false;
     capabilities := Throw "ai is not defined";
     has := fun _ => false;
     create := fun _ _ => Throw "ai is not defined";
     run := fun _ _ _ => Throw "ai is not defined" |}.

(** A browser whose on-device model is ready and echoes its input. *)
Definition echo_device : device :=
  {| defined := true; languageModel := true;
     capabilities := Ok (JObj [("available", JStr "readily")]);
     has := fun _ => true;
     create := fun _ _ => Ok tt;
     run := fun _ _ input => Ok (JStr input) |}.

(** A world without on-device model in which every [fetch] rejects
    with the message [reason]. *)
Definition offline (reason : string) : world :=
  {| eng := sample_engine;
     net := fun _ _ => Rejected reason;
     ai := no_device;
     storage := Ok (JObj []) |}.

(** A world in which the cloud answers every request with [data]. *)
Definition cloud (data : value) : world :=
  {| eng := sample_engine;
     net := fun _ _ => ok_response data;
     ai := no_device;
     storage := Ok (JObj [("geminiApiKey", JStr "key")]) |}.

Definition on_device : world :=
  {| eng := sample_engine;
     net := fun _ _ => Rejected "Failed to fetch";
     ai := echo_device;
     storage := Ok (JObj []) |}.

(** The managers that [initialize] leaves in these worlds. *)
Definition basic_only : manager := fst (initialize (offline "Failed to fetch") fresh).
Definition with_key : manager := fst (initialize (cloud payload_empty) fresh).
Definition with_device : manager := fst (initialize on_device fresh).

(** The worlds of the two managers on a service whose models have
    moved. *)
Definition moved (data : value) : world :=
  {| eng := sample_engine;
     net := moved_models data;
     ai := no_device;
     storage := Ok (JObj [("geminiApiKey", JStr "key")]) |}.

Definition enhanced_moved (data : value) : AIManagerEnhanced.world :=
  {| AIManagerEnhanced.eng := sample_engine;
     AIManagerEnhanced.net := moved_models data;
     AIManagerEnhanced.create_session := fun _ => Throw "ai is not defined";
     AIManagerEnhanced.session_prompt := fun _ => Throw "no session" |}.

(** A browser whose [ai] has the language model and nothing else: the
    check of [initialize] finds the model ready, and [ai.summarizer],
    [ai.translator], [ai.proofreader] and [ai.rewriter] are undefined. *)
Definition model_only_device : device :=
  {| defined := true; languageModel := true;
     capabilities := Ok (JObj [("available", JStr "readily")]);
     has := fun a => match a with LanguageModel => true | _ => false end;
     create := fun _ _ => Ok tt;
     run := fun _ _ input => Ok (JStr input) |}.

Definition model_only : world :=
  {| eng := sample_engine;
     net := fun _ _ => Rejected "Failed to fetch";
     ai := model_only_device;
     storage := Ok (JObj []) |}.

Definition with_model_only : manager := fst (initialize model_only fresh).

(** Options whose [length] names a member that every object inherits
    from [Object.prototype]. *)
Definition inherited_length : options :=
  {| Options.length := Some "constructor"; Options.format := None;
     Options.tone := None; Options.sourceLanguage := None;
     Options.targetLanguage := None; Options.difficulty := None;
     Options.level := None; Options.count := None;
     Options.systemPrompt := None; Options.temperature := None;
     Options.maxTokens := None; Options.forceNew := false |}.

(** The object under [ai] whose [create] the on-device strategy reads
    for an operation. *)
Definition device_object (D : device) (operation : string) : api :=
  if String.eqb operation "summarize" then Summarizer
  else if String.eqb operation "translate" then Translator
  else if String.eqb operation "proofread"
    then (if has D Proofreader then Proofreader else LanguageModel)
  else if String.eqb operation "rewrite"
    then (if has D Rewriter then Rewriter else LanguageModel)
  else LanguageModel.

(** The events that reach a backend of the on-device strategy. *)
Definition on_device_call (e : event) : bool :=
  match e with
  | Create _ | Run _ _ => true
  | _ => false
  end.

(** The events by which some strategy does its work: a call to the
    on-device objects, a [fetch], the start of the basic fallback. *)
Definition adapter_call (e : event) : bool :=
  match e with
  | Create _ | Run _ _ | Fetch _ _ | UsingBasicFallback => true
  | _ => false
  end.

(** A strategy call succeeds for the loop of [process] when it returns
    a truthy result. *)
Definition succeeds (call : M value) : bool :=
  match call with
  | (_, Ok r) => truthy r
  | (_, Throw _) => false
  end.

(** An enhanced manager with a key and no on-device model, and the
    world in which every endpoint answers [data]. *)
Definition enhanced_world (data : value) : AIManagerEnhanced.world :=
  {| AIManagerEnhanced.eng := sample_engine;
     AIManagerEnhanced.net := fun _ _ => ok_response data;
     AIManagerEnhanced.create_session := fun _ => Throw "ai is not defined";
     AIManagerEnhanced.session_prompt := fun _ => Throw "no session" |}.

Definition no_stats : AIManagerEnhanced.usage :=
  {| AIManagerEnhanced.builtInCalls := 0; AIManagerEnhanced.geminiCalls := 0;
     AIManagerEnhanced.fallbackCalls := 0; AIManagerEnhanced.errors := 0;
     AIManagerEnhanced.lastMethod := None |}.

Definition enhanced_with_key : AIManagerEnhanced.manager :=
  {| AIManagerEnhanced.caps :=
       {| AIManagerEnhanced.prompt_cap := JNull;
          AIManagerEnhanced.summarizer := JNull;
          AIManagerEnhanced.writer := JNull;
          AIManagerEnhanced.rewriter := JNull;
          AIManagerEnhanced.translator := JNull;
          AIManagerEnhanced.proofreader := JNull |};
     AIManagerEnhanced.session := false;
     AIManagerEnhanced.enabled := true;
     AIManagerEnhanced.geminiApiKey := JStr "key";
     AIManagerEnhanced.stats := no_stats |}.

(** The events a strategy produces while it works: none of them is a
    line of the loop of [process]. *)
Definition strategy_event (e : event) : bool :=
  match e with
  | Create _ | Run _ _ | Fetch _ _ | GeminiError _ | UsingBasicFallback => true
  | _ => false
  end.

(** The names after [Trying], in the order of the console. *)
Fixpoint tried (t : list event) : list string :=
  match t with
  | [] => []
  | Trying name :: rest => name :: tried rest
  | _ :: rest => tried rest
  end.

(** The failures logged by the loop, with their messages, and the
    strategies logged as successful. *)
Fixpoint failures (t : list event) : list (string * string) :=
  match t with
  | [] => []
  | Failed name msg :: rest => (name, msg) :: failures rest
  | _ :: rest => failures rest
  end.

Fixpoint successes (t : list event) : list string :=
  match t with
  | [] => []
  | Succeeded name :: rest => name :: successes rest
  | _ :: rest => successes rest
  end.

Definition names : list string := ["Built-in AI"; "Gemini API"; "Basic Fallback"].

(** A strategy that a resolution never invokes: the loop does not
    announce it and logs no failure for it. *)
Definition never_invoked (name : string) (e : execution) : Prop :=
  ~ In name (tried (trace e))
  /\ forall msg, ~ In (name, msg) (failures (trace e)).

(** A request that is turned down before any strategy works on it: an
    error comes back and no adapter has been called. *)
Definition rejected_before_dispatch (e : execution) : Prop :=
  (exists msg, returned e = Throw msg) /\ filter adapter_call (trace e) = [].

(** An attempt trail: the backends tried with the reason of their
    failure, if they failed. *)
Definition trail : Type := list (string * option string).

(** The returned outcome carries the attempt trail of a resolution in
    which the cloud failed for [reason] and the basic fallback served:
    [attemptedBackends] reads it off the outcome. *)
Definition carries_trail (attemptedBackends : outcome -> trail)
    (e : execution) (reason : string) : Prop :=
  exists out,
    returned e = Ok out
    /\ In ("Gemini API", Some reason) (attemptedBackends out)
    /\ In ("Basic Fallback", None) (attemptedBackends out)
    /\ forall r, In ("Gemini API", Some r) (attemptedBackends out) -> r = reason.

(** Two calls of [process] give the caller the same answer: the same
    result from the same strategy, or the same error. *)
Definition same_answer (a b : res outcome) : Prop :=
  match a, b with
  | Ok x, Ok y => result x = result y /\ method x = method y
  | Throw x, Throw y => x = y
  | _, _ => False
  end.

(** An enhanced manager with other counters. *)
Definition with_usage (m : AIManagerEnhanced.manager)
    (u : AIManagerEnhanced.usage) : AIManagerEnhanced.manager :=
  AIManagerEnhanced.count (fun _ => u) m (AIManagerEnhanced.session m).
End Scenario.

(* ------------------------------------------------------------------ *)
(** ** Vocabulary of the further properties *)

Module Observations.
Import HybridAIManager.

(** The requests sent to the cloud. *)
Definition is_fetch (e : event) : bool :=
  match e with
  | Fetch _ _ => true
  | _ => false
  end.

(** The calls a manager has answered, whatever the method. *)
Definition served_calls (u : usage) : nat :=
  builtInCalls u + cloudCalls u + fallbackCalls u.

(** A string that [trim] leaves as it is. *)
Definition trimmed (s : string) : Prop := trim s = s.

Definition carriage_return : ascii := "013".

Fixpoint has_char (c : ascii) (s : string) : bool :=
  match s with
  | EmptyString => false
  | String a rest => Ascii.eqb a c || has_char c rest
  end.

Fixpoint all_terminators (s : string) : bool :=
  match s with
  | EmptyString => true
  | String c rest => is_terminator c && all_terminators rest
  end.

(** The first character after the leading white space is a lowercase
    letter. *)
Definition starts_lower (s : string) : bool :=
  match trimStart s with
  | String c _ => is_lower c
  | EmptyString => false
  end.

Fixpoint all_digits (s : string) : bool :=
  match s with
  | EmptyString => true
  | String c rest => is_digit c && all_digits rest
  end.

(** A piece of text that can stand in a line of a structured answer:
    not empty, without white space at its ends, without a line break and
    without the separator of the flashcard format. *)
Definition plain (s : string) : Prop :=
  s <> EmptyString /\ trimmed s
  /\ has_char newline s = false /\ has_char "|" s = false.

(** One side of a flashcard that can be shown: not empty, without
    white space at its ends and without the separator. *)
Definition plain_side (s : string) : Prop :=
  s <> EmptyString /\ trimmed s /\ has_char "|" s = false.

(** A sentence as the heuristics see it: some text without [.], [!]
    or [?], then one or more of these marks. *)
Definition sentence_shaped (s : string) : Prop :=
  exists body marks,
    s = (body ++ marks)%string
    /\ body <> EmptyString /\ has_terminator body = false
    /\ marks <> EmptyString /\ all_terminators marks = true.

(** [a] is made of elements of [b], in the order they have in [b]. *)
Inductive subsequence {A : Type} : list A -> list A -> Prop :=
| sub_nil : subsequence [] []
| sub_take (x : A) (a b : list A) : subsequence a b -> subsequence (x :: a) (x :: b)
| sub_skip (x : A) (a b : list A) : subsequence a b -> subsequence a (x :: b).

(** [s'] is [s] with some of its lowercase letters in upper case. *)
Inductive raised : string -> string -> Prop :=
| raised_nil : raised EmptyString EmptyString
| raised_same (c : ascii) (s s' : string) :
    raised s s' -> raised (String c s) (String c s')
| raised_up (c : ascii) (s s' : string) :
    is_lower c = true -> raised s s' -> raised (String c s) (String (upper c) s').

(** A numbered list as the prompt of [generateQuestions] asks for it:
    one line per item, its number, a dot, a space and the question. *)
Definition numbered_line (item : string * string) : string :=
  (fst item ++ ". " ++ snd item)%string.

Definition numbered_list (items : list (string * string)) : string :=
  join nl (map numbered_line items).

(** The format the prompt of [createFlashcards] asks for:
    [Q: question | A: answer], one card per line. *)
Definition card_line (c : flashcard) : string :=
  ("Q: " ++ question c ++ " | A: " ++ answer c)%string.

Definition card_list (cards : list flashcard) : string :=
  join nl (map card_line cards).

(** The on-device API is there and [capabilities()] resolves to an
    object whose [available] is the string [word]. *)
Definition capabilities_say (D : device) (word : string) : Prop :=
  defined D = true /\ languageModel D = true
  /\ exists caps, capabilities D = Ok caps
                  /\ get caps "available" = Ok (JStr word).

(** The calls an enhanced manager has answered. *)
Definition enhanced_served (u : AIManagerEnhanced.usage) : nat :=
  AIManagerEnhanced.builtInCalls u + AIManagerEnhanced.geminiCalls u
  + AIManagerEnhanced.fallbackCalls u.

(** The books of an enhanced manager are in order after an operation
    that started at [m] and ended at [m']: one more call is counted as
    served, under the counter that the new [lastMethod] names; at most
    [budget] more errors are counted; the capabilities and the hybrid
    configuration are as before. *)
Definition accounted (budget : nat) (m m' : AIManagerEnhanced.manager) : Prop :=
  let u := AIManagerEnhanced.stats m in
  let u' := AIManagerEnhanced.stats m' in
  (exists name,
     AIManagerEnhanced.lastMethod u' = Some name
     /\ AIManagerEnhanced.builtInCalls u'
        = AIManagerEnhanced.builtInCalls u
          + (if prefix "built-in" name then 1 else 0)
     /\ AIManagerEnhanced.geminiCalls u'
        = AIManagerEnhanced.geminiCalls u
          + (if String.eqb name "gemini" then 1 else 0)
     /\ AIManagerEnhanced.fallbackCalls u'
        = AIManagerEnhanced.fallbackCalls u
          + (if String.eqb name "fallback" then 1 else 0))
  /\ enhanced_served u' = S (enhanced_served u)
  /\ AIManagerEnhanced.errors u <= AIManagerEnhanced.errors u'
  /\ AIManagerEnhanced.errors u' <= AIManagerEnhanced.errors u + budget
  /\ AIManagerEnhanced.caps m' = AIManagerEnhanced.caps m
  /\ AIManagerEnhanced.enabled m' = AIManagerEnhanced.enabled m
  /\ AIManagerEnhanced.geminiApiKey m' = AIManagerEnhanced.geminiApiKey m.

(** The key store can be read and holds [v] under [name]. *)
Definition stored_under (stored : res value) (name : string) (v : value) : Prop :=
  exists storage,
    stored = Ok storage /\ storage <> JNull /\ storage <> JUndefined
    /\ prop_of storage name = v.

(** The key store cannot be read: the read fails or gives nothing. *)
Definition unreadable (stored : res value) : Prop :=
  (exists msg, stored = Throw msg) \/ stored = Ok JNull \/ stored = Ok JUndefined.

(** The world [W] with another network, and with another way to create
    sessions. *)
Definition with_network (W : AIManagerEnhanced.world) (net' : network)
    : AIManagerEnhanced.world :=
  {| AIManagerEnhanced.eng := AIManagerEnhanced.eng W;
     AIManagerEnhanced.net := net';
     AIManagerEnhanced.create_session := AIManagerEnhanced.create_session W;
     AIManagerEnhanced.session_prompt := AIManagerEnhanced.session_prompt W |}.

Definition with_create (W : AIManagerEnhanced.world)
    (create' : options -> res unit) : AIManagerEnhanced.world :=
  {| AIManagerEnhanced.eng := AIManagerEnhanced.eng W;
     AIManagerEnhanced.net := AIManagerEnhanced.net W;
     AIManagerEnhanced.create_session := create';
     AIManagerEnhanced.session_prompt := AIManagerEnhanced.session_prompt W |}.

(** The world [W] with another network. *)
Definition with_cloud (W : AIManager.world) (net' : network) : AIManager.world :=
  {| AIManager.eng := AIManager.eng W;
     AIManager.net := net';
     AIManager.chrome := AIManager.chrome W;
     AIManager.supplied := AIManager.supplied W |}.

(** The world [W] with a user who gives another answer when asked for
    a key. *)
Definition with_supplied (W : AIManager.world) (answer : option string)
    : AIManager.world :=
  {| AIManager.eng := AIManager.eng W;
     AIManager.net := AIManager.net W;
     AIManager.chrome := AIManager.chrome W;
     AIManager.supplied := answer |}.

(** A [data:] URL: the media type, what follows it in the header (nothing,
    or parameters after a semicolon), a comma and the payload. *)
Definition data_url (mime params payload : string) : string :=
  ("data:" ++ mime ++ params ++ "," ++ payload)%string.

End Observations.

(* ------------------------------------------------------------------ *)
(** ** Facts about the heuristics *)

Section Heuristics.
Import HybridAIManager.

Lemma scan_without_terminator (s body : string) :
  has_terminator s = false -> scan_sentences body EmptyString s = [].
Proof.
  revert body.
  induction s as [|c rest IH]; intros body H; simpl in *.
  - reflexivity.
  - apply orb_false_iff in H as [Hc Hrest].
    rewrite Hc. simpl. apply IH. exact Hrest.
Qed.

Lemma no_sentence_without_terminator (text : string) :
  has_terminator text = false -> match_sentences text = [].
Proof. apply scan_without_terminator. Qed.

Lemma basic_summary_empty (text : string) (o : options) :
  has_terminator text = false ->
  inherited (or_str (Options.length o) "medium") = false ->
  basicSummarize text o = EmptyString.
Proof.
  intros Ht Hi. unfold basicSummarize.
  rewrite (no_sentence_without_terminator text Ht).
  unfold count_for. rewrite Hi.
  destruct (String.eqb _ "short"); [reflexivity|].
  destruct (String.eqb _ "medium"); [reflexivity|].
  destruct (String.eqb _ "long"); reflexivity.
Qed.
End Heuristics.

(* ------------------------------------------------------------------ *)
(** ** The heuristics and parsers on small inputs *)

Section Examples.
Import HybridAIManager.

Example sentences_of_a_text :
  match_sentences "Hello world. How are you?! fine"
  = ["Hello world."; " How are you?!"].
Proof. reflexivity. Qed.

Example sentences_skip_leading_terminators :
  match_sentences "...Hello. .x!" = ["Hello."; " ."; "x!"].
Proof. reflexivity. Qed.

Example summary_of_ten_sentences :
  basicSummarize "A. B. C. D. E. F. G. H. I. J." Options.none
  = "A.  C.  E.  J.".
Proof. reflexivity. Qed.

Example summary_of_two_sentences :
  basicSummarize "One. Two." Options.none = "One.  Two.".
Proof. reflexivity. Qed.

(** Under a [length] that names a member of [Object.prototype] the early
    return is not taken, and two undefined sentences are joined. *)
Example summary_with_inherited_length :
  basicSummarize "hello"
    {| Options.length := Some "constructor"; Options.format := None;
       Options.tone := None; Options.sourceLanguage := None;
       Options.targetLanguage := None; Options.difficulty := None;
       Options.level := None; Options.count := None;
       Options.systemPrompt := None; Options.temperature := None;
       Options.maxTokens := None; Options.forceNew := false |}
  = " ".
Proof. reflexivity. Qed.

Example translation_notice :
  basicTranslate "a b&c" Options.none
  = "Translation not available offline. Open Google Translate: https://translate.google.com/?sl=en&tl=es&text=a%20b%26c".
Proof. reflexivity. Qed.

Example questions_from_a_text :
  basicGenerateQuestions "The quick brown fox jumps over the dog. Next."
  = ["What do you know about The quick brown fox jumps?";
     "What is the main topic discussed?";
     "Can you explain the key concept mentioned?";
     "What are the important points to remember?";
     "How does this information relate to the subject?"].
Proof. reflexivity. Qed.

Example flashcards_from_a_text :
  basicCreateFlashcards "In 1999 the Matrix came out. it was good."
  = [{| question := "What is In?"; answer := "In 1999 the Matrix came out." |};
     {| question := "Fact #2"; answer := "it was good." |}].
Proof. reflexivity. Qed.

Example no_flashcard_without_sentence : basicCreateFlashcards "hello" = [].
Proof. reflexivity. Qed.

Example proofread_a_text :
  basicProofread "teh cat. it TEH dont care" = "The cat. It the don't care".
Proof. reflexivity. Qed.

Example numbered_questions :
  parseQuestions
    ("1. What is the meaning of life?" ++ nl ++ "2) short" ++ nl ++ "   " ++ nl
     ++ "Another long question here")
  = ["What is the meaning of life?"; "Another long question here"].
Proof. reflexivity. Qed.

Example flashcard_line :
  parseFlashcards ("Q: What? | A: That" ++ nl ++ "something else")
  = Ok [{| question := "What?"; answer := "That" |}].
Proof. reflexivity. Qed.

(** Both labels and no [|]: the answer half is undefined. *)
Example flashcard_line_without_separator :
  parseFlashcards "Q: What? A: That"
  = Throw "Cannot read properties of undefined (reading 'replace')".
Proof. reflexivity. Qed.

Example words_of_a_text : split_ws false " a  b " = [EmptyString; "a"; "b"; EmptyString].
Proof. reflexivity. Qed.
End Examples.

(* ------------------------------------------------------------------ *)
(** ** Facts about the loop of [process] *)

Section Resolver.
Import HybridAIManager Scenario.

(** The basic fallback logs its line and returns; it never throws. *)
Lemma basic_fallback_returns (text operation : string) (o : options) :
  exists r, processWithBasicFallback text operation o = ([UsingBasicFallback], Ok r).
Proof.
  unfold processWithBasicFallback, mbind, emit, ret.
  eexists. reflexivity.
Qed.

Lemma basic_fallback_summarize (text : string) (o : options) :
  processWithBasicFallback text "summarize" o
  = ([UsingBasicFallback], Ok (JStr (basicSummarize text o))).
Proof. reflexivity. Qed.

(** Whatever the strategies are, the only error the loop raises is the
    terminal one. *)
Lemma attempt_throws_all_failed (l : list strategy) (text operation : string)
    (o : options) (st st' : usage) (t : list event) (msg : string) :
  attempt l text operation o st = (st', (t, Throw msg)) -> msg = all_failed.
Proof.
  revert st st' t.
  induction l as [|[name f] rest IH]; intros st st' t H; simpl in H.
  - inversion H. reflexivity.
  - destruct (f text operation o) as [t1 [r1|e1]].
    + destruct (truthy r1).
      * inversion H.
      * destruct (attempt rest text operation o st) as [st2 [t2 out2]] eqn:E.
        inversion H; subst. eapply IH. exact E.
    + destruct (attempt rest text operation o (count_error st))
        as [st2 [t2 out2]] eqn:E.
      inversion H; subst. eapply IH. exact E.
Qed.

Lemma process_throws_all_failed (W : world) (m : manager)
    (text operation : string) (o : options) (msg : string) :
  returned (process W m text operation o) = Throw msg -> msg = all_failed.
Proof.
  unfold process.
  destruct (attempt (strategies W m) text operation o (mstats m))
    as [st [t out]] eqn:E.
  simpl. intros ->. eapply attempt_throws_all_failed. exact E.
Qed.

(** [process] touches nothing of the manager but its counters. *)
Lemma process_keeps_configuration (W : world) (m : manager)
    (text operation : string) (o : options) :
  isBuiltInAIAvailable (final (process W m text operation o))
  = isBuiltInAIAvailable m
  /\ geminiApiKey (final (process W m text operation o)) = geminiApiKey m.
Proof.
  unfold process.
  destruct (attempt (strategies W m) text operation o (mstats m))
    as [st [t out]].
  split; reflexivity.
Qed.

Lemma call_trace (D : device) (a : api) (o : options) (input : string) :
  (has D a = false
   /\ call D a o input = ([], Throw (cannot_read JUndefined "create")))
  \/ (has D a = true
      /\ ((exists msg, call D a o input = ([Create a], Throw msg))
          \/ call D a o input = ([Create a; Run a input], run D a o input))).
Proof.
  unfold call, mbind, emit, lift, throw.
  destruct (has D a); [right; split; [reflexivity|]|left; split; reflexivity].
  destruct (create D a o) as [[]|msg].
  - right. destruct (run D a o input); reflexivity.
  - left. exists msg. reflexivity.
Qed.

Lemma call_events (D : device) (a : api) (o : options) (input : string) :
  forallb on_device_call (fst (call D a o input)) = true.
Proof.
  destruct (call_trace D a o input) as [[_ ->]|[_ [[msg ->]| ->]]];
    reflexivity.
Qed.

Lemma mbind_lift_trace {A B} (c : M A) (f : A -> res B) :
  fst (mbind c (fun x => lift (f x))) = fst c.
Proof.
  destruct c as [t [a|msg]]; simpl; [|reflexivity].
  unfold lift. simpl. apply app_nil_r.
Qed.

Lemma builtin_events (W : world) (m : manager) (text operation : string)
    (o : options) :
  forallb on_device_call (fst (processWithBuiltInAI W m text operation o)) = true.
Proof.
  unfold processWithBuiltInAI.
  destruct (negb (isBuiltInAIAvailable m)); [reflexivity|].
  destruct (negb (defined (ai W))); [reflexivity|].
  repeat match goal with
         | |- context [if String.eqb ?a ?b then _ else _] =>
             destruct (String.eqb a b)
         end;
    unfold generateQuestionsBuiltIn, createFlashcardsBuiltIn, proofreadBuiltIn,
      explainBuiltIn, rewriteBuiltIn;
    rewrite ?mbind_lift_trace;
    repeat match goal with
           | |- context [if has ?d ?a then _ else _] => destruct (has d a)
           end;
    apply call_events.
Qed.

Lemma gemini_trace (W : world) (m : manager) (text operation : string)
    (o : options) :
  truthy (geminiApiKey m) = true ->
  exists url b,
    (exists r, processWithGeminiAPI W m text operation o = ([Fetch url b], Ok r))
    \/ (exists msg, processWithGeminiAPI W m text operation o
                    = ([Fetch url b; GeminiError msg], Throw msg)).
Proof.
  intros Hk. unfold processWithGeminiAPI. rewrite Hk. cbn [negb].
  do 2 eexists.
  unfold mbind, emit, lift, throw, ret.
  destruct (net W _ _) as [msg|r].
  - right. eexists. reflexivity.
  - destruct (ok r); cbn [negb].
    + destruct (json r) as [data|msg]; [|right; eexists; reflexivity].
      destruct (answer_text data) as [res|msg]; [|right; eexists; reflexivity].
      destruct (String.eqb operation "generateQuestions").
      * destruct (parseQuestions_value res);
          [left|right]; eexists; reflexivity.
      * destruct (String.eqb operation "createFlashcards").
        -- destruct (parseFlashcards_value res);
             [left|right]; eexists; reflexivity.
        -- left; eexists; reflexivity.
    + destruct (json r) as [data|msg]; [|right; eexists; reflexivity].
      destruct (get data "error") as [e|msg]; right; eexists; reflexivity.
Qed.

Lemma gemini_events (W : world) (m : manager) (text operation : string)
    (o : options) :
  forallb strategy_event (fst (processWithGeminiAPI W m text operation o)) = true.
Proof.
  destruct (truthy (geminiApiKey m)) eqn:Hk.
  - destruct (gemini_trace W m text operation o Hk)
      as [url [b [[r ->]|[msg ->]]]]; reflexivity.
  - unfold processWithGeminiAPI. rewrite Hk. reflexivity.
Qed.

Lemma device_events_are_strategy_events (t : list event) :
  forallb on_device_call t = true -> forallb strategy_event t = true.
Proof.
  induction t as [|e t IH]; simpl; [reflexivity|].
  intros H. apply andb_true_iff in H as [He Ht].
  rewrite (IH Ht). destruct e; try discriminate; reflexivity.
Qed.

Lemma tried_app (a b : list event) : tried (a ++ b) = (tried a ++ tried b)%list.
Proof.
  induction a as [|e a IH]; simpl; [reflexivity|].
  destruct e; simpl; rewrite IH; reflexivity.
Qed.

Lemma tried_strategy_events (t : list event) :
  forallb strategy_event t = true -> tried t = [].
Proof.
  induction t as [|e t IH]; simpl; [reflexivity|].
  intros H. apply andb_true_iff in H as [He Ht].
  destruct e; try discriminate; apply IH; exact Ht.
Qed.

Lemma in_strategy_events (t : list event) (e : event) :
  forallb strategy_event t = true -> In e t -> strategy_event e = true.
Proof.
  intros H Hin. rewrite forallb_forall in H. apply H. exact Hin.
Qed.
End Resolver.

(* ------------------------------------------------------------------ *)
(** ** Where the basic fallback is a safety net *)

Section SafetyNet.
Import HybridAIManager Scenario.

Lemma nonempty_is_truthy (s : string) :
  s <> EmptyString -> truthy (JStr s) = true.
Proof. destruct s; [contradiction|reflexivity]. Qed.

Lemma scanned_sentences_nonempty (s body marks : string) :
  Forall (fun sentence => sentence <> EmptyString) (scan_sentences body marks s).
Proof.
  revert body marks.
  induction s as [|c rest IH]; intros body marks; simpl.
  - destruct marks as [|m ms]; simpl; [constructor|].
    constructor; [|constructor].
    destruct body; discriminate.
  - destruct (is_terminator c).
    + destruct (is_empty body); apply IH.
    + destruct marks as [|m ms]; simpl; [apply IH|].
      constructor; [destruct body; discriminate|apply IH].
Qed.

Lemma join_nonempty (sep first : string) (rest : list string) :
  first <> EmptyString -> join sep (first :: rest) <> EmptyString.
Proof.
  intros H. unfold join. simpl.
  destruct rest; [exact H|]. destruct first; [contradiction|discriminate].
Qed.

Lemma pick_extends (fuel i step count : nat) (sentences result : list string) :
  exists more, pick fuel i step count sentences result = (result ++ more)%list.
Proof.
  revert i result.
  induction fuel as [|fuel IH]; intros i result; simpl.
  - exists []. symmetry. apply app_nil_r.
  - destruct (i <? List.length sentences - 1).
    + destruct (List.length result <? count - 1).
      * destruct (IH (i + step) (result ++ [nth i sentences EmptyString])%list)
          as [more ->].
        rewrite <- app_assoc. eexists. reflexivity.
      * apply IH.
    + exists []. symmetry. apply app_nil_r.
Qed.

(** The fuel given to the loop of [basicSummarize] is enough: with a step
    of at least one the loop has ended when the fuel is spent, so more
    fuel changes nothing. *)
Lemma pick_fuel_enough (fuel extra i step count : nat)
    (sentences result : list string) :
  1 <= step -> List.length sentences - 1 <= i + fuel ->
  pick (fuel + extra) i step count sentences result
  = pick fuel i step count sentences result.
Proof.
  intros Hstep. revert i result.
  induction fuel as [|fuel IH]; intros i result Hfuel.
  - simpl. destruct extra; [reflexivity|]. simpl.
    destruct (i <? List.length sentences - 1) eqn:Hi; [|reflexivity].
    apply Nat.ltb_lt in Hi. lia.
  - simpl. destruct (i <? List.length sentences - 1); [|reflexivity].
    apply IH. lia.
Qed.

Lemma summary_step_positive (n count : nat) :
  1 <= count -> (n <=? count) = false -> 1 <= n / count.
Proof.
  intros Hc Hn. apply Nat.leb_gt in Hn.
  apply Nat.div_str_pos. lia.
Qed.

(** In [basicSummarize] the loop starts at [step] with as much fuel as
    there are sentences: it has ended by then. *)
Lemma summary_loop_has_ended (sentences result : list string)
    (count extra : nat) :
  1 <= count -> (List.length sentences <=? count) = false ->
  let n := List.length sentences in
  pick (n + extra) (n / count) (n / count) count sentences result
  = pick n (n / count) (n / count) count sentences result.
Proof.
  intros Hc Hn. cbv zeta. apply pick_fuel_enough.
  - apply summary_step_positive; assumption.
  - lia.
Qed.

(** A text with a sentence has a summary that is not empty. *)
Lemma basic_summary_nonempty (text : string) (o : options) :
  match_sentences text <> [] -> basicSummarize text o <> EmptyString.
Proof.
  intros Hs. unfold basicSummarize.
  pose proof (scanned_sentences_nonempty text EmptyString EmptyString) as Hall.
  fold (match_sentences text) in Hall.
  destruct (match_sentences text) as [|first rest]; [contradiction|].
  inversion Hall as [|? ? Hfirst _]; subst.
  destruct (count_for _) as [count|].
  - destruct (_ <=? count); [apply join_nonempty; exact Hfirst|].
    destruct (pick_extends (List.length (first :: rest))
                (List.length (first :: rest) / count)
                (List.length (first :: rest) / count) count (first :: rest)
                [nth 0 (first :: rest) EmptyString]) as [more ->].
    cbn [nth app]. apply join_nonempty. exact Hfirst.
  - cbn [nth]. apply join_nonempty. exact Hfirst.
Qed.

Lemma replace_word_nonempty (wrong right : string) (prev_word : bool) (s : string) :
  right <> EmptyString -> s <> EmptyString ->
  replace_word wrong right 0 prev_word s <> EmptyString.
Proof.
  intros Hr Hs. destruct s as [|c rest]; [contradiction|]. simpl.
  destruct (negb prev_word && _ && _); [|discriminate].
  destruct right; [contradiction|discriminate].
Qed.

Lemma corrections_keep_nonempty (l : list (string * string)) (text : string) :
  Forall (fun wr => snd wr <> EmptyString) l -> text <> EmptyString ->
  fold_left (fun acc wr => replace_word (fst wr) (snd wr) 0 false acc) l text
  <> EmptyString.
Proof.
  revert text. induction l as [|wr l IH]; intros text Hl Ht; simpl.
  - exact Ht.
  - inversion Hl; subst. apply IH; [assumption|].
    apply replace_word_nonempty; assumption.
Qed.

Lemma basic_proofread_nonempty (text : string) :
  text <> EmptyString -> basicProofread text <> EmptyString.
Proof.
  intros Ht. unfold basicProofread.
  assert (Hc : fold_left
                 (fun acc wr => replace_word (fst wr) (snd wr) 0 false acc)
                 corrections text <> EmptyString).
  { apply corrections_keep_nonempty; [|exact Ht].
    repeat constructor; discriminate. }
  destruct (fold_left _ corrections text) as [|c rest]; [contradiction|].
  simpl. destruct (is_lower c); simpl.
  - destruct (capitalize_lines false rest) as [|x [|y z]]; simpl;
      repeat match goal with |- context [if ?b then _ else _] => destruct b end;
      discriminate.
  - destruct (is_line_terminator c);
      match goal with
      | |- context [capitalize_lines ?b rest] =>
          destruct (capitalize_lines b rest) as [|x [|y z]]
      end; simpl;
      repeat match goal with |- context [if ?b then _ else _] => destruct b end;
      discriminate.
Qed.

(** On a text that is not empty the basic fallback gives a truthy result
    for every operation, summarize apart; for summarize it does as soon
    as the text has a sentence. *)
Lemma basic_fallback_succeeds (text operation : string) (o : options) :
  text <> EmptyString ->
  operation <> "summarize" \/ match_sentences text <> [] ->
  succeeds (processWithBasicFallback text operation o) = true.
Proof.
  intros Ht Hop. unfold processWithBasicFallback, mbind, emit, ret, succeeds.
  cbn [fst snd].
  destruct (String.eqb operation "summarize") eqn:Hsum.
  { apply String.eqb_eq in Hsum. destruct Hop as [Hop|Hs]; [contradiction|].
    apply nonempty_is_truthy. apply basic_summary_nonempty. exact Hs. }
  destruct (String.eqb operation "translate"); [reflexivity|].
  destruct (String.eqb operation "generateQuestions"); [reflexivity|].
  destruct (String.eqb operation "createFlashcards"); [reflexivity|].
  destruct (String.eqb operation "proofread").
  { apply nonempty_is_truthy. apply basic_proofread_nonempty. exact Ht. }
  destruct (String.eqb operation "explain"); [reflexivity|].
  destruct (String.eqb operation "rewrite").
  { apply nonempty_is_truthy. exact Ht. }
  reflexivity.
Qed.

(** So the terminal error of [process] on a text that is not empty is
    confined to the summary of a text without a sentence. *)
Lemma terminal_error_only_for_summaries (W : world) (m : manager)
    (text operation : string) (o : options) (msg : string) :
  text <> EmptyString ->
  returned (process W m text operation o) = Throw msg ->
  operation = "summarize" /\ match_sentences text = [].
Proof.
  intros Ht Hthrow.
  destruct (string_dec operation "summarize") as [Hop|Hop];
    destruct (match_sentences text) as [|first rest] eqn:Hs;
    try (split; [assumption|reflexivity]); exfalso.
  all: assert (Hbasic : succeeds (processWithBasicFallback text operation o) = true)
         by (apply basic_fallback_succeeds;
             [exact Ht | first [left; exact Hop | right; rewrite Hs; discriminate]]).
  all: revert Hthrow Hbasic; unfold succeeds, process, strategies;
         cbn [attempt throw].
  all: destruct (processWithBuiltInAI W m text operation o) as [t1 [r1|e1]];
         [destruct (truthy r1)|];
         (destruct (processWithGeminiAPI W m text operation o) as [t2 [r2|e2]];
          [destruct (truthy r2)|]);
         (destruct (processWithBasicFallback text operation o) as [t3 [r3|e3]];
          [destruct (truthy r3)|]);
         cbn; intros; discriminate.
Qed.
End SafetyNet.

(* ------------------------------------------------------------------ *)
(** ** The resolution loop: claims C1, C3, C4, C5, C8 and C10 *)

Section ResolverClaims.
Import HybridAIManager Scenario.

Lemma failures_app (a b : list event) :
  failures (a ++ b) = (failures a ++ failures b)%list.
Proof.
  induction a as [|e a IH]; simpl; [reflexivity|].
  destruct e; simpl; rewrite IH; reflexivity.
Qed.

Lemma successes_app (a b : list event) :
  successes (a ++ b) = (successes a ++ successes b)%list.
Proof.
  induction a as [|e a IH]; simpl; [reflexivity|].
  destruct e; simpl; rewrite IH; reflexivity.
Qed.

Lemma failures_strategy_events (t : list event) :
  forallb strategy_event t = true -> failures t = [].
Proof.
  induction t as [|e t IH]; simpl; [reflexivity|].
  intros H. apply andb_true_iff in H as [He Ht].
  destruct e; try discriminate; apply IH; exact Ht.
Qed.

Lemma successes_strategy_events (t : list event) :
  forallb strategy_event t = true -> successes t = [].
Proof.
  induction t as [|e t IH]; simpl; [reflexivity|].
  intros H. apply andb_true_iff in H as [He Ht].
  destruct e; try discriminate; apply IH; exact Ht.
Qed.

(** The three strategy calls of one resolution, with what is known of
    their traces. *)
Ltac resolve W m text operation o :=
  pose proof (device_events_are_strategy_events _
                (builtin_events W m text operation o)) as Hdev;
  pose proof (gemini_events W m text operation o) as Hcloud;
  unfold process, strategies; cbn [attempt throw];
  destruct (processWithBuiltInAI W m text operation o) as [t1 [r1|e1]] eqn:E1;
  [destruct (truthy r1) eqn:T1|];
  (destruct (processWithGeminiAPI W m text operation o) as [t2 [r2|e2]] eqn:E2;
   [destruct (truthy r2) eqn:T2|]);
  (destruct (basic_fallback_returns text operation o) as [r3 E3];
   rewrite ?E3; destruct (truthy r3) eqn:T3);
  cbn [fst snd final trace returned] in *.

(** Reading the names, failures and successes off a trace made of
    strategy traces and lines of the loop. *)
Ltac read_trace :=
  repeat first
    [ rewrite tried_app | rewrite failures_app | rewrite successes_app
    | progress cbn [tried failures successes app] ];
  repeat match goal with
         | H : forallb strategy_event ?t = true |- _ =>
             rewrite ?(tried_strategy_events t H),
               ?(failures_strategy_events t H),
               ?(successes_strategy_events t H);
             clear H
         end;
  cbn [tried failures successes app].

Lemma builtin_unavailable (W : world) (m : manager) (text operation : string)
    (o : options) :
  isBuiltInAIAvailable m = false ->
  processWithBuiltInAI W m text operation o
  = ([], Throw "Built-in AI not available").
Proof. intros H. unfold processWithBuiltInAI. rewrite H. reflexivity. Qed.

Lemma gemini_unconfigured (W : world) (m : manager) (text operation : string)
    (o : options) :
  truthy (geminiApiKey m) = false ->
  processWithGeminiAPI W m text operation o
  = ([], Throw "Gemini API key not configured").
Proof. intros H. unfold processWithGeminiAPI. rewrite H. reflexivity. Qed.

Lemma call_starts_with_create (D : device) (a : api) (o : options)
    (input : string) :
  has D a = true ->
  exists rest, fst (call D a o input) = Create a :: rest.
Proof.
  intros H.
  destruct (call_trace D a o input) as [[H' _]|[_ [[msg ->]| ->]]];
    [congruence| |]; eexists; reflexivity.
Qed.

Lemma call_without_object (D : device) (a : api) (o : options)
    (input : string) :
  has D a = false ->
  call D a o input = ([], Throw (cannot_read JUndefined "create")).
Proof. intros H. unfold call. rewrite H. reflexivity. Qed.

(** The on-device strategy past its guard: it reads [create] of the
    object of the operation, which is its first call when the object
    is there and a TypeError with nothing called when it is not. *)
Lemma builtin_dispatch (W : world) (m : manager) (text operation : string)
    (o : options) :
  isBuiltInAIAvailable m = true ->
  defined (ai W) = true ->
  (has (ai W) (device_object (ai W) operation) = true ->
   exists rest,
     fst (processWithBuiltInAI W m text operation o)
     = Create (device_object (ai W) operation) :: rest)
  /\ (has (ai W) (device_object (ai W) operation) = false ->
      processWithBuiltInAI W m text operation o
      = ([], Throw (cannot_read JUndefined "create"))).
Proof.
  intros Ha Hd. unfold processWithBuiltInAI, device_object.
  rewrite Ha, Hd. cbn [negb].
  repeat match goal with
         | |- context [String.eqb operation ?b] =>
             destruct (String.eqb_spec operation b) as [->|_];
             cbn [String.eqb Ascii.eqb Bool.eqb]
         end;
    unfold generateQuestionsBuiltIn, createFlashcardsBuiltIn, proofreadBuiltIn,
      explainBuiltIn, rewriteBuiltIn;
    repeat match goal with
           | |- context [if has ?d ?a then _ else _] => destruct (has d a) eqn:?
           end;
    (split; intros Hobj;
     [ rewrite ?mbind_lift_trace; apply call_starts_with_create; exact Hobj
     | rewrite (call_without_object _ _ _ _ Hobj); reflexivity ]).
Qed.

Lemma cloud_leaves_the_device_alone (W : world) (m : manager)
    (text operation : string) (o : options) :
  filter on_device_call (fst (processWithGeminiAPI W m text operation o)) = [].
Proof.
  destruct (truthy (geminiApiKey m)) eqn:Hk.
  - destruct (gemini_trace W m text operation o Hk)
      as [url [b [[r ->]|[msg ->]]]]; reflexivity.
  - rewrite (gemini_unconfigured W m text operation o Hk). reflexivity.
Qed.

Ltac find_event :=
  repeat first [ apply in_eq | apply in_cons | apply in_or_app; right ].

Ltac pick_prefix :=
  first [ exists 1; split; [lia | reflexivity]
        | exists 2; split; [lia | reflexivity]
        | exists 3; split; [lia | reflexivity] ].

Ltac not_listed :=
  let H := fresh in
  intros H; cbn [In] in H;
  repeat match goal with
         | H : _ \/ _ |- _ => destruct H as [H|H]
         end;
  first [ discriminate | contradiction | (repeat split; reflexivity) ].

(** Claim C4 fails on the code: an unavailable strategy is not kept
    out of the loop.  With no on-device model (A unavailable), a key
    (B ready) and a cloud that answers, the resolution is served by the
    Gemini API, and yet the built-in strategy has been invoked: the
    loop announces it, logs its failure and counts it as an error. *)
Lemma unavailable_strategy_is_invoked :
  let e := process (cloud (payload_text "A summary.")) with_key
             "Some text." "summarize" Options.none in
  isBuiltInAIAvailable with_key = false
  /\ truthy (geminiApiKey with_key) = true
  /\ returned e
     = Ok {| result := JStr "A summary."; method := "Gemini API";
             stats := {| builtInCalls := 0; cloudCalls := 1;
                         fallbackCalls := 0; errors := 1 |} |}
  /\ ~ never_invoked "Built-in AI" e
  /\ tried (trace e) = ["Built-in AI"; "Gemini API"]
  /\ failures (trace e) = [("Built-in AI", "Built-in AI not available")].
Proof.
  cbv zeta. repeat split.
  intros [H _]. apply H. vm_compute. tauto.
Qed.

(** Claim C4 as amended.  The strategies are tried in the fixed order
    Built-in AI, Gemini API, Basic Fallback: the names tried are a
    prefix of that list, a successful outcome is served by the last one
    tried, and a strategy is tried only when every one before it has
    failed in this resolution.  When the built-in AI is unavailable (A)
    and a key is configured (B), the loop still invokes the built-in
    strategy, which throws at its guard: no on-device object is created
    or run, and the failure is the first thing logged.  The cloud is
    fetched next, and when the cloud succeeds it serves the outcome,
    the failure of A is the one error counted, and the basic fallback
    (C) is not touched. *)
Theorem priority_order_and_disqualification (W : world) (m : manager)
    (text operation : string) (o : options) :
  let e := process W m text operation o in
  let device := processWithBuiltInAI W m text operation o in
  let cloud := processWithGeminiAPI W m text operation o in
  ((exists k, 1 <= k <= 3 /\ tried (trace e) = firstn k names)
   /\ (forall out, returned e = Ok out ->
         method out = last (tried (trace e)) EmptyString)
   /\ (In "Gemini API" (tried (trace e)) -> succeeds device = false)
   /\ (In "Basic Fallback" (tried (trace e)) ->
         succeeds device = false /\ succeeds cloud = false))
  /\ (isBuiltInAIAvailable m = false ->
      truthy (geminiApiKey m) = true ->
      device = ([], Throw "Built-in AI not available")
      /\ filter on_device_call (trace e) = []
      /\ firstn 3 (trace e)
         = [Trying "Built-in AI";
            Failed "Built-in AI" "Built-in AI not available";
            Trying "Gemini API"]
      /\ (exists url b rest, fst cloud = Fetch url b :: rest)
      /\ (succeeds cloud = true ->
          (exists r st,
             snd cloud = Ok r
             /\ returned e = Ok {| result := r; method := "Gemini API"; stats := st |}
             /\ errors st = S (errors (mstats m))
             /\ errors (mstats (final e)) = S (errors (mstats m)))
          /\ failures (trace e)
             = [("Built-in AI", "Built-in AI not available")]
          /\ ~ In UsingBasicFallback (trace e))).
Proof.
  cbv zeta. split.
  - unfold succeeds. resolve W m text operation o; read_trace.
    all: split; [pick_prefix|].
    all: split; [intros out H; inversion H; reflexivity|].
    all: split; not_listed.
  - intros Ha Hk.
    destruct (gemini_trace W m text operation o Hk) as [url [b Hc]].
    unfold process, strategies. cbn [attempt throw].
    rewrite (builtin_unavailable W m text operation o Ha).
    destruct (basic_fallback_returns text operation o) as [r3 E3]. rewrite E3.
    unfold succeeds.
    destruct Hc as [[r ->]|[msg ->]]; [destruct (truthy r) eqn:T|];
      destruct (truthy r3); cbn.
    all: split; [reflexivity|].
    all: split; [reflexivity|].
    all: split; [reflexivity|].
    all: split; [do 3 eexists; reflexivity|].
    all: try (intros; discriminate).
    all: intros _; split; [do 2 eexists; repeat split; reflexivity|].
    all: split; [reflexivity|].
    all: intros H; repeat destruct H as [H|H]; try discriminate; contradiction.
Qed.

(** Claim C4 as amended, at a world whose cloud answers: the built-in
    strategy fails at its guard, nothing on the device is called and
    the basic fallback stays idle. *)
Lemma priority_order_witness :
  filter on_device_call
    (trace (process (cloud (payload_text "A summary.")) with_key
              "Some text." "summarize" Options.none)) = []
  /\ failures
       (trace (process (cloud (payload_text "A summary.")) with_key
                 "Some text." "summarize" Options.none))
     = [("Built-in AI", "Built-in AI not available")]
  /\ ~ In UsingBasicFallback
         (trace (process (cloud (payload_text "A summary.")) with_key
                   "Some text." "summarize" Options.none)).
Proof.
  destruct (proj2 (priority_order_and_disqualification
                     (cloud (payload_text "A summary.")) with_key
                     "Some text." "summarize" Options.none)
              eq_refl eq_refl) as [_ [Hdevice [_ [_ Hcloud]]]].
  split; [exact Hdevice | exact (proj2 (Hcloud eq_refl))].
Defined.

(** Claim C1, at the input where the code departs from it.  With no
    on-device model and no key, summarizing the text [hello] makes
    [process] raise the terminal error although the basic fallback is
    there: its summary of a text without [.], [!] or [?] is the empty
    string, which the loop does not accept as a result. *)
Theorem unpunctuated_summary_fails_resolution : forall W : world,
  let e := process W basic_only "hello" "summarize" Options.none in
  returned e = Throw all_failed
  /\ trace e = [Trying "Built-in AI";
                Failed "Built-in AI" "Built-in AI not available";
                Trying "Gemini API";
                Failed "Gemini API" "Gemini API key not configured";
                Trying "Basic Fallback"; UsingBasicFallback]
  /\ basicSummarize "hello" Options.none = EmptyString.
Proof. intros W. repeat split. Qed.

(** Claim C10 fails on the code for one kind of options: when [length]
    names a member inherited from [Object.prototype], the summary of
    the unpunctuated text [hello world] is a blank, not the empty
    string, and the loop accepts it: the resolution is served by the
    basic fallback. *)
Lemma inherited_length_summary_is_served :
  let e := process (offline "Failed to fetch") basic_only
             "hello world" "summarize" inherited_length in
  has_terminator "hello world" = false
  /\ basicSummarize "hello world" inherited_length = " "
  /\ basicSummarize "hello world" inherited_length <> EmptyString
  /\ truthy (JStr (basicSummarize "hello world" inherited_length)) = true
  /\ returned e
     = Ok {| result := JStr " "; method := "Basic Fallback";
             stats := {| builtInCalls := 0; cloudCalls := 0;
                         fallbackCalls := 1; errors := 2 |} |}.
Proof. cbv zeta. repeat split. discriminate. Qed.

(** Claim C10 as amended.  For every text without a sentence terminator
    and a [length] option that is not a member inherited from
    [Object.prototype], [basicSummarize] returns the empty string; the
    guard [if (result)] of the loop takes it for a failed attempt, so
    no such resolution is ever served by the basic fallback, and it
    raises the terminal error whenever the two AI strategies do not
    succeed.  The text may be empty or not. *)
Theorem basic_summary_of_unpunctuated_text (text : string) (o : options) :
  has_terminator text = false ->
  inherited (or_str (Options.length o) "medium") = false ->
  basicSummarize text o = EmptyString
  /\ truthy (JStr (basicSummarize text o)) = false
  /\ forall (W : world) (m : manager),
       let e := process W m text "summarize" o in
       (forall out, returned e = Ok out -> method out <> "Basic Fallback")
       /\ (succeeds (processWithBuiltInAI W m text "summarize" o) = false ->
           succeeds (processWithGeminiAPI W m text "summarize" o) = false ->
           returned e = Throw all_failed).
Proof.
  intros Ht Hi. pose proof (basic_summary_empty text o Ht Hi) as Hs.
  split; [exact Hs|]. split; [rewrite Hs; reflexivity|].
  intros W m. unfold process, strategies. cbn [attempt].
  rewrite basic_fallback_summarize, Hs.
  unfold succeeds.
  destruct (processWithBuiltInAI W m text "summarize" o) as [t1 [r1|e1]];
    [destruct (truthy r1) eqn:T1|];
    (destruct (processWithGeminiAPI W m text "summarize" o) as [t2 [r2|e2]];
     [destruct (truthy r2) eqn:T2|]); cbn.
  all: split; [intros out H; inversion H; subst; cbn; discriminate|].
  all: try (intros; discriminate).
  all: intros; reflexivity.
Qed.

(** Claim C10 as amended, at the text [hello world] with default
    options. *)
Lemma basic_summary_witness :
  basicSummarize "hello world" Options.none = EmptyString
  /\ returned (process (offline "Failed to fetch") basic_only
                 "hello world" "summarize" Options.none) = Throw all_failed.
Proof.
  destruct (basic_summary_of_unpunctuated_text "hello world" Options.none
              eq_refl eq_refl) as [Hempty [_ Hloop]].
  split; [exact Hempty|].
  exact (proj2 (Hloop (offline "Failed to fetch") basic_only) eq_refl eq_refl).
Defined.

(** Claim C3 fails on the code: the empty text is not turned down.
    Without AI, translating the empty text is served by the basic
    fallback, and with a ready on-device model the translator is run
    on the empty text. *)
Lemma empty_text_reaches_the_adapters :
  let e := process (offline "Failed to fetch") basic_only
             EmptyString "translate" Options.none in
  ~ rejected_before_dispatch e
  /\ returned e
     = Ok {| result :=
               JStr "Translation not available offline. Open Google Translate: https://translate.google.com/?sl=en&tl=es&text=";
             method := "Basic Fallback";
             stats := {| builtInCalls := 0; cloudCalls := 0;
                         fallbackCalls := 1; errors := 2 |} |}
  /\ In UsingBasicFallback (trace e)
  /\ In (Run Translator EmptyString)
       (trace (process on_device with_device
                 EmptyString "translate" Options.none)).
Proof.
  cbv zeta. split; [|split; [reflexivity|split]].
  - intros [[msg H] _]. vm_compute in H. discriminate.
  - vm_compute. tauto.
  - vm_compute. tauto.
Qed.

(** Claim C3 as amended.  For a request whose text is empty [process]
    does no validation: the loop starts as for any text, the only error
    it can raise is the terminal one, the outcome is served by an AI
    strategy or else the basic fallback is invoked.  When the on-device
    model is available and the object of the operation (the summarizer
    for a summary, the translator for a translation, the proofreader or
    the rewriter when they are there, the language model otherwise) is
    under [ai], the [create] of that object is the first adapter call;
    when that object is missing, the on-device strategy fails with the
    TypeError of reading [create], nothing on the device is called and
    the loop goes on.  Without AI the basic fallback is the one adapter
    called. *)
Theorem empty_text_goes_through_the_strategies (W : world) (m : manager)
    (operation : string) (o : options) :
  let e := process W m EmptyString operation o in
  let a := device_object (ai W) operation in
  (forall msg, returned e = Throw msg -> msg = all_failed)
  /\ hd_error (trace e) = Some (Trying "Built-in AI")
  /\ ((exists out, returned e = Ok out
                   /\ (method out = "Built-in AI" \/ method out = "Gemini API"))
      \/ In UsingBasicFallback (trace e))
  /\ (isBuiltInAIAvailable m = true -> defined (ai W) = true ->
      (has (ai W) a = true ->
       hd_error (filter adapter_call (trace e)) = Some (Create a))
      /\ (has (ai W) a = false ->
          filter on_device_call (trace e) = []
          /\ firstn 3 (trace e)
             = [Trying "Built-in AI";
                Failed "Built-in AI" (cannot_read JUndefined "create");
                Trying "Gemini API"]))
  /\ (isBuiltInAIAvailable m = false -> truthy (geminiApiKey m) = false ->
      filter adapter_call (trace e) = [UsingBasicFallback]).
Proof.
  cbv zeta. split; [apply process_throws_all_failed|].
  split; [|split; [|split]].
  - resolve W m EmptyString operation o; reflexivity.
  - resolve W m EmptyString operation o.
    all: try (left; eexists; split; [reflexivity|]; cbn; tauto).
    all: right; find_event.
  - intros Ha Hai.
    destruct (builtin_dispatch W m EmptyString operation o Ha Hai)
      as [Hthere Hmissing].
    split; intros Hobj.
    + destruct (Hthere Hobj) as [rest Hd]. revert Hd.
      resolve W m EmptyString operation o; intros ->; reflexivity.
    + pose proof (cloud_leaves_the_device_alone W m EmptyString operation o)
        as Hc.
      unfold process, strategies. cbn [attempt throw].
      rewrite (Hmissing Hobj).
      destruct (processWithGeminiAPI W m EmptyString operation o)
        as [t2 [r2|e2]]; [destruct (truthy r2)|];
        (destruct (basic_fallback_returns EmptyString operation o) as [r3 E3];
         rewrite ?E3; destruct (truthy r3));
        cbn [fst snd final trace returned app filter on_device_call firstn] in *;
        rewrite ?filter_app, ?Hc; split; reflexivity.
  - intros Ha Hk. unfold process, strategies. cbn [attempt throw].
    rewrite (builtin_unavailable W m EmptyString operation o Ha).
    rewrite (gemini_unconfigured W m EmptyString operation o Hk).
    destruct (basic_fallback_returns EmptyString operation o) as [r3 E3].
    rewrite E3. destruct (truthy r3); reflexivity.
Qed.

(** Claim C3 as amended, at a ready device with a translator, at a
    device that has the language model only, and at a browser without
    AI. *)
Lemma empty_text_witness :
  hd_error (filter adapter_call
              (trace (process on_device with_device
                        EmptyString "translate" Options.none)))
  = Some (Create Translator)
  /\ filter on_device_call
       (trace (process model_only with_model_only
                 EmptyString "translate" Options.none))
     = []
  /\ filter adapter_call
       (trace (process (offline "Failed to fetch") basic_only
                 EmptyString "translate" Options.none))
     = [UsingBasicFallback].
Proof.
  split; [|split].
  - exact (proj1 (proj1 (proj2 (proj2 (proj2
             (empty_text_goes_through_the_strategies on_device with_device
                "translate" Options.none)))) eq_refl eq_refl) eq_refl).
  - exact (proj1 (proj2 (proj1 (proj2 (proj2 (proj2
             (empty_text_goes_through_the_strategies model_only
                with_model_only "translate" Options.none)))) eq_refl eq_refl)
             eq_refl)).
  - exact (proj2 (proj2 (proj2 (proj2
             (empty_text_goes_through_the_strategies
                (offline "Failed to fetch") basic_only
                "translate" Options.none)))) eq_refl eq_refl).
Defined.

(** Claim C5 fails on the code: the returned outcome carries no attempt
    trail.  Two resolutions in which the cloud fails for different
    reasons return the very same outcome, so nothing read off the
    outcome can give the reason of the failure. *)
Lemma outcome_has_no_attempt_trail :
  ~ exists attemptedBackends : outcome -> trail,
      carries_trail attemptedBackends
        (process (offline "Request timed out") with_key
           "Hello there." "summarize" Options.none)
        "Request timed out"
      /\ carries_trail attemptedBackends
           (process (offline "Failed to fetch") with_key
              "Hello there." "summarize" Options.none)
           "Failed to fetch".
Proof.
  intros [f [[o1 [H1 [_ [_ U1]]]] [o2 [H2 [A2 _]]]]].
  vm_compute in H1. vm_compute in H2.
  inversion H1; subst o1. inversion H2; subst o2.
  specialize (U1 _ A2). discriminate.
Qed.

(** Claim C5 as amended.  The error of a strategy never reaches the
    caller: the only error of [process] is the terminal one, raised
    when all three strategies have failed.  When the cloud throws and
    the basic fallback succeeds, the outcome is served by Basic
    Fallback; the failure of the cloud is counted in [stats.errors] and
    logged on the console with its message, and the only success
    logged is that of the basic fallback. *)
Theorem cloud_failure_falls_back (W : world) (m : manager)
    (text operation : string) (o : options) :
  let e := process W m text operation o in
  let device := processWithBuiltInAI W m text operation o in
  let cloud := processWithGeminiAPI W m text operation o in
  let basic := processWithBasicFallback text operation o in
  (forall msg, returned e = Throw msg ->
     msg = all_failed
     /\ succeeds device = false /\ succeeds cloud = false
     /\ succeeds basic = false)
  /\ (forall reason,
        succeeds device = false ->
        snd cloud = Throw reason ->
        succeeds basic = true ->
        (exists r st,
           snd basic = Ok r
           /\ returned e = Ok {| result := r; method := "Basic Fallback"; stats := st |}
           /\ fallbackCalls st = S (fallbackCalls (mstats m))
           /\ errors (mstats m) < errors st
           /\ errors st <= errors (mstats m) + 2)
        /\ (exists earlier, failures (trace e)
                            = (earlier ++ [("Gemini API", reason)])%list)
        /\ successes (trace e) = ["Basic Fallback"]).
Proof.
  cbv zeta. unfold succeeds. split.
  - resolve W m text operation o; intros msg H; inversion H; subst;
      repeat split.
  - intros reason.
    resolve W m text operation o; read_trace; intros H1 H2 H3;
      try discriminate.
    all: inversion H2; subst.
    all: split; [do 2 eexists; split; [reflexivity|]; split; [reflexivity|];
                 cbn; repeat split; lia|].
    all: split; [|reflexivity].
    + exists []. reflexivity.
    + eexists [_]. reflexivity.
Qed.

(** Claim C5 as amended, at a cloud that times out. *)
Lemma cloud_failure_witness :
  successes (trace (process (offline "Request timed out") with_key
                      "Hello there." "summarize" Options.none))
  = ["Basic Fallback"]
  /\ exists earlier,
       failures (trace (process (offline "Request timed out") with_key
                          "Hello there." "summarize" Options.none))
       = (earlier ++ [("Gemini API", "Request timed out")])%list.
Proof.
  destruct (proj2 (cloud_failure_falls_back (offline "Request timed out")
                     with_key "Hello there." "summarize" Options.none)
              "Request timed out" eq_refl eq_refl eq_refl)
    as [_ [Hfailures Hsuccesses]].
  split; [exact Hsuccesses | exact Hfailures].
Defined.

Lemma attempt_ignores_stats (l : list strategy) (text operation : string)
    (o : options) (st1 st2 : usage) :
  fst (snd (attempt l text operation o st1))
  = fst (snd (attempt l text operation o st2))
  /\ same_answer (snd (snd (attempt l text operation o st1)))
       (snd (snd (attempt l text operation o st2))).
Proof.
  revert st1 st2.
  induction l as [|[name f] rest IH]; intros st1 st2; simpl.
  - split; reflexivity.
  - destruct (f text operation o) as [t [r|msg]].
    + destruct (truthy r).
      * simpl. repeat split; reflexivity.
      * specialize (IH st1 st2).
        destruct (attempt rest text operation o st1) as [s1 [t1 out1]].
        destruct (attempt rest text operation o st2) as [s2 [t2 out2]].
        simpl in *. destruct IH as [-> Hsame]. split; [reflexivity|exact Hsame].
    + specialize (IH (count_error st1) (count_error st2)).
      destruct (attempt rest text operation o (count_error st1))
        as [s1 [t1 out1]].
      destruct (attempt rest text operation o (count_error st2))
        as [s2 [t2 out2]].
      simpl in *. destruct IH as [-> Hsame]. split; [reflexivity|exact Hsame].
Qed.

Lemma after_builtin_ignores_usage (W : AIManagerEnhanced.world)
    (m1 m2 : AIManagerEnhanced.manager) (text : string) (o : options) :
  AIManagerEnhanced.enabled m1 = AIManagerEnhanced.enabled m2 ->
  AIManagerEnhanced.geminiApiKey m1 = AIManagerEnhanced.geminiApiKey m2 ->
  snd (AIManagerEnhanced.after_builtin W m1 text o)
  = snd (AIManagerEnhanced.after_builtin W m2 text o).
Proof.
  intros He Hk.
  unfold AIManagerEnhanced.after_builtin, AIManagerEnhanced.geminiPrompt.
  rewrite He, Hk.
  destruct (AIManagerEnhanced.enabled m2
            && truthy (AIManagerEnhanced.geminiApiKey m2)); [|reflexivity].
  destruct (snd (AIManagerEnhanced.try_endpoints _ _ _ _ _ _)); reflexivity.
Qed.

(** Claim C8.  The counters have no effect on a resolution: [process]
    run on two managers that differ only in their counters logs and
    calls the same things, gives the same result from the same strategy
    (or the same error) and leaves the same configuration; likewise
    the result of [AIManagerEnhanced.prompt] does not depend on the
    counters. *)
Theorem usage_counters_do_not_steer_resolution :
  (forall (W : world) (m : manager) (st : usage) (text operation : string)
          (o : options),
      let e1 := process W m text operation o in
      let e2 := process W (set_stats m st) text operation o in
      trace e1 = trace e2
      /\ same_answer (returned e1) (returned e2)
      /\ isBuiltInAIAvailable (final e1) = isBuiltInAIAvailable (final e2)
      /\ geminiApiKey (final e1) = geminiApiKey (final e2))
  /\ (forall (W : AIManagerEnhanced.world) (m : AIManagerEnhanced.manager)
             (u : AIManagerEnhanced.usage) (text : string) (o : options),
         snd (AIManagerEnhanced.prompt W m text o)
         = snd (AIManagerEnhanced.prompt W (with_usage m u) text o)).
Proof.
  split.
  - intros W m st text operation o. cbv zeta. unfold process.
    change (strategies W (set_stats m st)) with (strategies W m).
    pose proof (attempt_ignores_stats (strategies W m) text operation o
                  (mstats m) (mstats (set_stats m st))) as [Ht Hr].
    destruct (attempt (strategies W m) text operation o (mstats m))
      as [s1 [t1 out1]].
    destruct (attempt (strategies W m) text operation o (mstats (set_stats m st)))
      as [s2 [t2 out2]].
    simpl in *. repeat split; assumption.
  - intros W m u text o. unfold AIManagerEnhanced.prompt.
    change (AIManagerEnhanced.getPromptSession W (with_usage m u) o)
      with (AIManagerEnhanced.getPromptSession W m o).
    destruct (AIManagerEnhanced.getPromptSession W m o) as [s [[|]|msg]].
    + destruct (AIManagerEnhanced.session_prompt W text); [reflexivity|].
      apply after_builtin_ignores_usage; reflexivity.
    + apply after_builtin_ignores_usage; reflexivity.
    + apply after_builtin_ignores_usage; reflexivity.
Qed.
End ResolverClaims.

(* ------------------------------------------------------------------ *)
(** ** The parsers of structured answers: claim C6 *)

Section ParserClaims.
Import HybridAIManager Scenario Observations.

Lemma split_not_empty (c : ascii) (s : string) : split c s <> [].
Proof.
  destruct s as [|a rest]; simpl; [discriminate|].
  destruct (Ascii.eqb a c); [discriminate|].
  destruct (split c rest); discriminate.
Qed.

Lemma split_at_separator (c : ascii) (s : string) :
  includes (unit_str c) s = true -> exists a b rest, split c s = a :: b :: rest.
Proof.
  induction s as [|x s IH]; simpl.
  - discriminate.
  - intros H. destruct (Ascii.eqb x c) eqn:Hx.
    + destruct (split c s) as [|p ps] eqn:Hs.
      * destruct (split_not_empty c s Hs).
      * do 3 eexists. reflexivity.
    + assert (Hrest : includes (unit_str c) s = true).
      { destruct (ascii_dec c x) as [->|Hne].
        - rewrite Ascii.eqb_refl in Hx. discriminate.
        - exact H. }
      destruct (IH Hrest) as [a [b [rest ->]]]. do 3 eexists. reflexivity.
Qed.

Lemma flashcards_without_labels (lines : list string) :
  (forall line, In line lines ->
     includes "Q:" line && includes "A:" line = false) ->
  flashcards_of_lines lines = Ok [].
Proof.
  induction lines as [|line rest IH]; intros H; simpl; [reflexivity|].
  unfold flashcard_of_line. rewrite (H line (or_introl eq_refl)). simpl.
  rewrite IH; [reflexivity|]. intros l Hl. apply H. right. exact Hl.
Qed.

Lemma flashcards_with_separators (lines : list string) :
  (forall line, In line lines ->
     includes "Q:" line && includes "A:" line = true ->
     includes "|" line = true) ->
  exists cards, flashcards_of_lines lines = Ok cards.
Proof.
  induction lines as [|line rest IH]; intros H; simpl.
  - eexists. reflexivity.
  - destruct IH as [more Hmore].
    { intros l Hl. apply H. right. exact Hl. }
    rewrite Hmore. unfold flashcard_of_line.
    destruct (includes "Q:" line && includes "A:" line) eqn:Hlabels.
    + destruct (split_at_separator "|" line
                  (H line (or_introl eq_refl) Hlabels)) as [q [a [ps ->]]].
      cbn [map].
      destruct (negb _ && negb _); eexists; reflexivity.
    + eexists. reflexivity.
Qed.

(** Where the parsers return, their lists are never empty:
    [parseQuestions] always returns at least one question and exactly
    the placeholder when no line qualifies; whenever [parseFlashcards]
    returns, its list is not empty, and it is exactly the sample card
    when the lines gave no card.  When no line carries both labels [Q:]
    and [A:] it returns the sample card alone, and it returns (rather
    than throws) as long as every line with both labels has a [|].  The
    same holds of the values handed to the loop. *)
Lemma structured_lists_never_empty (text : string) :
  parseQuestions text <> []
  /\ (question_lines text = [] -> parseQuestions text = [no_questions])
  /\ (forall cards, parseFlashcards text = Ok cards ->
        cards <> []
        /\ (flashcards_of_lines (split newline text) = Ok [] ->
            cards = [sample_flashcard]))
  /\ ((forall line, In line (split newline text) ->
         includes "Q:" line && includes "A:" line = false) ->
      parseFlashcards text = Ok [sample_flashcard])
  /\ ((forall line, In line (split newline text) ->
         includes "Q:" line && includes "A:" line = true ->
         includes "|" line = true) ->
      exists cards, parseFlashcards text = Ok cards)
  /\ (forall v, parseQuestions_value (JStr text) = Ok v ->
        exists first rest, v = JArr (first :: rest))
  /\ (forall v, parseFlashcards_value (JStr text) = Ok v ->
        exists first rest, v = JArr (first :: rest)).
Proof.
  assert (Hq : parseQuestions text <> []).
  { unfold parseQuestions. destruct (question_lines text); discriminate. }
  assert (Hf : forall cards, parseFlashcards text = Ok cards -> cards <> []).
  { unfold parseFlashcards. intros cards.
    destruct (flashcards_of_lines (split newline text)) as [[|c cs]|msg];
      simpl; intros H; inversion H; discriminate. }
  split; [exact Hq|].
  split; [unfold parseQuestions; intros ->; reflexivity|].
  split.
  { intros cards H. split; [exact (Hf cards H)|].
    intros H0. unfold parseFlashcards in H. rewrite H0 in H.
    inversion H. reflexivity. }
  split.
  { intros H. unfold parseFlashcards.
    rewrite (flashcards_without_labels _ H). reflexivity. }
  split.
  { intros H. unfold parseFlashcards.
    destruct (flashcards_with_separators _ H) as [cards ->].
    destruct cards; eexists; reflexivity. }
  split.
  - intros v H. simpl in H. inversion H. unfold strings_value.
    destruct (parseQuestions text) as [|q qs]; [contradiction|].
    do 2 eexists. reflexivity.
  - intros v H. simpl in H.
    destruct (parseFlashcards text) as [cards|msg] eqn:Hp; [|discriminate].
    inversion H. unfold flashcards_value.
    destruct cards as [|c cs]; [destruct (Hf [] eq_refl eq_refl)|].
    do 2 eexists. reflexivity.
Qed.

Lemma structured_lists_witness :
  parseQuestions "too short" = [no_questions]
  /\ parseFlashcards "no cards here" = Ok [sample_flashcard].
Proof.
  pose proof (structured_lists_never_empty "too short") as [_ [Hq _]].
  pose proof (structured_lists_never_empty "no cards here")
    as [_ [_ [_ [Hf _]]]].
  split.
  - apply Hq. reflexivity.
  - apply Hf. intros line [<-|[]]. reflexivity.
Defined.

Lemma split_without_separator (c : ascii) (s : string) :
  has_char c s = false -> split c s = [s].
Proof.
  induction s as [|a s IH]; simpl; [reflexivity|].
  intros H. apply orb_false_iff in H as [Ha Hs].
  rewrite Ha, (IH Hs). reflexivity.
Qed.

Lemma flashcard_of_line_throws (line msg : string) :
  flashcard_of_line line = Throw msg -> msg = cannot_read JUndefined "replace".
Proof.
  unfold flashcard_of_line.
  destruct (includes "Q:" line && includes "A:" line); [|discriminate].
  destruct (map trim (split "|" line)) as [|q [|a rest]];
    try (intros H; inversion H; reflexivity).
  destruct (negb _ && negb _); discriminate.
Qed.

Lemma unseparated_line_throws (line : string) :
  includes "Q:" line = true ->
  includes "A:" line = true ->
  has_char "|" line = false ->
  flashcard_of_line line = Throw (cannot_read JUndefined "replace").
Proof.
  intros Hq Ha Hbar. unfold flashcard_of_line.
  rewrite Hq, Ha, (split_without_separator "|" line Hbar). reflexivity.
Qed.

Lemma unseparated_line_among_lines (lines : list string) (line : string) :
  In line lines ->
  includes "Q:" line = true ->
  includes "A:" line = true ->
  has_char "|" line = false ->
  flashcards_of_lines lines = Throw (cannot_read JUndefined "replace").
Proof.
  intros Hin Hq Ha Hbar.
  induction lines as [|l rest IH]; [destruct Hin|].
  cbn [flashcards_of_lines].
  destruct Hin as [->|Hin].
  - rewrite (unseparated_line_throws line Hq Ha Hbar). reflexivity.
  - rewrite (IH Hin).
    destruct (flashcard_of_line l) as [here|msg] eqn:Hl; [reflexivity|].
    rewrite (flashcard_of_line_throws l Hl). reflexivity.
Qed.

(** Claim C6, where the code departs from it.  An answer in which some
    line has both labels [Q:] and [A:] and no [|] between them makes
    [parseFlashcards] throw the TypeError of [a.replace] on an
    undefined answer half: no list comes back, neither the cards of the
    other lines nor the sample card.  In a resolution the cloud
    strategy has then failed although the text of its answer was
    extracted, and for a text without sentences the basic fallback
    serves the empty list. *)
Theorem unseparated_card_defeats_the_placeholder :
  (forall text line : string,
     In line (split newline text) ->
     includes "Q:" line = true ->
     includes "A:" line = true ->
     has_char "|" line = false ->
     parseFlashcards text = Throw (cannot_read JUndefined "replace")
     /\ parseFlashcards_value (JStr text)
        = Throw (cannot_read JUndefined "replace"))
  /\ (let answer := "Q: What is a cell? A: The unit of life" in
      let e := process (cloud (payload_text answer)) with_key
                 "cells and tissues" "createFlashcards" Options.none in
      answer_text (payload_text answer) = Ok (JStr answer)
      /\ parseFlashcards answer = Throw (cannot_read JUndefined "replace")
      /\ failures (trace e)
         = [("Built-in AI", "Built-in AI not available");
            ("Gemini API", cannot_read JUndefined "replace")]
      /\ returned e
         = Ok {| result := JArr []; method := "Basic Fallback";
                 stats := {| builtInCalls := 0; cloudCalls := 0;
                             fallbackCalls := 1; errors := 2 |} |}).
Proof.
  split.
  - intros text line Hin Hq Ha Hbar.
    assert (H : parseFlashcards text = Throw (cannot_read JUndefined "replace")).
    { unfold parseFlashcards.
      rewrite (unseparated_line_among_lines _ line Hin Hq Ha Hbar).
      reflexivity. }
    split; [exact H|].
    unfold parseFlashcards_value, on_string. rewrite H. reflexivity.
  - cbv zeta. repeat split.
Qed.
End ParserClaims.

(* ------------------------------------------------------------------ *)
(** ** The capability checks: claim C9 *)

Section ProbeClaims.
Import HybridAIManager.

Lemma check_twice (probe : option (res value)) (old : value) :
  AIManagerEnhanced.check probe (AIManagerEnhanced.check probe old)
  = AIManagerEnhanced.check probe old.
Proof. destruct probe as [[c|msg]|]; reflexivity. Qed.

(** Claim C9.  Checking twice a backend that has not changed gives the
    same capability as checking once: [checkBuiltInAI] sets the same
    flag and logs the same lines the second time, the flag it sets does
    not depend on the state the manager was in, and
    [AIManagerEnhanced.checkCapabilities] leaves the capabilities it has
    just set as they are. *)
Theorem checking_twice_changes_nothing :
  (forall (D : device) (m : manager),
      checkBuiltInAI D (fst (checkBuiltInAI D m)) = checkBuiltInAI D m)
  /\ (forall (D : device) (m m' : manager),
        isBuiltInAIAvailable (fst (checkBuiltInAI D m))
        = isBuiltInAIAvailable (fst (checkBuiltInAI D m')))
  /\ (forall (G : AIManagerEnhanced.globals) (c : AIManagerEnhanced.capabilities),
        AIManagerEnhanced.checkCapabilities G (AIManagerEnhanced.checkCapabilities G c)
        = AIManagerEnhanced.checkCapabilities G c).
Proof.
  split; [|split].
  - intros D m. unfold checkBuiltInAI.
    destruct (defined D && languageModel D); [|reflexivity].
    destruct (capabilities D) as [caps|msg]; [|reflexivity].
    destruct (get caps "available") as [available|msg]; reflexivity.
  - intros D m m'. unfold checkBuiltInAI.
    destruct (defined D && languageModel D); [|reflexivity].
    destruct (capabilities D) as [caps|msg]; [|reflexivity].
    destruct (get caps "available") as [available|msg]; reflexivity.
  - intros G c. unfold AIManagerEnhanced.checkCapabilities.
    cbn [AIManagerEnhanced.prompt_cap AIManagerEnhanced.summarizer
         AIManagerEnhanced.writer AIManagerEnhanced.rewriter
         AIManagerEnhanced.translator AIManagerEnhanced.proofreader].
    rewrite !check_twice.
    destruct (AIManagerEnhanced.canTranslate G);
      destruct (AIManagerEnhanced.ai_rewriter G); reflexivity.
Qed.
End ProbeClaims.

(* ------------------------------------------------------------------ *)
(** ** The endpoints of the cloud: claim C7 *)

Section EndpointClaims.
Import AIManagerEnhanced.

Lemma try_endpoints_spec (E : engine) (net : network) (key : string) (b : body)
    (l : list string) (err : value) :
  let urls := keyed key l in
  let answer url := try_endpoint (net url b) in
  match try_endpoints E net key b l err with
  | (fetched, Ok text) =>
      exists n, n < List.length l
                /\ fetched = firstn (S n) urls
                /\ answer (nth n urls EmptyString) = inl text
                /\ forall i, i < n ->
                     exists e, answer (nth i urls EmptyString) = inr e
  | (fetched, Throw msg) =>
      fetched = urls
      /\ (forall url, In url urls -> exists e, answer url = inr e)
      /\ exists e, msg = ("Gemini API error: " ++ to_str E e)%string
                   /\ match l with
                      | [] => e = err
                      | _ => answer (last urls EmptyString) = inr e
                      end
  end.
Proof.
  cbv zeta. revert err.
  induction l as [|endpoint rest IH]; intros err; cbn [try_endpoints keyed map].
  - split; [reflexivity|]. split; [intros url []|].
    exists err. split; reflexivity.
  - destruct (try_endpoint (net (endpoint ++ "?key=" ++ key)%string b))
      as [text|e] eqn:Hhere.
    + exists 0. repeat split.
      * simpl. lia.
      * exact Hhere.
      * intros i Hi. lia.
    + specialize (IH e).
      destruct (try_endpoints E net key b rest e) as [fetched [text|msg]].
      * destruct IH as [n [Hn [Hf [Ha Hbefore]]]].
        exists (S n). repeat split.
        -- simpl. lia.
        -- cbn [firstn]. f_equal. exact Hf.
        -- exact Ha.
        -- intros [|i] Hi; [exists e; exact Hhere|].
           apply Hbefore. lia.
      * destruct IH as [Hf [Hall [e' [Hmsg Hlast]]]].
        split; [f_equal; exact Hf|].
        split.
        -- intros url [<-|Hin]; [exists e; exact Hhere|apply Hall; exact Hin].
        -- exists e'. split; [exact Hmsg|].
           destruct rest as [|next rest'].
           ++ subst e'. exact Hhere.
           ++ exact Hlast.
Qed.

(** The loop of [AIManagerEnhanced.geminiPrompt] over its three
    endpoints, in the order of the list: it returns the text of the
    first endpoint that does not fail, having fetched the endpoints up
    to that one and no other; it throws only when every endpoint has
    been fetched and has failed, and the error then carries what the
    last endpoint failed with. *)
Lemma enhanced_endpoints_in_sequence (W : world) (m : manager) (text : string)
    (o : options) :
  let key := to_str (eng W) (geminiApiKey m) in
  let b := generateContent (Some (prompt_text text o)) o in
  let urls := keyed key endpoints in
  let answer url := try_endpoint (net W url b) in
  match geminiPrompt W m text o with
  | (fetched, Ok answered) =>
      exists n, n < 3
                /\ fetched = firstn (S n) urls
                /\ answer (nth n urls EmptyString) = inl answered
                /\ forall i, i < n ->
                     exists e, answer (nth i urls EmptyString) = inr e
  | (fetched, Throw msg) =>
      fetched = urls
      /\ (forall url, In url urls -> exists e, answer url = inr e)
      /\ exists e, answer (last urls EmptyString) = inr e
                   /\ msg = ("Gemini API error: " ++ to_str (eng W) e)%string
  end.
Proof.
  cbv zeta. unfold geminiPrompt.
  pose proof (try_endpoints_spec (eng W) (net W)
                (to_str (eng W) (geminiApiKey m))
                (generateContent (Some (prompt_text text o)) o)
                endpoints JNull) as H.
  cbv zeta in H.
  destruct (try_endpoints (eng W) (net W) (to_str (eng W) (geminiApiKey m))
              (generateContent (Some (prompt_text text o)) o) endpoints JNull)
    as [fetched [answered|msg]].
  - exact H.
  - destruct H as [Hf [Hall [e [Hmsg Hlast]]]].
    split; [exact Hf|]. split; [exact Hall|].
    exists e. split; [exact Hlast | exact Hmsg].
Qed.

(** When every endpoint fails, the error is made of the failure of the
    last one. *)
Lemma enhanced_error_is_the_last_failure (W : world) (m : manager)
    (text : string) (o : options) (e : value) :
  let key := to_str (eng W) (geminiApiKey m) in
  let b := generateContent (Some (prompt_text text o)) o in
  let urls := keyed key endpoints in
  let answer url := try_endpoint (net W url b) in
  (forall url, In url urls -> exists e', answer url = inr e') ->
  answer (last urls EmptyString) = inr e ->
  geminiPrompt W m text o
  = (urls, Throw ("Gemini API error: " ++ to_str (eng W) e)%string).
Proof.
  cbv zeta. intros Hall Hlast.
  pose proof (enhanced_endpoints_in_sequence W m text o) as H. cbv zeta in H.
  destruct (geminiPrompt W m text o) as [fetched [answered|msg]].
  - destruct H as [n [Hn [_ [Hanswer _]]]].
    destruct (Hall (nth n (keyed (to_str (eng W) (geminiApiKey m)) endpoints)
                      EmptyString)) as [e' He'].
    { apply nth_In. exact Hn. }
    rewrite He' in Hanswer. discriminate.
  - destruct H as [-> [_ [e' [He' ->]]]].
    rewrite Hlast in He'. inversion He'. reflexivity.
Qed.
End EndpointClaims.

(* ------------------------------------------------------------------ *)
(** ** The extraction of the answer text: claim C2 *)

Section NormalizerClaims.

Lemma get_ok (v : value) (k : string) (x : value) :
  get v k = Ok x -> get_opt v k = x.
Proof.
  destruct v; simpl; intros H; inversion H; reflexivity.
Qed.

Lemma truthy_string (s : string) : truthy (JStr s) = true -> s <> EmptyString.
Proof.
  simpl. intros H ->. discriminate.
Qed.

Lemma output_is_nonempty_string (candidate v : value) :
  (if truthy (get_opt candidate "output")
   then match get_opt candidate "output" with
        | JStr _ => Ok (get_opt candidate "output")
        | _ => Throw (not_a_function "candidate.output.substring")
        end
   else Throw AIManager.invalid_structure) = Ok v ->
  exists s, v = JStr s /\ s <> EmptyString /\ get_opt candidate "output" = v.
Proof.
  destruct (truthy (get_opt candidate "output")) eqn:T; [|discriminate].
  destruct (get_opt candidate "output") as [| |b|q|s|l|props];
    try discriminate.
  intros H. inversion H. exists s.
  split; [reflexivity|]. split; [apply truthy_string; exact T|reflexivity].
Qed.

(** Whenever the extraction of [AIManager.geminiPrompt] returns, it
    returns a string that is not empty, found at one of the two paths. *)
Lemma extract_returns_nonempty_string (E : engine) (data v : value) :
  AIManager.extract E data = Ok v ->
  exists s, v = JStr s /\ s <> EmptyString
            /\ (path_text data = v \/ path_output data = v).
Proof.
  intros H. unfold AIManager.extract in H.
  destruct (get data "candidates") as [candidates|] eqn:H1; [|discriminate].
  cbn [bind] in H.
  destruct (gt_zero E (get_opt candidates "length")); [|discriminate].
  destruct (get candidates "0") as [candidate|] eqn:H2; [|discriminate].
  cbn [bind] in H.
  apply get_ok in H1. apply get_ok in H2.
  unfold path_text, path_output, first_candidate. rewrite H1, H2.
  destruct (gt_zero E _).
  - destruct (get candidate "content") as [content|] eqn:H3; [|discriminate].
    cbn [bind] in H.
    destruct (get content "parts") as [parts|] eqn:H4; [|discriminate].
    cbn [bind] in H.
    destruct (get parts "0") as [part|] eqn:H5; [|discriminate].
    cbn [bind] in H.
    destruct (get part "text") as [text|] eqn:H6; [|discriminate].
    cbn [bind] in H.
    apply get_ok in H3. apply get_ok in H4.
    apply get_ok in H5. apply get_ok in H6.
    rewrite H3, H4, H5, H6.
    destruct (truthy text) eqn:T.
    + destruct text as [| |b|q|s|l|props]; try discriminate.
      cbn [bind] in H. inversion H. exists s.
      split; [reflexivity|].
      split; [apply truthy_string; exact T|left; reflexivity].
    + cbn [bind] in H.
      destruct (@output_is_nonempty_string candidate v H) as [s [Hv [Hs Ho]]].
      exists s. split; [exact Hv|]. split; [exact Hs|right; exact Ho].
  - cbn [bind] in H.
    destruct (@output_is_nonempty_string candidate v H) as [s [Hv [Hs Ho]]].
    exists s. split; [exact Hv|]. split; [exact Hs|right; exact Ho].
Qed.

(** In [AIManager.prompt] an error of Chrome AI is recovered by Gemini
    when a key is there, and what Gemini returns or throws, being the
    last method, is what the caller gets. *)
Lemma chrome_failure_falls_through (W : AIManager.world)
    (cfg : AIManager.geminiConfig) (text : string) (o : options)
    (error : string) :
  AIManager.chrome W text o = Throw error ->
  AIManager.has_key cfg = true ->
  AIManager.prompt W "chrome-ai" cfg text o
  = (cfg, AIManager.geminiPrompt (AIManager.eng W) (AIManager.net W) cfg text o).
Proof.
  intros Hc Hk. unfold AIManager.prompt, AIManager.gemini_or.
  rewrite Hc, Hk. reflexivity.
Qed.

(** Claim C2, at the inputs where the code departs from it.  The
    extraction of [AIManager.geminiPrompt] does what the claim says on
    its three payloads and refuses an empty text, but a number at the
    first path makes it throw in its log line before the second path is
    looked at.  On the same payloads [AIManagerEnhanced.geminiPrompt],
    which reads [candidates[0].content.parts[0].text] and nothing else,
    throws on the payload that has only [output] and returns the empty
    text as a success, which [AIManagerEnhanced.prompt] hands to its
    caller; the cloud strategy of [HybridAIManager] reads the payload
    the same way. *)
Theorem enhanced_extraction_departs_from_normalizer :
  let ask data :=
    AIManager.geminiPrompt sample_engine (fun _ _ => ok_response data)
      gemini_config "Hello?" Options.none in
  let ask_enhanced data :=
    snd (AIManagerEnhanced.geminiPrompt (Scenario.enhanced_world data)
           Scenario.enhanced_with_key "Hello?" Options.none) in
  (ask (payload_text "Hello") = Ok (JStr "Hello")
   /\ ask (payload_output "Hi") = Ok (JStr "Hi")
   /\ ask payload_empty = Throw AIManager.invalid_structure
   /\ ask (payload_text EmptyString) = Throw AIManager.invalid_structure)
  /\ ask (payload_number_and_output "Hi")
     = Throw "text.substring is not a function"
  /\ ask_enhanced (payload_text "Hello") = Ok (JStr "Hello")
  /\ ask_enhanced (payload_output "Hi")
     = Throw "Gemini API error: Cannot read properties of undefined (reading 'parts')"
  /\ ask_enhanced (payload_text EmptyString) = Ok (JStr EmptyString)
  /\ snd (AIManagerEnhanced.prompt
            (Scenario.enhanced_world (payload_text EmptyString))
            Scenario.enhanced_with_key "Hello?" Options.none)
     = JStr EmptyString
  /\ snd (HybridAIManager.processWithGeminiAPI
            (Scenario.cloud (payload_output "Hi")) Scenario.with_key
            "Hello?" "explain" Options.none)
     = Throw "Cannot read properties of undefined (reading 'parts')".
Proof. cbv zeta. repeat split. Qed.
End NormalizerClaims.

(* ------------------------------------------------------------------ *)
(** ** Further properties of [HybridAIManager]: counters, cloud, status *)

Section Accounting.
Import HybridAIManager Scenario Observations.

Ltac resolve W m text operation o :=
  pose proof (device_events_are_strategy_events _
                (builtin_events W m text operation o)) as Hdev;
  pose proof (gemini_events W m text operation o) as Hcloud;
  unfold process, strategies; cbn [attempt throw];
  destruct (processWithBuiltInAI W m text operation o) as [t1 [r1|e1]] eqn:E1;
  [destruct (truthy r1) eqn:T1|];
  (destruct (processWithGeminiAPI W m text operation o) as [t2 [r2|e2]] eqn:E2;
   [destruct (truthy r2) eqn:T2|]);
  (destruct (basic_fallback_returns text operation o) as [r3 E3];
   rewrite ?E3; destruct (truthy r3) eqn:T3);
  cbn [fst snd final trace returned] in *.

Ltac read_failures :=
  repeat first
    [ rewrite failures_app | progress cbn [failures app] ];
  repeat match goal with
         | H : forallb strategy_event ?t = true |- _ =>
             rewrite ?(failures_strategy_events t H); clear H
         end;
  cbn [failures app List.length].

(** Property X1.  The counters after a call of [process].  Every strategy that threw
    is counted once in [errors], and at most two can throw.  A
    successful call adds one to the counter of the strategy that served
    it and to no other, and the outcome shows the counters as they are
    after the call; a failed call leaves the three call counters as they
    were. *)
Theorem process_keeps_the_books (W : world) (m : manager)
    (text operation : string) (o : options) :
  let e := process W m text operation o in
  let before := mstats m in
  let after := mstats (final e) in
  errors after = errors before + List.length (failures (trace e))
  /\ List.length (failures (trace e)) <= 2
  /\ match returned e with
     | Ok out =>
         stats out = after
         /\ served_calls after = S (served_calls before)
         /\ builtInCalls after
            = builtInCalls before
              + (if String.eqb (method out) "Built-in AI" then 1 else 0)
         /\ cloudCalls after
            = cloudCalls before
              + (if String.eqb (method out) "Gemini API" then 1 else 0)
         /\ fallbackCalls after
            = fallbackCalls before
              + (if String.eqb (method out) "Basic Fallback" then 1 else 0)
     | Throw _ =>
         builtInCalls after = builtInCalls before
         /\ cloudCalls after = cloudCalls before
         /\ fallbackCalls after = fallbackCalls before
     end.
Proof.
  cbv zeta. unfold served_calls.
  resolve W m text operation o; read_failures.
  all: cbn [mstats set_stats updateStats count_error String.eqb Ascii.eqb
            Bool.eqb builtInCalls cloudCalls fallbackCalls errors method stats].
  all: repeat split; lia.
Qed.
End Accounting.

Section CloudBudget.
Import HybridAIManager Scenario Observations.

Lemma filter_fetch_device (t : list event) :
  forallb on_device_call t = true -> filter is_fetch t = [].
Proof.
  induction t as [|e t IH]; simpl; [reflexivity|].
  intros H. apply andb_true_iff in H as [He Ht].
  destruct e; try discriminate; simpl; apply IH; exact Ht.
Qed.

(** The request that [processWithGeminiAPI] sends for a call. *)
Lemma gemini_request (W : world) (m : manager) (text operation : string)
    (o : options) :
  let request :=
    Fetch (gemini_pro ++ "?key=" ++ to_str (eng W) (geminiApiKey m))
          (generateContent (prompt_for text operation o) o) in
  filter is_fetch (fst (processWithGeminiAPI W m text operation o))
  = if truthy (geminiApiKey m) then [request] else [].
Proof.
  cbv zeta. unfold processWithGeminiAPI.
  destruct (truthy (geminiApiKey m)); cbn [negb]; [|reflexivity].
  unfold mbind, emit, lift, throw, ret.
  destruct (net W _ _) as [msg|r]; [reflexivity|].
  destruct (ok r); cbn [negb].
  - destruct (json r) as [data|msg]; [|reflexivity].
    destruct (answer_text data) as [res|msg]; [|reflexivity].
    destruct (String.eqb operation "generateQuestions").
    + destruct (parseQuestions_value res); reflexivity.
    + destruct (String.eqb operation "createFlashcards").
      * destruct (parseFlashcards_value res); reflexivity.
      * reflexivity.
  - destruct (json r) as [data|msg]; [|reflexivity].
    destruct (get data "error") as [e|msg]; reflexivity.
Qed.

(** Property X2.  A call of [process] sends at most one request to the cloud, and
    only this one: the [gemini-pro] endpoint with the stored key in the
    query string, and the prompt of the operation as body.  Nothing is
    sent when no key is configured, and nothing is sent when the
    on-device strategy has answered. *)
Theorem process_asks_the_cloud_at_most_once (W : world) (m : manager)
    (text operation : string) (o : options) :
  let e := process W m text operation o in
  let request :=
    Fetch (gemini_pro ++ "?key=" ++ to_str (eng W) (geminiApiKey m))
          (generateContent (prompt_for text operation o) o) in
  (filter is_fetch (trace e) = [] \/ filter is_fetch (trace e) = [request])
  /\ (truthy (geminiApiKey m) = false -> filter is_fetch (trace e) = [])
  /\ (succeeds (processWithBuiltInAI W m text operation o) = true ->
      filter is_fetch (trace e) = [])
  /\ (truthy (geminiApiKey m) = true ->
      succeeds (processWithBuiltInAI W m text operation o) = false ->
      filter is_fetch (trace e) = [request]).
Proof.
  cbv zeta.
  pose proof (filter_fetch_device _ (builtin_events W m text operation o)) as Hdev.
  pose proof (gemini_request W m text operation o) as Hcloud.
  cbv zeta in Hcloud.
  unfold process, strategies, succeeds. cbn [attempt throw].
  destruct (processWithBuiltInAI W m text operation o) as [t1 [r1|e1]];
    [destruct (truthy r1)|];
    (destruct (processWithGeminiAPI W m text operation o) as [t2 [r2|e2]];
     [destruct (truthy r2)|]);
    (destruct (basic_fallback_returns text operation o) as [r3 E3];
     rewrite ?E3; destruct (truthy r3));
    cbn [fst snd final trace returned filter is_fetch] in *;
    rewrite ?filter_app; cbn [filter is_fetch];
    rewrite ?filter_app; cbn [filter is_fetch];
    rewrite ?Hdev, ?Hcloud, ?app_nil_r; cbn [app];
    destruct (truthy (geminiApiKey m));
    repeat split; intros; try discriminate; auto.
Qed.

(** The request of a manager that holds the key [key] and has no
    on-device model: one [fetch], with the summarize prompt. *)
Lemma cloud_request_witness :
  filter is_fetch
    (trace (process (cloud (payload_text "A summary.")) with_key
              "Some text." "summarize" Options.none))
  = [Fetch (gemini_pro ++ "?key=key")
       (generateContent (Some "Summarize this text in medium length: Some text.")
          Options.none)].
Proof.
  pose proof (process_asks_the_cloud_at_most_once
                (cloud (payload_text "A summary.")) with_key
                "Some text." "summarize" Options.none) as H.
  cbv zeta in H.
  destruct H as (_ & _ & _ & H).
  exact (H eq_refl eq_refl).
Defined.


End CloudBudget.

(* ------------------------------------------------------------------ *)
(** ** The endpoint variants of the two managers: claim C7 *)

Section EndpointVariants.
Import Scenario Observations.

Lemma single_endpoint_failure (W : HybridAIManager.world)
    (m : HybridAIManager.manager) (text operation : string) (o : options) :
  let url := (HybridAIManager.gemini_pro ++ "?key="
              ++ to_str (HybridAIManager.eng W)
                   (HybridAIManager.geminiApiKey m))%string in
  let b := generateContent (HybridAIManager.prompt_for text operation o) o in
  truthy (HybridAIManager.geminiApiKey m) = true ->
  (forall reason, HybridAIManager.net W url b = Rejected reason ->
     HybridAIManager.processWithGeminiAPI W m text operation o
     = ([HybridAIManager.Fetch url b; HybridAIManager.GeminiError reason],
        Throw reason))
  /\ (forall r, HybridAIManager.net W url b = Resolved r -> ok r = false ->
        exists msg,
          HybridAIManager.processWithGeminiAPI W m text operation o
          = ([HybridAIManager.Fetch url b; HybridAIManager.GeminiError msg],
             Throw msg)).
Proof.
  cbv zeta. intros Hk. unfold HybridAIManager.processWithGeminiAPI.
  rewrite Hk. cbn [negb]. cbv zeta.
  unfold HybridAIManager.mbind, HybridAIManager.emit, HybridAIManager.lift,
    HybridAIManager.throw.
  split.
  - intros reason ->. reflexivity.
  - intros r -> Hr. rewrite Hr. cbn [negb].
    destruct (json r) as [data|msg]; [|eexists; reflexivity].
    destruct (get data "error") as [e|msg]; eexists; reflexivity.
Qed.

(** Claim C7, which one of the two managers keeps and the other does
    not.  [AIManagerEnhanced.geminiPrompt] fetches its three endpoints
    in the order of the list; a fetch that rejects, a response that is
    not ok and a body that cannot be read make the turn fail with the
    message of the rejection, the [error.message] of the response or
    else its status text, and the message of the exception; after a
    failure the next endpoint is tried; the text of the first endpoint
    that does not fail is returned; an error is thrown only when every
    endpoint has been fetched and has failed, and it carries the
    failure of the last one.  [HybridAIManager.processWithGeminiAPI]
    has the one endpoint [gemini-pro]: it sends at most that request
    and throws as soon as it fails.  On a service that has only the
    model [gemini-1.5-pro-latest] the enhanced manager answers from the
    second endpoint, and the hybrid manager fails and leaves the
    request to the basic fallback. *)
Theorem endpoint_variants_in_one_manager_only :
  (forall (W : AIManagerEnhanced.world) (m : AIManagerEnhanced.manager)
          (text : string) (o : options),
     let key := to_str (AIManagerEnhanced.eng W)
                  (AIManagerEnhanced.geminiApiKey m) in
     let b := generateContent (Some (AIManagerEnhanced.prompt_text text o)) o in
     let urls := keyed key AIManagerEnhanced.endpoints in
     let answer url :=
       AIManagerEnhanced.try_endpoint (AIManagerEnhanced.net W url b) in
     match AIManagerEnhanced.geminiPrompt W m text o with
     | (fetched, Ok answered) =>
         exists n, n < 3
                   /\ fetched = firstn (S n) urls
                   /\ answer (nth n urls EmptyString) = inl answered
                   /\ forall i, i < n ->
                        exists e, answer (nth i urls EmptyString) = inr e
     | (fetched, Throw msg) =>
         fetched = urls
         /\ (forall url, In url urls -> exists e, answer url = inr e)
         /\ exists e, answer (last urls EmptyString) = inr e
                      /\ msg = ("Gemini API error: "
                                ++ to_str (AIManagerEnhanced.eng W) e)%string
     end
     /\ (forall e,
           (forall url, In url urls -> exists e', answer url = inr e') ->
           answer (last urls EmptyString) = inr e ->
           AIManagerEnhanced.geminiPrompt W m text o
           = (urls, Throw ("Gemini API error: "
                           ++ to_str (AIManagerEnhanced.eng W) e)%string)))
  /\ (forall msg,
        AIManagerEnhanced.try_endpoint (Rejected msg) = inr (JStr msg))
  /\ (forall r error e,
        ok r = false -> json r = Ok error -> get error "error" = Ok e ->
        AIManagerEnhanced.try_endpoint (Resolved r)
        = inr (js_or (get_opt e "message") (JStr (statusText r))))
  /\ (forall r msg,
        json r = Throw msg ->
        AIManagerEnhanced.try_endpoint (Resolved r) = inr (JStr msg))
  /\ (forall (W : HybridAIManager.world) (m : HybridAIManager.manager)
             (text operation : string) (o : options),
        let url := (HybridAIManager.gemini_pro ++ "?key="
                    ++ to_str (HybridAIManager.eng W)
                         (HybridAIManager.geminiApiKey m))%string in
        let b := generateContent (HybridAIManager.prompt_for text operation o) o in
        let cloud := HybridAIManager.processWithGeminiAPI W m text operation o in
        filter is_fetch (fst cloud)
        = (if truthy (HybridAIManager.geminiApiKey m)
           then [HybridAIManager.Fetch url b] else [])
        /\ (truthy (HybridAIManager.geminiApiKey m) = true ->
            (forall reason, HybridAIManager.net W url b = Rejected reason ->
               snd cloud = Throw reason)
            /\ (forall r, HybridAIManager.net W url b = Resolved r ->
                  ok r = false -> exists msg, snd cloud = Throw msg)))
  /\ (let data := payload_text "A summary." in
      let e := HybridAIManager.process (moved data) with_key
                 "One. Two." "summarize" Options.none in
      AIManagerEnhanced.geminiPrompt (enhanced_moved data) enhanced_with_key
        "One. Two." Options.none
      = (firstn 2 (keyed "key" AIManagerEnhanced.endpoints),
         Ok (JStr "A summary."))
      /\ HybridAIManager.processWithGeminiAPI (moved data) with_key
           "One. Two." "summarize" Options.none
         = ([HybridAIManager.Fetch
               (HybridAIManager.gemini_pro ++ "?key=key")
               (generateContent
                  (Some "Summarize this text in medium length: One. Two.")
                  Options.none);
             HybridAIManager.GeminiError "Gemini API error: model not found"],
            Throw "Gemini API error: model not found")
      /\ filter is_fetch (HybridAIManager.trace e)
         = [HybridAIManager.Fetch
              (HybridAIManager.gemini_pro ++ "?key=key")
              (generateContent
                 (Some "Summarize this text in medium length: One. Two.")
                 Options.none)]
      /\ HybridAIManager.returned e
         = Ok {| HybridAIManager.result := JStr "One.  Two.";
                 HybridAIManager.method := "Basic Fallback";
                 HybridAIManager.stats :=
                   {| HybridAIManager.builtInCalls := 0;
                      HybridAIManager.cloudCalls := 0;
                      HybridAIManager.fallbackCalls := 1;
                      HybridAIManager.errors := 2 |} |}).
Proof.
  split; [|split; [|split; [|split; [|split]]]].
  - intros W m text o. cbv zeta. split.
    + exact (enhanced_endpoints_in_sequence W m text o).
    + intros e. exact (@enhanced_error_is_the_last_failure W m text o e).
  - reflexivity.
  - intros r error e Hr Hj He. unfold AIManagerEnhanced.try_endpoint.
    rewrite Hr, Hj. cbn. rewrite He. reflexivity.
  - intros r msg Hj. unfold AIManagerEnhanced.try_endpoint. rewrite Hj.
    destruct (ok r); reflexivity.
  - intros W m text operation o. cbv zeta. split.
    + exact (gemini_request W m text operation o).
    + intros Hk.
      destruct (single_endpoint_failure W m text operation o Hk) as [Hrej Hno].
      split.
      * intros reason H. rewrite (Hrej reason H). reflexivity.
      * intros r H Hr. destruct (Hno r H Hr) as [msg ->].
        exists msg. reflexivity.
  - cbv zeta. repeat split.
Qed.
End EndpointVariants.

Section Status.
Import HybridAIManager Scenario Observations.

(** Property X4.  When [getStatus] reports [fallbackOnly], a call of [process] works
    without the device and without the network: the only adapter that
    runs is the basic fallback, the two strategies before it are counted
    as errors, a result is the one of [processWithBasicFallback] under
    the method [Basic Fallback], and the whole execution is the same in
    every world. *)
Theorem fallback_only_is_self_contained (W W' : world) (m : manager)
    (text operation : string) (o : options) :
  fallbackOnly (getStatus m) = true ->
  let e := process W m text operation o in
  filter adapter_call (trace e) = [UsingBasicFallback]
  /\ errors (mstats (final e)) = errors (mstats m) + 2
  /\ (forall out, returned e = Ok out ->
        method out = "Basic Fallback"
        /\ processWithBasicFallback text operation o
           = ([UsingBasicFallback], Ok (result out)))
  /\ process W' m text operation o = e.
Proof.
  unfold getStatus. cbn [fallbackOnly]. intros H.
  apply andb_true_iff in H as [Ha Hk].
  apply negb_true_iff in Ha. apply negb_true_iff in Hk.
  cbv zeta. unfold process, strategies. cbn [attempt throw].
  rewrite !(builtin_unavailable _ m text operation o Ha).
  rewrite !(gemini_unconfigured _ m text operation o Hk).
  destruct (basic_fallback_returns text operation o) as [r3 E3]. rewrite E3.
  destruct (truthy r3);
    cbn [fst snd final trace returned filter adapter_call app mstats set_stats
         updateStats count_error errors String.eqb Ascii.eqb Bool.eqb].
  - split; [reflexivity|]. split; [lia|]. split; [|reflexivity].
    intros out H; inversion H; split; reflexivity.
  - split; [reflexivity|]. split; [lia|]. split; [|reflexivity].
    intros out H; discriminate.
Qed.

(** A browser without the on-device API and an empty key store leaves a
    manager that reports [fallbackOnly], and its calls are served
    without the network. *)
Lemma fallback_only_witness :
  fallbackOnly (getStatus basic_only) = true
  /\ filter adapter_call
       (trace (process (offline "Failed to fetch") basic_only
                 "teh end." "proofread" Options.none))
     = [UsingBasicFallback].
Proof.
  split; [reflexivity|].
  exact (proj1 (fallback_only_is_self_contained
                  (offline "Failed to fetch") (offline "Failed to fetch")
                  basic_only "teh end." "proofread" Options.none eq_refl)).
Defined.

Lemma is_string_spec (s : string) (v : value) :
  is_string s v = true <-> v = JStr s.
Proof.
  unfold is_string. destruct v; try (split; intros; discriminate).
  rewrite String.eqb_eq. split; [intros ->; reflexivity|].
  intros H; inversion H; reflexivity.
Qed.

Lemma check_says_readily (D : device) (m : manager) :
  isBuiltInAIAvailable (fst (checkBuiltInAI D m)) = true
  <-> capabilities_say D "readily".
Proof.
  unfold checkBuiltInAI, capabilities_say.
  destruct (defined D), (languageModel D); cbn [andb fst isBuiltInAIAvailable set_available];
    try (split; [discriminate|intros (? & ? & _); discriminate]).
  destruct (capabilities D) as [caps|msg]; cbn [fst isBuiltInAIAvailable set_available].
  - destruct (get caps "available") as [available|msg] eqn:G;
      cbn [fst isBuiltInAIAvailable set_available].
    + rewrite is_string_spec. split.
      * intros ->. repeat split. exists caps. split; [reflexivity|exact G].
      * intros (_ & _ & c & Hc & Hg). inversion Hc; subst.
        rewrite G in Hg. inversion Hg. reflexivity.
    + split; [discriminate|].
      intros (_ & _ & c & Hc & Hg). inversion Hc; subst.
      rewrite G in Hg. discriminate.
  - split; [discriminate|]. intros (_ & _ & c & Hc & _). discriminate.
Qed.

Lemma check_keeps_key_and_counters (D : device) (m : manager) :
  geminiApiKey (fst (checkBuiltInAI D m)) = geminiApiKey m
  /\ mstats (fst (checkBuiltInAI D m)) = mstats m.
Proof.
  unfold checkBuiltInAI.
  destruct (defined D && languageModel D); [|split; reflexivity].
  destruct (capabilities D); [|split; reflexivity].
  destruct (get _ _); split; reflexivity.
Qed.

Lemma check_triggers_download (D : device) (m : manager) :
  In TriggerDownload (snd (checkBuiltInAI D m))
  <-> capabilities_say D "after-download".
Proof.
  unfold checkBuiltInAI, capabilities_say.
  destruct (defined D), (languageModel D); cbn [andb snd In];
    try (split; [intros [?|[]]; discriminate|intros (? & ? & _); discriminate]).
  destruct (capabilities D) as [caps|msg]; cbn [snd In].
  - destruct (get caps "available") as [available|msg] eqn:G; cbn [snd In].
    + destruct (is_string "readily" available) eqn:Hr.
      * apply is_string_spec in Hr. subst. cbn. split; [intros []|].
        intros (_ & _ & c & Hc & Hg). inversion Hc; subst.
        rewrite G in Hg. discriminate.
      * destruct (is_string "after-download" available) eqn:Hd.
        -- apply is_string_spec in Hd. subst. split.
           ++ intros _. repeat split. exists caps. split; [reflexivity|exact G].
           ++ intros _. right. left. reflexivity.
        -- split.
           ++ intros [?|[]]; discriminate.
           ++ intros (_ & _ & c & Hc & Hg). inversion Hc; subst.
              rewrite G in Hg. inversion Hg; subst. discriminate.
    + split; [intros [?|[]]; discriminate|].
      intros (_ & _ & c & Hc & Hg). inversion Hc; subst.
      rewrite G in Hg. discriminate.
  - split; [intros [?|[]]; discriminate|].
    intros (_ & _ & c & Hc & _). discriminate.
Qed.

(** Property X5.  [recheckAvailability] reports the on-device model as available
    exactly when the global [ai] and [ai.languageModel] are there and
    [capabilities()] resolves to an object whose [available] is the
    string [readily]; every error on the way gives [false].  The flag
    from before the check does not count, the key and the counters are
    not touched, and a download is triggered exactly for the answer
    [after-download]. *)
Theorem recheck_reports_readily_only (D : device) (m : manager) :
  let '(m', t, s) := recheckAvailability D m in
  (builtInAvailable s = true <-> capabilities_say D "readily")
  /\ isBuiltInAIAvailable m' = builtInAvailable s
  /\ (In TriggerDownload t <-> capabilities_say D "after-download")
  /\ geminiApiKey m' = geminiApiKey m
  /\ apiKeyConfigured s = apiKeyConfigured (getStatus m)
  /\ status_stats s = mstats m
  /\ (forall b, recheckAvailability D (set_available m b) = (m', t, s)).
Proof.
  pose proof (check_says_readily D m) as Hr.
  pose proof (check_triggers_download D m) as Hd.
  unfold recheckAvailability.
  assert (Hb : forall b, checkBuiltInAI D (set_available m b) = checkBuiltInAI D m).
  { intros b. unfold checkBuiltInAI.
    destruct (defined D && languageModel D); [|reflexivity].
    destruct (capabilities D); [|reflexivity].
    destruct (get _ _); reflexivity. }
  assert (Hk : geminiApiKey (fst (checkBuiltInAI D m)) = geminiApiKey m
               /\ mstats (fst (checkBuiltInAI D m)) = mstats m).
  { unfold checkBuiltInAI.
    destruct (defined D && languageModel D); [|split; reflexivity].
    destruct (capabilities D); [|split; reflexivity].
    destruct (get _ _); split; reflexivity. }
  destruct (checkBuiltInAI D m) as [m' t] eqn:E.
  cbn [fst snd] in *. destruct Hk as [Hk Hs].
  unfold getStatus. cbn [builtInAvailable apiKeyConfigured status_stats].
  rewrite Hk, Hs.
  repeat (split; [first [exact Hr | exact Hd | reflexivity]|]).
  intros b. rewrite Hb, Hk, Hs. reflexivity.
Qed.

Lemma check_events (D : device) (m : manager) (e : event) :
  In e (snd (checkBuiltInAI D m)) ->
  match e with
  | NoKeyWarning | LoadError _ => False
  | _ => True
  end.
Proof.
  unfold checkBuiltInAI.
  destruct (defined D && languageModel D).
  - destruct (capabilities D) as [caps|msg].
    + destruct (get caps "available") as [available|msg].
      * destruct (is_string "readily" available); cbn [snd]; [intros []|].
        destruct (is_string "after-download" available); cbn [In];
          intros H; repeat destruct H as [H|H]; subst; try exact I; contradiction.
      * intros [H|[]]; subst; exact I.
    + intros [H|[]]; subst; exact I.
  - intros [H|[]]; subst; exact I.
Qed.

(** Property X6.  What [initialize] leaves behind.  The warning about a missing key is
    logged only when the manager then reports [fallbackOnly]; a manager
    that reports [fallbackOnly] after it has warned or has failed to
    read the key store.  The key is the stored one when the store can be
    read and the old one otherwise, the availability is the one the
    device reports, and the counters are not touched. *)
Theorem initialize_warns_when_fallback_only (W : world) (m : manager) :
  let '(m', t) := initialize W m in
  (In NoKeyWarning t -> fallbackOnly (getStatus m') = true)
  /\ (fallbackOnly (getStatus m') = true ->
      In NoKeyWarning t \/ exists msg, In (LoadError msg) t)
  /\ (builtInAvailable (getStatus m') = true
      <-> capabilities_say (ai W) "readily")
  /\ (forall stored key,
        storage W = Ok stored -> get stored "geminiApiKey" = Ok key ->
        geminiApiKey m' = key)
  /\ ((exists msg, In (LoadError msg) t) -> geminiApiKey m' = geminiApiKey m)
  /\ mstats m' = mstats m.
Proof.
  pose proof (check_says_readily (ai W) m) as Hr.
  pose proof (check_events (ai W) m) as He.
  pose proof (proj1 (check_keeps_key_and_counters (ai W) m)) as Hk.
  pose proof (proj2 (check_keeps_key_and_counters (ai W) m)) as Hs.
  unfold initialize.
  destruct (checkBuiltInAI (ai W) m) as [m1 t1]. cbn [fst snd] in *.
  unfold loadApiKey, getStatus. cbn [fallbackOnly builtInAvailable].
  assert (Hn : ~ In NoKeyWarning t1) by (intros H; exact (He _ H)).
  assert (Hl : forall msg, ~ In (LoadError msg) t1)
    by (intros msg H; exact (He _ H)).
  destruct (storage W) as [stored|msg].
  - destruct (get stored "geminiApiKey") as [key|msg] eqn:G.
    + cbn [isBuiltInAIAvailable geminiApiKey mstats set_key].
      destruct (isBuiltInAIAvailable m1), (truthy key); cbn [negb andb].
      all: split; [intros H; apply in_app_or in H as [H|H];
                   [contradiction|try destruct H; try reflexivity; try contradiction]|].
      all: split; [intros H; try discriminate; left; apply in_or_app; right;
                   left; reflexivity|].
      all: split; [exact Hr|].
      all: split; [intros s k Es Ek; inversion Es; subst; rewrite G in Ek;
                   inversion Ek; reflexivity|].
      all: split; [|exact Hs].
      all: intros [msg H]; apply in_app_or in H as [H|H];
        [exfalso; exact (Hl _ H)|try destruct H; try discriminate; contradiction].
    + split; [intros H; apply in_app_or in H as [H|[H|[]]];
              [contradiction|discriminate]|].
      split; [intros _; right; exists msg; apply in_or_app; right; left;
              reflexivity|].
      split; [exact Hr|].
      split; [intros s k Es Ek; inversion Es; subst; rewrite G in Ek;
              discriminate|].
      split; [intros _; exact Hk|exact Hs].
  - split; [intros H; apply in_app_or in H as [H|[H|[]]];
            [contradiction|discriminate]|].
    split; [intros _; right; exists msg; apply in_or_app; right; left;
            reflexivity|].
    split; [exact Hr|].
    split; [intros s k Es Ek; discriminate|].
    split; [intros _; exact Hk|exact Hs].
Qed.
End Status.

(* ------------------------------------------------------------------ *)
(** ** Facts about the string operations *)

Section Strings.
Import Observations.

Lemma app_empty_r (s : string) : (s ++ EmptyString)%string = s.
Proof. induction s as [|c s IH]; simpl; [reflexivity|]. rewrite IH. reflexivity. Qed.

Lemma app_assoc_str (a b c : string) :
  ((a ++ b) ++ c)%string = (a ++ b ++ c)%string.
Proof. induction a as [|x a IH]; simpl; [reflexivity|]. rewrite IH. reflexivity. Qed.

Lemma is_empty_spec (s : string) : is_empty s = true <-> s = EmptyString.
Proof. destruct s; simpl; split; intros; try reflexivity; discriminate. Qed.

Lemma trimStart_idem (s : string) : trimStart (trimStart s) = trimStart s.
Proof.
  induction s as [|c s IH]; simpl; [reflexivity|].
  destruct (is_ws c) eqn:Hc; [exact IH|]. simpl. rewrite Hc. reflexivity.
Qed.

Lemma trimEnd_idem (s : string) : trimEnd (trimEnd s) = trimEnd s.
Proof.
  induction s as [|c s IH]; simpl; [reflexivity|].
  destruct (is_ws c && is_empty (trimEnd s)) eqn:H; [reflexivity|].
  simpl. rewrite IH, H. reflexivity.
Qed.

Lemma trim_commutes (s : string) : trimStart (trimEnd s) = trimEnd (trimStart s).
Proof.
  induction s as [|c s IH]; simpl; [reflexivity|].
  destruct (is_ws c) eqn:Hc; cbn [andb].
  - destruct (is_empty (trimEnd s)) eqn:He.
    + apply is_empty_spec in He. rewrite <- IH, He. reflexivity.
    + simpl. rewrite Hc. exact IH.
  - simpl. rewrite Hc. reflexivity.
Qed.

Lemma trim_idem (s : string) : trim (trim s) = trim s.
Proof.
  unfold trim. rewrite trim_commutes, trimEnd_idem, trimStart_idem.
  reflexivity.
Qed.

Lemma trimmed_trim (s : string) : trimmed (trim s).
Proof. apply trim_idem. Qed.

Lemma trimStart_length (s : string) :
  String.length (trimStart s) <= String.length s.
Proof.
  induction s as [|c s IH]; simpl; [lia|].
  destruct (is_ws c); simpl; lia.
Qed.

Lemma trimEnd_length (s : string) :
  String.length (trimEnd s) <= String.length s.
Proof.
  induction s as [|c s IH]; simpl; [lia|].
  destruct (is_ws c && is_empty (trimEnd s)); simpl; lia.
Qed.

Lemma trimEnd_fixed (s : string) :
  String.length (trimEnd s) = String.length s -> trimEnd s = s.
Proof.
  induction s as [|c s IH]; simpl; [reflexivity|].
  destruct (is_ws c && is_empty (trimEnd s)); simpl; [discriminate|].
  intros H. rewrite IH; [reflexivity|lia].
Qed.

Lemma trimStart_fixed (s : string) :
  String.length (trimStart s) = String.length s -> trimStart s = s.
Proof.
  destruct s as [|c s]; simpl; [reflexivity|].
  destruct (is_ws c); [|reflexivity].
  pose proof (trimStart_length s). intros H'. lia.
Qed.

(** A trimmed string has no white space at either end. *)
Lemma trimmed_ends (s : string) :
  trimmed s -> trimStart s = s /\ trimEnd s = s.
Proof.
  unfold trimmed, trim. intros H.
  pose proof (trimStart_length s) as H1.
  pose proof (trimEnd_length (trimStart s)) as H2.
  assert (Hs : trimStart s = s).
  { apply trimStart_fixed. rewrite H in H2. lia. }
  split; [exact Hs|]. rewrite Hs in H. exact H.
Qed.

Lemma trimStart_no_ws (c : ascii) (s : string) :
  is_ws c = false -> trimStart (String c s) = String c s.
Proof. intros H. simpl. rewrite H. reflexivity. Qed.

Lemma trimEnd_nonempty_head (c : ascii) (s : string) :
  is_ws c = false -> trimEnd (String c s) = String c (trimEnd s).
Proof. intros H. simpl. rewrite H. reflexivity. Qed.

(** The characters of a string from which a character is absent. *)
Lemma has_char_app (c : ascii) (a b : string) :
  has_char c (a ++ b) = has_char c a || has_char c b.
Proof.
  induction a as [|x a IH]; simpl; [reflexivity|].
  rewrite IH. apply orb_assoc.
Qed.

Lemma has_char_trimStart (c : ascii) (s : string) :
  has_char c s = false -> has_char c (trimStart s) = false.
Proof.
  induction s as [|x s IH]; simpl; [reflexivity|].
  intros H. apply orb_false_iff in H as [Hx Hs].
  destruct (is_ws x); [apply IH; exact Hs|].
  simpl. rewrite Hx, Hs. reflexivity.
Qed.

Lemma has_char_trimEnd (c : ascii) (s : string) :
  has_char c s = false -> has_char c (trimEnd s) = false.
Proof.
  induction s as [|x s IH]; simpl; [reflexivity|].
  intros H. apply orb_false_iff in H as [Hx Hs].
  destruct (is_ws x && is_empty (trimEnd s)); [reflexivity|].
  simpl. rewrite Hx, (IH Hs). reflexivity.
Qed.

Lemma has_char_trim (c : ascii) (s : string) :
  has_char c s = false -> has_char c (trim s) = false.
Proof.
  intros H. unfold trim. apply has_char_trimEnd, has_char_trimStart. exact H.
Qed.

Lemma span_app (p : ascii -> bool) (s : string) :
  s = (fst (span p s) ++ snd (span p s))%string.
Proof.
  induction s as [|c s IH]; simpl; [reflexivity|].
  destruct (p c); [|reflexivity].
  destruct (span p s) as [a b]. simpl in *. rewrite <- IH. reflexivity.
Qed.

Lemma has_char_span (p : ascii -> bool) (c : ascii) (s : string) :
  has_char c s = false -> has_char c (snd (span p s)) = false.
Proof.
  intros H. rewrite (span_app p s), has_char_app in H.
  apply orb_false_iff in H. apply H.
Qed.

(** The parts of a split hold no separator. *)
Lemma split_parts (c : ascii) (s : string) :
  Forall (fun part => has_char c part = false) (split c s).
Proof.
  induction s as [|a s IH]; simpl.
  - constructor; [reflexivity|constructor].
  - destruct (Ascii.eqb a c) eqn:Ha.
    + constructor; [reflexivity|exact IH].
    + destruct (split c s) as [|p ps]; [repeat constructor; simpl; rewrite Ha; reflexivity|].
      inversion IH; subst. constructor; [|assumption].
      simpl. rewrite Ha. assumption.
Qed.

Lemma split_app (c : ascii) (a b : string) :
  has_char c a = false ->
  split c (a ++ String c b) = a :: split c b.
Proof.
  induction a as [|x a IH]; simpl; intros H.
  - rewrite Ascii.eqb_refl. reflexivity.
  - apply orb_false_iff in H as [Hx Ha].
    rewrite Hx, (IH Ha). reflexivity.
Qed.

(** Splitting what [join] has put together. *)
Lemma split_join (c : ascii) (l : list string) :
  l <> [] ->
  Forall (fun part => has_char c part = false) l ->
  split c (join (unit_str c) l) = l.
Proof.
  intros Hne H. induction H as [|x l Hx Hl IH]; [contradiction|].
  destruct l as [|y l].
  - simpl. apply split_without_separator. exact Hx.
  - change (join (unit_str c) (x :: y :: l))
      with (x ++ String c (join (unit_str c) (y :: l)))%string.
    rewrite (@split_app c x _ Hx), IH; [reflexivity|discriminate].
Qed.
End Strings.

(* ------------------------------------------------------------------ *)
(** ** The parsers of structured answers *)

Section Parsers.
Import HybridAIManager Observations.

Lemma has_char_strip (c : ascii) (line : string) :
  has_char c line = false -> has_char c (strip_numbering line) = false.
Proof.
  intros H. unfold strip_numbering.
  pose proof (has_char_span is_digit c line H) as Hs.
  destruct (span is_digit line) as [digits after]. cbn [snd] in Hs.
  destruct after as [|x rest]; [exact H|].
  destruct (negb (is_empty digits) && (Ascii.eqb x "." || Ascii.eqb x ")"));
    [|exact H].
  apply has_char_trimStart. simpl in Hs.
  apply orb_false_iff in Hs. apply Hs.
Qed.

(** Property X7.  Whatever the answer of the model, each question that
    [parseQuestions] returns is longer than ten characters, has no
    white space at its ends and holds no line feed, the character at
    which the answer is split into lines.  The other line terminators
    are not separators: a carriage return inside a line stays in the
    question. *)
Theorem parsed_questions_are_clean :
  (forall text : string,
     Forall (fun q => 10 < String.length q /\ trimmed q
                      /\ has_char newline q = false)
       (parseQuestions text))
  /\ (let q := ("What is a cell" ++ unit_str carriage_return
               ++ "made of?")%string in
      parseQuestions q = [q]
      /\ has_char carriage_return q = true
      /\ is_line_terminator carriage_return = true).
Proof.
  split; [|cbv zeta; repeat split].
  intros text. unfold parseQuestions.
  assert (H : Forall (fun q => 10 < String.length q /\ trimmed q
                               /\ has_char newline q = false)
                (question_lines text)).
  { unfold question_lines. apply Forall_forall. intros q Hq.
    apply filter_In in Hq as [Hq Hlen].
    apply andb_true_iff in Hlen as [_ Hlen]. apply Nat.ltb_lt in Hlen.
    apply in_map_iff in Hq as [line [<- Hline]].
    apply filter_In in Hline as [Hline _].
    split; [exact Hlen|]. split; [apply trimmed_trim|].
    unfold cleaned. apply has_char_trim, has_char_strip.
    pose proof (split_parts newline text) as Hp.
    rewrite Forall_forall in Hp. apply Hp. exact Hline. }
  destruct (question_lines text) as [|q qs]; [|exact H].
  constructor; [|constructor].
  split; [vm_compute; lia|]. split; reflexivity.
Qed.

Lemma replace_first_keeps_absent (c : ascii) (pat s : string) :
  has_char c s = false ->
  has_char c (replace_first pat EmptyString s) = false.
Proof.
  revert pat. induction s as [|x s IH]; intros pat H.
  - destruct pat; reflexivity.
  - cbn [replace_first]. destruct (prefix pat (String x s)).
    + cbn [append]. clear IH. revert H. generalize (String x s) as u.
      generalize (String.length pat) as n.
      induction n as [|n IHn]; intros u H; [exact H|].
      destruct u as [|y u]; [reflexivity|]. simpl in *.
      apply orb_false_iff in H as [_ H]. apply IHn. exact H.
    + simpl in *. apply orb_false_iff in H as [Hx Hs].
      rewrite Hx, (IH pat Hs). reflexivity.
Qed.

Lemma flashcard_of_line_clean (line : string) (cards : list flashcard) :
  flashcard_of_line line = Ok cards ->
  Forall (fun c => plain_side (question c) /\ plain_side (answer c)) cards.
Proof.
  unfold flashcard_of_line.
  destruct (includes "Q:" line && includes "A:" line);
    [|intros H; inversion H; constructor].
  pose proof (split_parts "|" line) as Hp.
  destruct (split "|" line) as [|q [|a rest]]; cbn [map]; try discriminate.
  inversion Hp as [|? ? Hq Hp']; subst. inversion Hp' as [|? ? Ha _]; subst.
  destruct (negb (is_empty (trim (replace_first "Q:" EmptyString (trim q))))
            && negb (is_empty (trim (replace_first "A:" EmptyString (trim a)))))
    eqn:Hne; intros H; inversion H; [|constructor].
  apply andb_true_iff in Hne as [Hnq Hna].
  constructor; [|constructor]. cbn [question answer].
  unfold plain_side. repeat split.
  - intros E. rewrite E in Hnq. discriminate.
  - apply trimmed_trim.
  - apply has_char_trim, replace_first_keeps_absent, has_char_trim. exact Hq.
  - intros E. rewrite E in Hna. discriminate.
  - apply trimmed_trim.
  - apply has_char_trim, replace_first_keeps_absent, has_char_trim. exact Ha.
Qed.

(** Property X8.  Whenever [parseFlashcards] returns, every card is usable: its
    question and its answer are not empty, have no white space at their
    ends and do not hold the separator [|]. *)
Theorem parsed_flashcards_are_clean (text : string) (cards : list flashcard) :
  parseFlashcards text = Ok cards ->
  Forall (fun c => plain_side (question c) /\ plain_side (answer c)) cards.
Proof.
  unfold parseFlashcards.
  assert (H : forall lines l, flashcards_of_lines lines = Ok l ->
                Forall (fun c => plain_side (question c) /\ plain_side (answer c)) l).
  { induction lines as [|line rest IH]; intros l Hl; simpl in Hl.
    - inversion Hl. constructor.
    - destruct (flashcard_of_line line) as [here|msg] eqn:E1; [|discriminate].
      destruct (flashcards_of_lines rest) as [more|msg] eqn:E2; [|discriminate].
      simpl in Hl. inversion Hl; subst.
      apply Forall_app. split; [exact (flashcard_of_line_clean _ E1)|].
      apply IH. reflexivity. }
  destruct (flashcards_of_lines (split newline text)) as [l|msg] eqn:E;
    cbn [bind]; [|discriminate].
  destruct l as [|c l]; intros Hc; inversion Hc; subst.
  - constructor; [|constructor].
    unfold plain_side. cbn. repeat split; discriminate.
  - exact (H _ _ E).
Qed.

Lemma parsed_flashcards_witness :
  Forall (fun c => plain_side (question c) /\ plain_side (answer c))
    [{| question := "What is Rome?"; answer := "A city." |}].
Proof.
  exact (@parsed_flashcards_are_clean "Q: What is Rome? | A:  A city. " _ eq_refl).
Defined.

Lemma includes_app_r (needle a b : string) :
  includes needle b = true -> includes needle (a ++ b) = true.
Proof.
  intros H. induction a as [|x a IH]; [exact H|].
  cbn [append includes]. rewrite IH. apply orb_true_r.
Qed.

Lemma trimEnd_app (a b : string) :
  trimEnd b <> EmptyString -> trimEnd (a ++ b) = (a ++ trimEnd b)%string.
Proof.
  intros H. induction a as [|x a IH]; [reflexivity|].
  cbn [append trimEnd]. rewrite IH.
  destruct (a ++ trimEnd b)%string eqn:E.
  - destruct a; [simpl in E; contradiction|discriminate].
  - cbn [is_empty]. rewrite andb_false_r. reflexivity.
Qed.

Lemma trimEnd_space (s : string) : trimEnd (s ++ " ") = trimEnd s.
Proof.
  induction s as [|x s IH]; [reflexivity|].
  cbn [append trimEnd]. rewrite IH. reflexivity.
Qed.

Lemma plain_ends (s : string) :
  s <> EmptyString -> trimmed s ->
  trimStart s = s /\ trimEnd s = s /\ trimEnd s <> EmptyString.
Proof.
  intros Hne Ht. destruct (trimmed_ends Ht) as [Hs He].
  repeat split; try assumption. rewrite He. exact Hne.
Qed.

Lemma card_line_parsed (c : flashcard) :
  plain (question c) -> plain (answer c) ->
  flashcard_of_line (card_line c) = Ok [c].
Proof.
  destruct c as [q a]. cbn [question answer].
  intros (Hq & Hqt & _ & Hqb) (Ha & Hat & _ & Hab).
  destruct (plain_ends Hq Hqt) as (Hqs & Hqe & Hqn).
  destruct (plain_ends Ha Hat) as (Has & Hae & Han).
  unfold flashcard_of_line, card_line. cbn [question answer].
  assert (Hline : ("Q: " ++ q ++ " | A: " ++ a)%string
                  = (("Q: " ++ q ++ " ") ++ String "|" (" A: " ++ a))%string).
  { rewrite !app_assoc_str. reflexivity. }
  assert (Hi : includes "Q:" ("Q: " ++ q ++ " | A: " ++ a)
               && includes "A:" ("Q: " ++ q ++ " | A: " ++ a) = true).
  { apply andb_true_iff. split; [reflexivity|].
    change ("Q: " ++ q ++ " | A: " ++ a)%string
      with ("Q: " ++ (q ++ (" | " ++ ("A: " ++ a))))%string.
    apply includes_app_r, includes_app_r, includes_app_r. reflexivity. }
  rewrite Hi, Hline, split_app.
  2: { rewrite !has_char_app, Hqb. reflexivity. }
  rewrite split_without_separator.
  2: { rewrite has_char_app, Hab. reflexivity. }
  cbn [map].
  assert (Tq : trim ("Q: " ++ q ++ " ") = ("Q: " ++ q)%string).
  { unfold trim.
    change (trimStart ("Q: " ++ q ++ " ")) with ("Q: " ++ (q ++ " "))%string.
    rewrite trimEnd_app; rewrite trimEnd_space; [|exact Hqn].
    rewrite Hqe. reflexivity. }
  assert (Ta : trim (" A: " ++ a) = ("A: " ++ a)%string).
  { unfold trim.
    change (trimStart (" A: " ++ a)) with ("A: " ++ a)%string.
    rewrite trimEnd_app by exact Han. rewrite Hae. reflexivity. }
  rewrite Tq, Ta.
  change (replace_first "Q:" EmptyString ("Q: " ++ q)) with (" " ++ q)%string.
  change (replace_first "A:" EmptyString ("A: " ++ a)) with (" " ++ a)%string.
  change (trim (" " ++ q)) with (trim q).
  change (trim (" " ++ a)) with (trim a).
  rewrite Hqt, Hat.
  destruct q; [contradiction|]. destruct a; [contradiction|]. reflexivity.
Qed.

Lemma card_line_has_no_break (c : flashcard) :
  plain (question c) -> plain (answer c) ->
  has_char newline (card_line c) = false.
Proof.
  intros (_ & _ & Hq & _) (_ & _ & Ha & _). unfold card_line.
  rewrite !has_char_app, Hq, Ha. reflexivity.
Qed.

(** Property X9.  [parseFlashcards] reads back what the prompt asks the model to
    write: for a list of cards that is not empty and whose questions and
    answers are plain text, the lines [Q: question | A: answer] parse to
    exactly these cards, in their order. *)
Theorem flashcards_round_trip (cards : list flashcard) :
  cards <> [] ->
  Forall (fun c => plain (question c) /\ plain (answer c)) cards ->
  parseFlashcards (card_list cards) = Ok cards.
Proof.
  intros Hne H. unfold parseFlashcards, card_list, nl.
  rewrite split_join.
  - assert (Hl : flashcards_of_lines (map card_line cards) = Ok cards).
    { clear Hne. induction H as [|c l [Hq Ha] _ IH]; [reflexivity|].
      cbn [map flashcards_of_lines]. rewrite (card_line_parsed c Hq Ha), IH.
      reflexivity. }
    rewrite Hl. cbn [bind]. destruct cards; [contradiction|reflexivity].
  - destruct cards; [contradiction|discriminate].
  - apply Forall_forall. intros line Hin.
    apply in_map_iff in Hin as [c [<- Hc]].
    rewrite Forall_forall in H. destruct (H c Hc) as [Hq Ha].
    apply card_line_has_no_break; assumption.
Qed.

Lemma flashcards_round_trip_witness :
  parseFlashcards
    (card_list [{| question := "What is Rome?"; answer := "A city." |};
                {| question := "Fact #2"; answer := "Q: A: again" |}])
  = Ok [{| question := "What is Rome?"; answer := "A city." |};
        {| question := "Fact #2"; answer := "Q: A: again" |}].
Proof.
  apply flashcards_round_trip; [discriminate|].
  repeat constructor; try discriminate; reflexivity.
Defined.

Lemma digit_is_no_space (c : ascii) : is_digit c = true -> is_ws c = false.
Proof.
  unfold is_digit, is_ws. cbv zeta. intros H.
  apply andb_true_iff in H as [H1 H2].
  apply Nat.leb_le in H1. apply Nat.leb_le in H2.
  repeat rewrite orb_false_iff. repeat split.
  - apply andb_false_iff. right. apply Nat.leb_gt. lia.
  - apply Nat.eqb_neq. lia.
  - apply Nat.eqb_neq. lia.
Qed.

Lemma digits_have_no_break (n : string) :
  all_digits n = true -> has_char newline n = false.
Proof.
  induction n as [|c n IH]; simpl; [reflexivity|].
  intros H. apply andb_true_iff in H as [Hc Hn].
  rewrite (IH Hn), orb_false_r.
  destruct (Ascii.eqb c newline) eqn:E; [|reflexivity].
  apply Ascii.eqb_eq in E. subst. discriminate.
Qed.

Lemma span_digits (n rest : string) :
  all_digits n = true ->
  span is_digit (n ++ String "." rest) = (n, String "." rest).
Proof.
  induction n as [|c n IH]; simpl; [reflexivity|].
  intros H. apply andb_true_iff in H as [Hc Hn].
  rewrite Hc, (IH Hn). reflexivity.
Qed.

Lemma filter_all {A} (f : A -> bool) (l : list A) :
  Forall (fun x => f x = true) l -> filter f l = l.
Proof.
  induction 1 as [|x l Hx _ IH]; [reflexivity|].
  simpl. rewrite Hx, IH. reflexivity.
Qed.

Lemma numbered_line_cleaned (n q : string) :
  n <> EmptyString -> all_digits n = true -> trimmed q ->
  q <> EmptyString ->
  negb (is_empty (trim (numbered_line (n, q)))) = true
  /\ cleaned (numbered_line (n, q)) = q.
Proof.
  intros Hn Hd Hq Hne. unfold numbered_line. cbn [fst snd]. split.
  - destruct n as [|c n]; [contradiction|].
    simpl in Hd. apply andb_true_iff in Hd as [Hc _].
    unfold trim. cbn [append]. rewrite trimStart_no_ws by (apply digit_is_no_space; exact Hc).
    rewrite trimEnd_nonempty_head by (apply digit_is_no_space; exact Hc).
    reflexivity.
  - unfold cleaned, strip_numbering.
    change (n ++ ". " ++ q)%string with (n ++ String "." (" " ++ q))%string.
    rewrite span_digits by exact Hd.
    destruct n as [|c n]; [contradiction|]. cbn [is_empty negb andb].
    change (Ascii.eqb "." "." || Ascii.eqb "." ")") with true. cbn iota.
    change (trimStart (" " ++ q)) with (trimStart q).
    destruct (trimmed_ends Hq) as [Hs _]. rewrite Hs. exact Hq.
Qed.

(** Property X10.  [parseQuestions] reads back the numbered list that the prompt
    asks the model to write: for items that carry a number and a
    question of more than ten characters, without white space at its
    ends and without a line break, the result is exactly the questions,
    in their order and without their numbers. *)
Theorem questions_round_trip (items : list (string * string)) :
  items <> [] ->
  Forall (fun item =>
            fst item <> EmptyString /\ all_digits (fst item) = true
            /\ 10 < String.length (snd item) /\ trimmed (snd item)
            /\ has_char newline (snd item) = false) items ->
  parseQuestions (numbered_list items) = map snd items.
Proof.
  intros Hne H. unfold parseQuestions, question_lines, numbered_list, nl.
  assert (Hq : forall item, In item items -> snd item <> EmptyString).
  { intros item Hin. rewrite Forall_forall in H.
    destruct (H item Hin) as (_ & _ & Hlen & _).
    intros E. rewrite E in Hlen. simpl in Hlen. lia. }
  rewrite split_join.
  - rewrite (@filter_all _ (fun line => negb (is_empty (trim line)))).
    2: { apply Forall_forall. intros line Hin.
         apply in_map_iff in Hin as [[n q] [<- Hin]].
         rewrite Forall_forall in H.
         destruct (H _ Hin) as (Hn & Hd & _ & Ht & _).
         exact (proj1 (numbered_line_cleaned Hn Hd Ht (Hq _ Hin))). }
    rewrite map_map.
    assert (Hm : map (fun x => cleaned (numbered_line x)) items = map snd items).
    { apply map_ext_in. intros [n q] Hin.
      rewrite Forall_forall in H.
      destruct (H _ Hin) as (Hn & Hd & _ & Ht & _).
      exact (proj2 (numbered_line_cleaned Hn Hd Ht (Hq _ Hin))). }
    rewrite Hm, filter_all.
    + destruct items; [contradiction|reflexivity].
    + apply Forall_forall. intros q Hin.
      apply in_map_iff in Hin as [item [<- Hin]].
      rewrite Forall_forall in H.
      destruct (H _ Hin) as (_ & _ & Hlen & _).
      apply andb_true_iff. split.
      * specialize (Hq _ Hin). destruct (snd item); [contradiction|reflexivity].
      * apply Nat.ltb_lt. exact Hlen.
  - destruct items; [contradiction|discriminate].
  - apply Forall_forall. intros line Hin.
    apply in_map_iff in Hin as [[n q] [<- Hin]].
    rewrite Forall_forall in H.
    destruct (H _ Hin) as (_ & Hd & _ & _ & Hb).
    unfold numbered_line. cbn [fst snd] in *.
    rewrite !has_char_app, (@digits_have_no_break n Hd), Hb. reflexivity.
Qed.

Lemma questions_round_trip_witness :
  parseQuestions
    (numbered_list [("1", "What is a cell?"); ("12", "2) Why do cells divide?")])
  = ["What is a cell?"; "2) Why do cells divide?"].
Proof.
  apply (@questions_round_trip
           [("1", "What is a cell?"); ("12", "2) Why do cells divide?")]);
    [discriminate|].
  repeat constructor; try discriminate; cbn; lia.
Defined.
End Parsers.

(* ------------------------------------------------------------------ *)
(** ** The sentences of a text *)

Section Sentences.
Import HybridAIManager Observations.

Lemma concat_cons (x : string) (l : list string) :
  String.concat EmptyString (x :: l) = (x ++ String.concat EmptyString l)%string.
Proof.
  destruct l as [|y l]; simpl; [rewrite app_empty_r|]; reflexivity.
Qed.

Lemma has_terminator_app (a b : string) :
  has_terminator (a ++ b) = has_terminator a || has_terminator b.
Proof.
  induction a as [|x a IH]; simpl; [reflexivity|].
  rewrite IH. apply orb_assoc.
Qed.

Lemma all_terminators_app (a b : string) :
  all_terminators (a ++ b) = all_terminators a && all_terminators b.
Proof.
  induction a as [|x a IH]; simpl; [reflexivity|].
  rewrite IH. apply andb_assoc.
Qed.

Lemma app_not_empty_l (a b : string) :
  a <> EmptyString -> (a ++ b)%string <> EmptyString.
Proof. destruct a; [contradiction|discriminate]. Qed.

Lemma app_unit_not_empty (a : string) (c : ascii) :
  (a ++ unit_str c)%string <> EmptyString.
Proof. destruct a; discriminate. Qed.

Lemma scan_partition (s body marks : string) :
  has_terminator body = false ->
  all_terminators marks = true ->
  (body = EmptyString -> marks = EmptyString) ->
  (exists lead tail,
     (body ++ marks ++ s)%string
     = (lead ++ String.concat EmptyString (scan_sentences body marks s)
        ++ tail)%string
     /\ all_terminators lead = true
     /\ has_terminator tail = false
     /\ (body <> EmptyString -> lead = EmptyString))
  /\ Forall sentence_shaped (scan_sentences body marks s).
Proof.
  revert body marks.
  induction s as [|c rest IH]; intros body marks Hb Hm Hbm.
  - cbn [scan_sentences]. destruct marks as [|m ms]; cbn [is_empty].
    + split; [|constructor].
      exists EmptyString, body. cbn [String.concat append].
      rewrite app_empty_r. repeat split; assumption.
    + assert (Hne : body <> EmptyString).
      { intros E. specialize (Hbm E). discriminate. }
      split.
      * exists EmptyString, EmptyString. cbn [String.concat].
        rewrite !app_empty_r. repeat split.
      * constructor; [|constructor].
        exists body, (String m ms). repeat split; try assumption. discriminate.
  - cbn [scan_sentences]. destruct (is_terminator c) eqn:Hc.
    + destruct body as [|b bs]; cbn [is_empty].
      * rewrite (Hbm eq_refl).
        destruct (IH EmptyString EmptyString eq_refl eq_refl (fun _ => eq_refl))
          as [(lead & tail & E & Hl & Ht & _) Hs].
        split; [|exact Hs].
        exists (String c lead), tail. cbn [append] in *.
        split; [f_equal; exact E|].
        split; [cbn [all_terminators]; rewrite Hc, Hl; reflexivity|].
        split; [exact Ht|]. intros H. contradiction.
      * destruct (IH (String b bs) (marks ++ unit_str c)%string Hb)
          as [(lead & tail & E & Hl & Ht & Hn) Hs].
        { rewrite all_terminators_app, Hm. cbn [all_terminators has_terminator unit_str]. rewrite Hc. reflexivity. }
        { discriminate. }
        split; [|exact Hs].
        exists lead, tail. rewrite <- E. repeat split; try assumption.
        rewrite !app_assoc_str. reflexivity.
    + destruct marks as [|m ms]; cbn [is_empty].
      * destruct (IH (body ++ unit_str c)%string EmptyString)
          as [(lead & tail & E & Hl & Ht & Hn) Hs].
        { rewrite has_terminator_app, Hb. cbn [all_terminators has_terminator unit_str]. rewrite Hc. reflexivity. }
        { reflexivity. }
        { intros H. destruct (app_unit_not_empty _ _ H). }
        split; [|exact Hs].
        exists lead, tail. rewrite <- E.
        split; [rewrite !app_assoc_str; reflexivity|].
        split; [exact Hl|]. split; [exact Ht|].
        intros _. apply Hn. apply app_unit_not_empty.
      * assert (Hne : body <> EmptyString).
        { intros E. specialize (Hbm E). discriminate. }
        destruct (IH (unit_str c) EmptyString)
          as [(lead & tail & E & Hl & Ht & Hn) Hs].
        { cbn [all_terminators has_terminator unit_str]. rewrite Hc. reflexivity. }
        { reflexivity. }
        { discriminate. }
        split.
        -- exists EmptyString, tail. rewrite concat_cons.
           rewrite (Hn ltac:(discriminate)) in E. cbn [append] in E.
           cbn [append unit_str] in *. rewrite !app_assoc_str, <- E.
           repeat split; try assumption. 
        -- constructor; [|exact Hs].
           exists body, (String m ms). repeat split; try assumption. discriminate.
Qed.

Lemma sentences_are_shaped (text : string) :
  Forall sentence_shaped (match_sentences text).
Proof.
  exact (proj2 (@scan_partition text EmptyString EmptyString eq_refl eq_refl
                  (fun _ => eq_refl))).
Qed.

(** Property X11.  The sentences that the heuristics work on partition the text:
    joined without a separator they are the text itself, less the marks
    [.], [!], [?] at its very start and less the unterminated rest at
    its end.  Each sentence is some text free of these marks followed by
    one or more of them. *)
Theorem sentences_partition_the_text (text : string) :
  (exists lead tail,
     text = (lead ++ String.concat EmptyString (match_sentences text)
             ++ tail)%string
     /\ all_terminators lead = true
     /\ has_terminator tail = false)
  /\ Forall sentence_shaped (match_sentences text).
Proof.
  destruct (@scan_partition text EmptyString EmptyString eq_refl eq_refl
              (fun _ => eq_refl))
    as [(lead & tail & E & Hl & Ht & _) Hs].
  split; [|exact Hs].
  exists lead, tail. repeat split; assumption.
Qed.
End Sentences.

(* ------------------------------------------------------------------ *)
(** ** The basic heuristics *)

Section Extraction.
Import HybridAIManager Observations.

Lemma sub_refl {A} (l : list A) : subsequence l l.
Proof. induction l; constructor; assumption. Qed.

Lemma sub_empty {A} (l : list A) : subsequence [] l.
Proof. induction l; constructor; assumption. Qed.

Lemma sub_app {A} (a b c d : list A) :
  subsequence a b -> subsequence c d -> subsequence (a ++ c) (b ++ d).
Proof.
  intros H Hc. induction H; simpl; try constructor; assumption.
Qed.

Lemma sub_grow {A} (a b c : list A) :
  subsequence a b -> subsequence a (b ++ c).
Proof.
  intros H. rewrite <- (app_nil_r a). apply sub_app; [exact H|apply sub_empty].
Qed.

Lemma sub_firstn_mono {A} (r l : list A) (i j : nat) :
  i <= j -> subsequence r (firstn i l) -> subsequence r (firstn j l).
Proof.
  intros Hij H.
  rewrite <- (firstn_skipn i (firstn j l)), firstn_firstn.
  rewrite Nat.min_l by exact Hij. apply sub_grow. exact H.
Qed.

Lemma firstn_snoc {A} (l : list A) (i : nat) (d : A) :
  i < List.length l -> firstn (S i) l = (firstn i l ++ [nth i l d])%list.
Proof.
  revert i. induction l as [|x l IH]; intros i Hi; simpl in Hi; [lia|].
  destruct i as [|i]; [reflexivity|].
  cbn [firstn nth app]. rewrite <- IH by lia. reflexivity.
Qed.

Lemma last_is_nth {A} (l : list A) (d : A) :
  last l d = nth (List.length l - 1) l d.
Proof.
  induction l as [|x l IH]; [reflexivity|].
  destruct l as [|y l]; [reflexivity|].
  change (last (x :: y :: l) d) with (last (y :: l) d). rewrite IH.
  cbn [List.length]. replace (S (S (List.length l)) - 1) with (S (List.length l)) by lia.
  cbn [nth]. replace (S (List.length l) - 1) with (List.length l) by lia.
  reflexivity.
Qed.

(** The loop of [basicSummarize] takes sentences before the last one,
    in their order, and stops adding at [count - 1]. *)
Lemma pick_invariant (fuel i step count : nat) (sentences result : list string) :
  1 <= step ->
  subsequence result (firstn (Nat.min i (List.length sentences - 1)) sentences) ->
  List.length result <= count - 1 ->
  subsequence (pick fuel i step count sentences result)
    (firstn (List.length sentences - 1) sentences)
  /\ List.length (pick fuel i step count sentences result) <= count - 1.
Proof.
  intros Hstep. revert i result.
  induction fuel as [|fuel IH]; intros i result Hsub Hlen; cbn [pick].
  - split; [|exact Hlen].
    apply (@sub_firstn_mono _ _ _ (Nat.min i (List.length sentences - 1))); [lia|exact Hsub].
  - destruct (i <? List.length sentences - 1) eqn:Hi.
    + apply Nat.ltb_lt in Hi.
      rewrite Nat.min_l in Hsub by lia.
      destruct (List.length result <? count - 1) eqn:Hc.
      * apply Nat.ltb_lt in Hc. apply IH.
        -- apply (@sub_firstn_mono _ _ _ (S i)); [lia|].
           rewrite (@firstn_snoc _ sentences i EmptyString) by lia.
           apply sub_app; [exact Hsub|apply sub_refl].
        -- rewrite length_app. simpl. lia.
      * apply IH; [|exact Hlen].
        apply (@sub_firstn_mono _ _ _ i); [lia|exact Hsub].
    + apply Nat.ltb_ge in Hi. rewrite Nat.min_r in Hsub by lia.
      split; assumption.
Qed.

Lemma count_for_values (length : string) (count : nat) :
  count_for length = Some count -> count = 2 \/ count = 4 \/ count = 6.
Proof.
  unfold count_for.
  destruct (String.eqb length "short"); [intros H; inversion H; auto|].
  destruct (String.eqb length "medium"); [intros H; inversion H; auto|].
  destruct (String.eqb length "long"); [intros H; inversion H; auto|].
  destruct (inherited length); [discriminate|].
  intros H; inversion H; auto.
Qed.

(** Property X12.  The basic summary is extractive.  For a length that is one of
    the three of the table or not a member of [Object.prototype], with
    [count] the number of the table (4 for an unknown length), the
    summary joins with spaces some sentences of the text, in the order
    of the text and at most [count] of them: all of them when the text
    has no more than [count], and otherwise a choice that starts with
    the first sentence and ends with the last one. *)
Theorem basic_summary_is_extractive (text : string) (o : options) (count : nat) :
  count_for (or_str (Options.length o) "medium") = Some count ->
  exists picked,
    basicSummarize text o = join " " picked
    /\ subsequence picked (match_sentences text)
    /\ List.length picked <= count
    /\ hd_error picked = hd_error (match_sentences text)
    /\ last picked EmptyString = last (match_sentences text) EmptyString
    /\ (List.length (match_sentences text) <= count ->
        picked = match_sentences text).
Proof.
  intros Hcount. pose proof (count_for_values _ Hcount) as Hv.
  unfold basicSummarize. rewrite Hcount.
  set (sentences := match_sentences text).
  destruct (List.length sentences <=? count) eqn:Hn.
  - exists sentences. apply Nat.leb_le in Hn.
    repeat split; try reflexivity; [apply sub_refl|exact Hn].
  - apply Nat.leb_gt in Hn.
    set (n := List.length sentences) in *.
    set (step := n / count).
    assert (Hstep : 1 <= step) by (apply Nat.div_str_pos; lia).
    destruct (@pick_invariant n step step count sentences
                [nth 0 sentences EmptyString] Hstep) as [Hsub Hlen].
    { fold n. apply (@sub_firstn_mono _ _ _ 1); [lia|].
      destruct sentences as [|s0 rest]; [simpl in n; lia|].
      cbn. apply sub_take. apply sub_nil. }
    { simpl. lia. }
    destruct (pick_extends n step step count sentences
                [nth 0 sentences EmptyString]) as [more Hmore].
    exists (pick n step step count sentences [nth 0 sentences EmptyString]
            ++ [nth (n - 1) sentences EmptyString])%list.
    split; [reflexivity|].
    split.
    { assert (Hs : (firstn (n - 1) sentences
                    ++ [nth (n - 1) sentences EmptyString])%list = sentences).
      { rewrite <- (@firstn_snoc _ sentences (n - 1) EmptyString) by (fold n; lia).
        replace (S (n - 1)) with n by lia. apply firstn_all. }
      pose proof (sub_app Hsub (sub_refl [nth (n - 1) sentences EmptyString]))
        as Hfull.
      fold n in Hfull. rewrite Hs in Hfull. exact Hfull. }
    split; [rewrite length_app; simpl; lia|].
    split.
    { rewrite Hmore. destruct sentences as [|s0 rest]; [simpl in n; lia|].
      reflexivity. }
    split; [rewrite last_last; symmetry; apply last_is_nth|].
    intros H. lia.
Qed.

Lemma basic_summary_extract_witness :
  exists picked,
    basicSummarize "One. Two! Three? Four. Five."
      {| Options.length := Some "short"; Options.format := None;
         Options.tone := None; Options.sourceLanguage := None;
         Options.targetLanguage := None; Options.difficulty := None;
         Options.level := None; Options.count := None;
         Options.systemPrompt := None; Options.temperature := None;
         Options.maxTokens := None; Options.forceNew := false |}
    = join " " picked
    /\ List.length picked <= 2.
Proof.
  destruct (@basic_summary_is_extractive "One. Two! Three? Four. Five."
              {| Options.length := Some "short"; Options.format := None;
                 Options.tone := None; Options.sourceLanguage := None;
                 Options.targetLanguage := None; Options.difficulty := None;
                 Options.level := None; Options.count := None;
                 Options.systemPrompt := None; Options.temperature := None;
                 Options.maxTokens := None; Options.forceNew := false |}
              2 eq_refl) as (picked & E & _ & Hlen & _).
  exists picked. split; assumption.
Defined.

Lemma terminator_is_no_space (c : ascii) :
  is_terminator c = true -> is_ws c = false.
Proof.
  unfold is_terminator. intros H.
  apply orb_true_iff in H as [H|H]; [apply orb_true_iff in H as [H|H]|];
    apply Ascii.eqb_eq in H; subst; reflexivity.
Qed.

Lemma trim_keeps_marked_text (s : string) :
  has_terminator s = true -> trim s <> EmptyString.
Proof.
  intros H. unfold trim.
  assert (Hs : has_terminator (trimStart s) = true).
  { induction s as [|c s IH]; [discriminate|]. cbn [trimStart].
    destruct (is_ws c) eqn:Hw; [|exact H].
    apply IH. cbn [has_terminator] in H.
    destruct (is_terminator c) eqn:Hc; [|exact H].
    rewrite (terminator_is_no_space c Hc) in Hw. discriminate. }
  revert Hs. generalize (trimStart s) as u. clear s H.
  induction u as [|c u IH]; [discriminate|].
  cbn [has_terminator trimEnd]. intros H.
  destruct (is_terminator c) eqn:Hc.
  - rewrite (terminator_is_no_space c Hc). discriminate.
  - cbn [orb] in H. specialize (IH H).
    destruct (trimEnd u); [contradiction|].
    cbn [is_empty]. rewrite andb_false_r. discriminate.
Qed.

Lemma shaped_has_terminator (s : string) :
  sentence_shaped s -> has_terminator s = true.
Proof.
  intros (body & marks & -> & _ & _ & Hm & Ha).
  rewrite has_terminator_app. apply orb_true_iff. right.
  destruct marks as [|c marks]; [contradiction|].
  cbn in *. apply andb_true_iff in Ha as [Hc _]. rewrite Hc. reflexivity.
Qed.

Lemma flashcards_from_spec (index : nat) (sentences : list string) :
  Forall sentence_shaped sentences ->
  map answer (flashcards_from index sentences) = map trim sentences
  /\ Forall (fun c => answer c <> EmptyString /\ trimmed (answer c)
                      /\ question c <> EmptyString)
       (flashcards_from index sentences).
Proof.
  intros H. revert index.
  induction H as [|s l Hs _ IH]; intros index; cbn [flashcards_from map].
  - split; constructor.
  - destruct (IH (index + 1)) as [E F]. rewrite E. split; [reflexivity|].
    constructor; [|exact F]. cbn [answer question]. repeat split.
    + apply trim_keeps_marked_text, shaped_has_terminator. exact Hs.
    + apply trimmed_trim.
    + destruct (first_key_term false s); discriminate.
Qed.

(** Property X13.  The basic flashcards follow the sentences of the text: one
    card for each of the first ten sentences, in their order, whose
    answer is the sentence without the white space around it.  No card
    has an empty side, there are never more than ten cards, and a text
    without a terminated sentence gives no card at all. *)
Theorem basic_flashcards_follow_the_sentences (text : string) :
  let cards := basicCreateFlashcards text in
  map answer cards = map trim (firstn 10 (match_sentences text))
  /\ List.length cards = Nat.min 10 (List.length (match_sentences text))
  /\ Forall (fun c => answer c <> EmptyString /\ trimmed (answer c)
                      /\ question c <> EmptyString) cards
  /\ (has_terminator text = false -> cards = []).
Proof.
  cbv zeta. unfold basicCreateFlashcards.
  assert (Hs : Forall sentence_shaped (firstn 10 (match_sentences text))).
  { apply Forall_forall. intros s Hin.
    pose proof (sentences_are_shaped text) as H.
    rewrite Forall_forall in H. apply H.
    rewrite <- (firstn_skipn 10 (match_sentences text)).
    apply in_or_app. left. exact Hin. }
  destruct (flashcards_from_spec 0 Hs) as [E F].
  split; [exact E|]. split.
  - rewrite <- (length_map answer), E, length_map. apply length_firstn.
  - split; [exact F|].
    intros H. rewrite (no_sentence_without_terminator text H). reflexivity.
Qed.
End Extraction.

Section UnpunctuatedText.
Import HybridAIManager Scenario Observations.

(** Property X14.  A text without [.], [!] or [?] in the hands of a manager that
    has only the basic fallback: the flashcards come back as a success
    with an empty list of cards, and the questions are the first four
    templates, with no question about the text. *)
Theorem unpunctuated_text_in_fallback_mode (W : world) (m : manager)
    (text : string) (o : options) :
  has_terminator text = false ->
  fallbackOnly (getStatus m) = true ->
  (exists counters,
     returned (process W m text "createFlashcards" o)
     = Ok {| result := JArr []; method := "Basic Fallback"; stats := counters |})
  /\ (exists counters,
        returned (process W m text "generateQuestions" o)
        = Ok {| result := strings_value (firstn 4 templates);
                method := "Basic Fallback"; stats := counters |}).
Proof.
  intros Ht H. unfold getStatus in H. cbn [fallbackOnly] in H.
  apply andb_true_iff in H as [Ha Hk].
  apply negb_true_iff in Ha. apply negb_true_iff in Hk.
  unfold process, strategies. cbn [attempt throw].
  rewrite !(builtin_unavailable _ m text _ o Ha).
  rewrite !(gemini_unconfigured _ m text _ o Hk).
  unfold processWithBasicFallback, basicCreateFlashcards, basicGenerateQuestions.
  rewrite (no_sentence_without_terminator text Ht).
  split; eexists; reflexivity.
Qed.

Lemma unpunctuated_text_witness :
  exists counters,
    returned (process (offline "Failed to fetch") basic_only
                "mitosis and meiosis" "createFlashcards" Options.none)
    = Ok {| result := JArr []; method := "Basic Fallback"; stats := counters |}.
Proof.
  exact (proj1 (@unpunctuated_text_in_fallback_mode
                  (offline "Failed to fetch") basic_only
                  "mitosis and meiosis" Options.none eq_refl eq_refl)).
Defined.
End UnpunctuatedText.

Section Proofreading.
Import HybridAIManager Observations.

Lemma upper_of_lower (c : ascii) :
  is_lower c = true -> is_lower (upper c) = false /\ is_ws (upper c) = false
                       /\ Ascii.eqb (upper c) newline = false.
Proof.
  destruct c as [[] [] [] [] [] [] [] []]; intros H; try discriminate H;
    vm_compute; repeat split.
Qed.

Lemma lower_is_no_space (c : ascii) :
  is_lower c = true -> is_ws c = false /\ Ascii.eqb c newline = false.
Proof.
  destruct c as [[] [] [] [] [] [] [] []]; intros H; try discriminate H;
    vm_compute; repeat split.
Qed.

Lemma split_other (c a : ascii) (s : string) :
  Ascii.eqb a c = false ->
  split c (String a s)
  = String a (hd EmptyString (split c s)) :: tl (split c s).
Proof.
  intros H. cbn [split]. rewrite H.
  destruct (split c s) as [|p ps] eqn:E; [|reflexivity].
  destruct (split_not_empty c s E).
Qed.

Lemma split_separator (c : ascii) (s : string) :
  split c (String c s) = EmptyString :: split c s.
Proof. cbn [split]. rewrite Ascii.eqb_refl. reflexivity. Qed.

Lemma starts_lower_after_space (c : ascii) (s : string) :
  is_ws c = true -> starts_lower (String c s) = starts_lower s.
Proof. intros H. unfold starts_lower. cbn [trimStart]. rewrite H. reflexivity. Qed.

Lemma starts_lower_at (c : ascii) (s : string) :
  is_ws c = false -> starts_lower (String c s) = is_lower c.
Proof. intros H. unfold starts_lower. cbn [trimStart]. rewrite H. reflexivity. Qed.

Lemma line_terminator_cases (c : ascii) :
  is_line_terminator c = true ->
  is_ws c = true /\ is_lower c = false.
Proof.
  destruct c as [[] [] [] [] [] [] [] []]; intros H; try discriminate H;
    vm_compute; repeat split.
Qed.

(** After [capitalize_lines] no line starts with a lowercase letter;
    the line that is under way is covered when only white space has been
    read on it. *)
Lemma capitalized_lines (s : string) (at_start : bool) :
  let lines := split newline (capitalize_lines at_start s) in
  (at_start = true -> starts_lower (hd EmptyString lines) = false)
  /\ Forall (fun line => starts_lower line = false) (tl lines).
Proof.
  cbv zeta. revert at_start.
  induction s as [|c s IH]; intros at_start.
  - cbn. split; [reflexivity|constructor].
  - cbn [capitalize_lines].
    destruct (at_start && is_lower c) eqn:H1.
    + apply andb_true_iff in H1 as [_ Hl].
      destruct (upper_of_lower c Hl) as (Hu & Hw & Hn).
      rewrite split_other by exact Hn. cbn [hd tl].
      split; [intros _; rewrite starts_lower_at by exact Hw; exact Hu|].
      apply (IH false).
    + destruct (is_line_terminator c) eqn:H2.
      * destruct (line_terminator_cases c H2) as [Hw _].
        destruct (IH true) as [Hh Ht]. specialize (Hh eq_refl).
        destruct (Ascii.eqb c newline) eqn:Hn.
        -- apply Ascii.eqb_eq in Hn. subst c. rewrite split_separator.
           cbn [hd tl]. split; [reflexivity|].
           destruct (split newline (capitalize_lines true s)) as [|p ps] eqn:E;
             [constructor|].
           constructor; assumption.
        -- rewrite split_other by exact Hn. cbn [hd tl].
           split; [|exact Ht].
           intros _. rewrite starts_lower_after_space by exact Hw. exact Hh.
      * assert (Hn : Ascii.eqb c newline = false).
        { destruct (Ascii.eqb c newline) eqn:E; [|reflexivity].
          apply Ascii.eqb_eq in E. subst c. discriminate H2. }
        rewrite split_other by exact Hn. cbn [hd tl].
        destruct (IH (at_start && is_ws c)) as [Hh Ht].
        split; [|exact Ht].
        intros ->. cbn [andb] in *.
        destruct (is_ws c) eqn:Hw.
        -- rewrite starts_lower_after_space by exact Hw. apply Hh. reflexivity.
        -- rewrite starts_lower_at by exact Hw. exact H1.
Qed.

Lemma raised_refl (s : string) : raised s s.
Proof. induction s; constructor; assumption. Qed.

Lemma capitalize_after_period_raises (s : string) :
  raised s (capitalize_after_period s).
Proof.
  assert (H : forall n s, String.length s <= n ->
                raised s (capitalize_after_period s)).
  { clear s. induction n as [|n IH]; intros s Hn.
    - destruct s; [constructor|simpl in Hn; lia].
    - destruct s as [|c tail]; [constructor|].
      cbn [capitalize_after_period].
      assert (Ht : raised tail (capitalize_after_period tail))
        by (apply IH; simpl in Hn; lia).
      destruct tail as [|sp [|l rest]]; try (constructor; exact Ht).
      destruct (Ascii.eqb c "." && Ascii.eqb sp " " && is_lower l) eqn:E;
        [|constructor; exact Ht].
      apply andb_true_iff in E as [_ Hl].
      constructor. constructor. apply raised_up; [exact Hl|].
      apply IH. simpl in Hn. lia. }
  apply (H (String.length s)). lia.
Qed.

Lemma raised_start (s s' : string) :
  raised s s' -> starts_lower s = false -> starts_lower s' = false.
Proof.
  induction 1 as [|c s s' _ IH|c s s' Hl _ _]; intros H.
  - reflexivity.
  - destruct (is_ws c) eqn:Hw.
    + rewrite starts_lower_after_space in * by exact Hw. apply IH. exact H.
    + rewrite starts_lower_at in * by exact Hw. exact H.
  - destruct (lower_is_no_space c Hl) as [Hw _].
    rewrite starts_lower_at in H by exact Hw. congruence.
Qed.

Lemma raised_split (s s' : string) :
  raised s s' -> Forall2 raised (split newline s) (split newline s').
Proof.
  induction 1 as [|c s s' _ IH|c s s' Hl _ IH].
  - repeat constructor.
  - destruct (Ascii.eqb c newline) eqn:Hn.
    + apply Ascii.eqb_eq in Hn. subst c. rewrite !split_separator.
      constructor; [constructor|exact IH].
    + rewrite !split_other by exact Hn.
      inversion IH as [E1 E2|p p' ps ps' Hp Hps E1 E2].
      * symmetry in E1. destruct (split_not_empty _ _ E1).
      * cbn [hd tl]. constructor; [constructor; exact Hp|exact Hps].
  - destruct (lower_is_no_space c Hl) as [_ Hn].
    destruct (upper_of_lower c Hl) as (_ & _ & Hu).
    rewrite split_other by exact Hn. rewrite split_other by exact Hu.
    inversion IH as [E1 E2|p p' ps ps' Hp Hps E1 E2].
    + symmetry in E1. destruct (split_not_empty _ _ E1).
    + cbn [hd tl]. constructor; [apply raised_up; assumption|exact Hps].
Qed.

(** Property X15.  After [basicProofread] no line of the text begins with a
    lowercase letter: on every line the first character that is not
    white space is something else.  A text that is not empty stays so. *)
Theorem proofread_lines_start_in_capitals (text : string) :
  Forall (fun line => starts_lower line = false)
    (split newline (basicProofread text))
  /\ (text <> EmptyString -> basicProofread text <> EmptyString).
Proof.
  split; [|apply basic_proofread_nonempty].
  unfold basicProofread.
  set (corrected := fold_left _ corrections text).
  pose proof (capitalized_lines corrected true) as [Hh Ht].
  cbv zeta in Hh, Ht. specialize (Hh eq_refl).
  pose proof (raised_split (capitalize_after_period_raises
                              (capitalize_lines true corrected))) as H2.
  assert (Hall : Forall (fun line => starts_lower line = false)
                   (split newline (capitalize_lines true corrected))).
  { destruct (split newline (capitalize_lines true corrected)) as [|p ps];
      [constructor|]. constructor; assumption. }
  clear Hh Ht. induction H2 as [|l l' ls ls' Hr _ IH]; [constructor|].
  inversion Hall; subst. constructor; [|apply IH; assumption].
  eapply raised_start; eassumption.
Qed.
End Proofreading.

(* ------------------------------------------------------------------ *)
(** ** The operations of [AIManagerEnhanced] *)

Section EnhancedOperations.
Import AIManagerEnhanced Observations.

Lemma accounted_more (a b : nat) (m m' : manager) :
  a <= b -> accounted a m m' -> accounted b m m'.
Proof.
  unfold accounted. cbv zeta.
  intros Hab (Hn & Hs & He & Hb & Hrest).
  repeat split; try assumption; try apply Hrest. lia.
Qed.

(** An operation that fails once on the device and then goes on from
    the manager with that error counted. *)
Lemma accounted_after_failure (budget : nat) (m m' : manager) :
  accounted budget (count failed m (session m)) m' ->
  accounted (S budget) m m'.
Proof.
  unfold accounted, enhanced_served, count, failed. cbv zeta.
  cbn [stats builtInCalls geminiCalls fallbackCalls errors caps enabled
       geminiApiKey].
  intros (Hn & Hs & He & Hb & Hrest).
  repeat split; try assumption; try apply Hrest; lia.
Qed.

Lemma accounted_session (budget : nat) (m m' : manager) (s : bool) :
  accounted budget (count (fun u => u) m s) m' -> accounted budget m m'.
Proof. unfold accounted, count. cbn. tauto. Qed.

Lemma accounted_failed_session (budget : nat) (m m' : manager) (s : bool) :
  accounted budget (count failed m s) m' -> accounted (S budget) m m'.
Proof.
  unfold accounted, enhanced_served, count, failed. cbv zeta.
  cbn [stats builtInCalls geminiCalls fallbackCalls errors caps enabled
       geminiApiKey].
  intros (Hn & Hs & He & Hb & Hrest).
  repeat split; try assumption; try apply Hrest; lia.
Qed.

Lemma served_builtin_accounted (name : string) (m : manager) (s : bool) :
  prefix "built-in" name = true ->
  accounted 0 m (count (served 1 0 0 name) m s).
Proof.
  intros Hp. unfold accounted, enhanced_served, count, served. cbv zeta.
  cbn [stats builtInCalls geminiCalls fallbackCalls errors caps enabled
       geminiApiKey lastMethod].
  split.
  - exists name. rewrite Hp.
    assert (Hg : String.eqb name "gemini" = false).
    { destruct (String.eqb name "gemini") eqn:E; [|reflexivity].
      apply String.eqb_eq in E. subst. discriminate. }
    assert (Hf : String.eqb name "fallback" = false).
    { destruct (String.eqb name "fallback") eqn:E; [|reflexivity].
      apply String.eqb_eq in E. subst. discriminate. }
    rewrite Hg, Hf. repeat split; lia.
  - repeat split; lia.
Qed.

Lemma after_builtin_accounted (W : world) (m : manager) (text : string)
    (o : options) :
  accounted 1 m (fst (after_builtin W m text o)).
Proof.
  unfold after_builtin.
  destruct (enabled m && truthy (geminiApiKey m)).
  - destruct (snd (geminiPrompt W m text o)); cbn [fst];
      unfold accounted, enhanced_served, count, served, failed; cbv zeta;
      cbn [stats builtInCalls geminiCalls fallbackCalls errors caps enabled
           geminiApiKey lastMethod];
      (split; [eexists; split; [reflexivity|cbn; repeat split; lia]
              |repeat split; lia]).
  - cbn [fst];
      unfold accounted, enhanced_served, count, served, failed; cbv zeta;
      cbn [stats builtInCalls geminiCalls fallbackCalls errors caps enabled
           geminiApiKey lastMethod];
      (split; [eexists; split; [reflexivity|cbn; repeat split; lia]
              |repeat split; lia]).
Qed.

Lemma prompt_accounted (W : world) (m : manager) (text : string) (o : options) :
  accounted 2 m (fst (prompt W m text o)).
Proof.
  unfold prompt.
  destruct (getPromptSession W m o) as [s [[|]|msg]].
  - destruct (session_prompt W text) as [r|msg].
    + cbn [fst]. apply (@accounted_more 0); [lia|].
      apply served_builtin_accounted. reflexivity.
    + apply accounted_failed_session with (s := s).
      apply after_builtin_accounted.
  - apply (@accounted_more 1); [lia|].
    apply accounted_session with (s := s). apply after_builtin_accounted.
  - apply accounted_failed_session with (s := s).
    apply after_builtin_accounted.
Qed.

Lemma rewrite_accounted (W : world) (D : services) (m : manager)
    (text : string) (o : options) :
  accounted 3 m (fst (rewrite W D m text o)).
Proof.
  unfold rewrite.
  destruct (is_readily (rewriter (caps m))).
  - destruct (rewriter_service D o text).
    + cbn [fst]. apply (@accounted_more 0); [lia|].
      apply served_builtin_accounted. reflexivity.
    + apply accounted_after_failure, prompt_accounted.
  - apply (@accounted_more 2); [lia|]. apply prompt_accounted.
Qed.

(** Property X16.  Every operation of the enhanced manager keeps the books: when
    it returns, exactly one more call is counted as served, under the
    counter named by the new [lastMethod] (a name that starts with
    [built-in], or [gemini], or [fallback]); every failure on the way is
    counted as an error, at most two for the operations that go straight
    to [prompt] and at most three for those that try an object of their
    own first; the capabilities, the hybrid switch and the key are left
    as they were. *)
Theorem enhanced_operations_keep_the_books (W : world) (D : services)
    (m : manager) (text : string) (o : options) :
  accounted 2 m (fst (prompt W m text o))
  /\ accounted 3 m (fst (summarize W D m text o))
  /\ accounted 3 m (fst (write W D m text o))
  /\ accounted 3 m (fst (rewrite W D m text o))
  /\ accounted 3 m (fst (proofread W D m text))
  /\ (forall target source,
        accounted 3 m (fst (translate W D m text target source)))
  /\ (forall n difficulty,
        accounted 2 m (fst (generateQuestions W m text n difficulty)))
  /\ (forall n, accounted 2 m (fst (generateFlashcards W m text n)))
  /\ accounted 2 m (fst (structureNotes W m text))
  /\ accounted 2 m (fst (fst (promptStreaming W D m text o))).
Proof.
  split; [apply prompt_accounted|].
  split.
  { unfold summarize. destruct (is_readily (summarizer (caps m))).
    - destruct (summarizer_service D o text).
      + cbn [fst]. apply (@accounted_more 0); [lia|].
        apply served_builtin_accounted. reflexivity.
      + apply accounted_after_failure, prompt_accounted.
    - apply (@accounted_more 2); [lia|]. apply prompt_accounted. }
  split.
  { unfold write. destruct (is_readily (writer (caps m))).
    - destruct (writer_service D o text).
      + cbn [fst]. apply (@accounted_more 0); [lia|].
        apply served_builtin_accounted. reflexivity.
      + apply accounted_after_failure, prompt_accounted.
    - apply (@accounted_more 2); [lia|]. apply prompt_accounted. }
  split; [apply rewrite_accounted|].
  split; [apply rewrite_accounted|].
  split.
  { intros target source. unfold translate. cbv zeta.
    destruct (truthy (translator (caps m)));
      [|apply (@accounted_more 2); [lia|]; apply prompt_accounted].
    destruct (can_translate D _ target) as [c|msg];
      [|apply accounted_after_failure, prompt_accounted].
    destruct (match c with JStr s => String.eqb s "no" | _ => false end);
      [apply (@accounted_more 2); [lia|]; apply prompt_accounted|].
    destruct (translator_service D _ target text).
    - cbn [fst]. apply (@accounted_more 0); [lia|].
      apply served_builtin_accounted. reflexivity.
    - apply accounted_after_failure, prompt_accounted. }
  split; [intros; apply prompt_accounted|].
  split; [intros; apply prompt_accounted|].
  split; [apply prompt_accounted|].
  unfold promptStreaming.
  destruct (getPromptSession W m o) as [s [[|]|msg]].
  - destruct (stream D text) as [[chunks [err|]]|].
    + pose proof (prompt_accounted W (count (fun u => u) m s) text o) as H.
      destruct (prompt W (count (fun u => u) m s) text o) as [m' r].
      cbn [fst] in *. apply accounted_session with (s := s). exact H.
    + cbn [fst]. apply (@accounted_more 0); [lia|].
      apply served_builtin_accounted. reflexivity.
    + pose proof (prompt_accounted W (count (fun u => u) m s) text o) as H.
      destruct (prompt W (count (fun u => u) m s) text o) as [m' r].
      cbn [fst] in *. apply accounted_session with (s := s). exact H.
  - pose proof (prompt_accounted W (count (fun u => u) m s) text o) as H.
    destruct (prompt W (count (fun u => u) m s) text o) as [m' r].
    cbn [fst] in *. apply accounted_session with (s := s). exact H.
  - pose proof (prompt_accounted W (count (fun u => u) m s) text o) as H.
    destruct (prompt W (count (fun u => u) m s) text o) as [m' r].
    cbn [fst] in *. apply accounted_session with (s := s). exact H.
Qed.

Lemma session_ignores_network (W : world) (net' : network) (m : manager)
    (o : options) :
  getPromptSession (with_network W net') m o = getPromptSession W m o.
Proof. reflexivity. Qed.

Lemma after_builtin_without_gemini (W : world) (m : manager) (text : string)
    (o : options) :
  enabled m && truthy (geminiApiKey m) = false ->
  after_builtin W m text o
  = (count (served 0 0 1 "fallback") m (session m), JStr (basicPrompt text)).
Proof. intros H. unfold after_builtin. rewrite H. reflexivity. Qed.

Lemma prompt_ignores_network (W : world) (net' : network) (m : manager)
    (text : string) (o : options) :
  enabled m && truthy (geminiApiKey m) = false ->
  prompt (with_network W net') m text o = prompt W m text o.
Proof.
  intros H. unfold prompt. rewrite session_ignores_network.
  destruct (getPromptSession W m o) as [s [[|]|msg]];
    cbn [with_network session_prompt];
    try destruct (session_prompt W text); try reflexivity;
    rewrite !after_builtin_without_gemini by exact H; reflexivity.
Qed.

(** Property X17.  With hybrid mode switched off, or without a key, the enhanced
    manager does not depend on the network: every operation gives the
    same result and the same manager whatever the network would answer.
    When in addition the Prompt API is not ready, [prompt] returns the
    basic response, counted as a fallback call; the error that
    [getPromptSession] raises with hybrid mode off is swallowed and
    counted, and with hybrid mode on no error is counted at all. *)
Theorem enhanced_without_gemini_is_offline (W : world) (D : services)
    (net' : network) (m : manager) (text : string) (o : options) :
  enabled m && truthy (geminiApiKey m) = false ->
  let W' := with_network W net' in
  (prompt W' m text o = prompt W m text o
   /\ summarize W' D m text o = summarize W D m text o
   /\ write W' D m text o = write W D m text o
   /\ rewrite W' D m text o = rewrite W D m text o
   /\ proofread W' D m text = proofread W D m text
   /\ (forall target source,
         translate W' D m text target source
         = translate W D m text target source)
   /\ (forall n difficulty,
         generateQuestions W' m text n difficulty
         = generateQuestions W m text n difficulty)
   /\ (forall n, generateFlashcards W' m text n = generateFlashcards W m text n)
   /\ structureNotes W' m text = structureNotes W m text)
  /\ (is_readily (prompt_cap (caps m)) = false ->
      let '(m', answer) := prompt W m text o in
      answer = JStr (basicPrompt text)
      /\ lastMethod (stats m') = Some "fallback"
      /\ fallbackCalls (stats m') = S (fallbackCalls (stats m))
      /\ errors (stats m')
         = errors (stats m) + (if enabled m then 0 else 1)).
Proof.
  intros H. cbv zeta. split.
  - assert (Hf : forall t o', prompt (with_network W net')
                                (count failed m (session m)) t o'
                              = prompt W (count failed m (session m)) t o').
    { intros. apply prompt_ignores_network. exact H. }
    assert (Hp : forall t o', prompt (with_network W net') m t o'
                              = prompt W m t o').
    { intros. apply prompt_ignores_network. exact H. }
    unfold proofread, summarize, write, rewrite, translate, generateQuestions,
      generateFlashcards, structureNotes. cbv zeta.
    rewrite !Hp, !Hf.
    repeat split; try reflexivity.
    + intros. rewrite !Hp, !Hf. reflexivity.
    + intros. rewrite !Hp. reflexivity.
    + intros. rewrite !Hp. reflexivity.
  - intros Hr. unfold prompt, getPromptSession.
    unfold is_readily in Hr. rewrite Hr.
    rewrite orb_true_r.
    destruct (enabled m) eqn:He;
      rewrite after_builtin_without_gemini;
      cbn [count enabled geminiApiKey]; try (rewrite ?He; exact H);
      cbn; repeat split; lia.
Qed.

(** A manager as the constructor leaves it has no key: the network does
    not count, and its answer is the basic response. *)
Lemma enhanced_offline_witness :
  prompt (with_network (Scenario.enhanced_world payload_empty)
            (fun _ _ => Rejected "Failed to fetch")) fresh "Hello" Options.none
  = prompt (Scenario.enhanced_world payload_empty) fresh "Hello" Options.none.
Proof.
  exact (proj1 (proj1 (@enhanced_without_gemini_is_offline
                         (Scenario.enhanced_world payload_empty)
                         {| summarizer_service := fun _ _ => Throw "no summarizer";
                            writer_service := fun _ _ => Throw "no writer";
                            rewriter_service := fun _ _ => Throw "no rewriter";
                            can_translate := fun _ _ => Throw "no translation";
                            translator_service := fun _ _ _ => Throw "no translation";
                            stream := fun _ => None;
                            destroy := Ok tt |}
                         (fun _ _ => Rejected "Failed to fetch")
                         fresh "Hello" Options.none eq_refl))).
Defined.

Lemma after_builtin_keeps_session (W : world) (m : manager) (text : string)
    (o : options) :
  session (fst (after_builtin W m text o)) = session m
  /\ lastMethod (stats (fst (after_builtin W m text o))) <> Some "built-in".
Proof.
  unfold after_builtin.
  destruct (enabled m && truthy (geminiApiKey m));
    [destruct (snd (geminiPrompt W m text o))|];
    split; try reflexivity; discriminate.
Qed.

Lemma session_after_request (W : world) (m : manager) (o : options) :
  let '(s, r) := getPromptSession W m o in
  (session m = true -> s = true) /\ (r = Ok true -> s = true).
Proof.
  unfold getPromptSession.
  destruct (negb (truthy (prompt_cap (caps m))) || _).
  - split; [tauto|]. destruct (enabled m); discriminate.
  - destruct (negb (session m) || Options.forceNew o).
    + destruct (create_session W o).
      * split; reflexivity.
      * split; [tauto|]. destruct (enabled m); discriminate.
    + split; reflexivity.
Qed.

(** Property X18.  The session of the Prompt API is cached and never dropped by
    [prompt]: a manager that holds a session still holds one afterwards,
    also when the session has just failed to answer, and an answer of
    the built-in model leaves a session behind.  While a session is held
    and no new one is forced, [prompt] creates none: it gives the same
    result whatever creating a session would do.  Only [cleanup] lets go
    of the session, and only when [destroy] does not throw. *)
Theorem session_is_kept_and_reused (W : world) (D : services)
    (create' : options -> res unit) (m : manager) (text : string) (o : options) :
  let m' := fst (prompt W m text o) in
  (session m = true -> session m' = true)
  /\ (lastMethod (stats m') = Some "built-in" -> session m' = true)
  /\ (session m = true -> Options.forceNew o = false ->
      prompt (with_create W create') m text o = prompt W m text o)
  /\ (session (cleanup D m) = true
      <-> session m = true /\ exists msg, destroy D = Throw msg).
Proof.
  cbv zeta.
  pose proof (session_after_request W m o) as Hs.
  split; [|split; [|split]].
  - intros Hm. unfold prompt.
    destruct (getPromptSession W m o) as [s r]. destruct Hs as [Hs _].
    specialize (Hs Hm). subst s.
    destruct r as [[|]|msg];
      [destruct (session_prompt W text); [reflexivity|]| |];
      rewrite (proj1 (after_builtin_keeps_session _ _ _ _)); reflexivity.
  - unfold prompt.
    destruct (getPromptSession W m o) as [s r]. destruct Hs as [_ Hs].
    destruct r as [[|]|msg];
      [destruct (session_prompt W text);
       [intros _; cbn; apply Hs; reflexivity|]| |];
      intros H; destruct (proj2 (after_builtin_keeps_session _ _ _ _) H).
  - intros Hm Hf. unfold prompt, getPromptSession.
    rewrite Hm, Hf. cbn [negb orb].
    destruct (negb (truthy (prompt_cap (caps m))) || _); reflexivity.
  - unfold cleanup. destruct (session m) eqn:Hm.
    + destruct (destroy D) as [[]|msg]; cbn [session].
      * split; [discriminate|]. intros [_ [msg H]]. discriminate.
      * rewrite Hm. split; [|reflexivity]. intros _. split; [reflexivity|].
        exists msg. reflexivity.
    + rewrite Hm. split; [discriminate|]. intros [H _]. discriminate.
Qed.

Lemma last_default {A} (l : list A) (d d' : A) :
  l <> [] -> last l d = last l d'.
Proof.
  induction l as [|x l IH]; [contradiction|]. intros _.
  destruct l as [|y l]; [reflexivity|].
  change (last (y :: l) d = last (y :: l) d'). apply IH. discriminate.
Qed.

(** Property X19.  What the callback of [promptStreaming] has seen agrees with
    what the call returns: the last chunk handed to the callback is the
    returned value, whether the stream went through or the request fell
    back to [prompt] after some chunks.  The callback sees nothing only
    when the stream of the built-in model ends without a chunk, and the
    returned value is then the empty string. *)
Theorem streaming_ends_with_the_result (W : world) (D : services)
    (m : manager) (text : string) (o : options) :
  let '(m', chunks, result) := promptStreaming W D m text o in
  (chunks <> [] -> last chunks JUndefined = result)
  /\ (chunks = [] ->
      result = JStr EmptyString
      /\ lastMethod (stats m') = Some "built-in-streaming").
Proof.
  unfold promptStreaming.
  assert (Hf : forall m0 seen,
            let '(m', chunks, result) :=
              (let '(m', result) := prompt W m0 text o in
               (m', (seen ++ [result])%list, result)) in
            (chunks <> [] -> last chunks JUndefined = result)
            /\ (chunks = [] ->
                result = JStr EmptyString
                /\ lastMethod (stats m') = Some "built-in-streaming")).
  { intros m0 seen. destruct (prompt W m0 text o) as [m' r]. split.
    - intros _. apply last_last.
    - intros H. destruct seen; discriminate. }
  destruct (getPromptSession W m o) as [s [[|]|msg]]; try apply Hf.
  destruct (stream D text) as [[chunks [err|]]|]; try apply Hf.
  split.
  - intros H. apply last_default. exact H.
  - intros ->. split; reflexivity.
Qed.

Lemma prompt_without_backends (W : world) (m : manager) (text : string)
    (o : options) :
  is_readily (prompt_cap (caps m)) = false ->
  enabled m && truthy (geminiApiKey m) = false ->
  snd (prompt W m text o) = JStr (basicPrompt text)
  /\ lastMethod (stats (fst (prompt W m text o))) = Some "fallback".
Proof.
  intros Hr H. unfold prompt, getPromptSession.
  unfold is_readily in Hr. rewrite Hr, orb_true_r.
  destruct (enabled m) eqn:He;
    rewrite after_builtin_without_gemini;
    cbn [count enabled geminiApiKey]; try (rewrite ?He; exact H);
    split; reflexivity.
Qed.

(** Property X20.  The recommendation of [getStatus] looks at the key and not at
    the hybrid switch.  For a manager without a ready built-in model:
    without a key it reads [Limited], and [prompt] gives the basic
    response; with a key and hybrid mode switched off it reads [Good:
    Using Gemini API fallback], and [prompt] still gives the basic
    response, counted as a fallback call, whatever the cloud would
    answer. *)
Theorem recommendation_overlooks_the_hybrid_switch (W : world) (m : manager)
    (text : string) (o : options) :
  isBuiltInAvailable m = false ->
  (truthy (geminiApiKey m) = false ->
   recommendation (getStatus m)
   = "Limited: Using basic fallback, please configure Gemini API or enable Chrome AI"
   /\ snd (prompt W m text o) = JStr (basicPrompt text))
  /\ (truthy (geminiApiKey m) = true -> enabled m = false ->
      recommendation (getStatus m)
      = "Good: Using Gemini API fallback, Chrome AI not available"
      /\ geminiConfigured (getStatus m) = true
      /\ snd (prompt W m text o) = JStr (basicPrompt text)
      /\ lastMethod (stats (fst (prompt W m text o))) = Some "fallback").
Proof.
  intros Hb.
  assert (Hr : is_readily (prompt_cap (caps m)) = false).
  { unfold isBuiltInAvailable in Hb.
    destruct (is_readily (prompt_cap (caps m))); [discriminate|reflexivity]. }
  unfold getStatus, getRecommendation. cbn [recommendation geminiConfigured].
  rewrite Hb. cbn [andb]. split.
  - intros Hk. rewrite Hk. split; [reflexivity|].
    apply prompt_without_backends; [exact Hr|].
    rewrite Hk. apply andb_false_r.
  - intros Hk He. rewrite Hk. split; [reflexivity|]. split; [reflexivity|].
    apply prompt_without_backends; [exact Hr|]. rewrite He. reflexivity.
Qed.

Lemma recommendation_witness :
  recommendation
    (getStatus (fst (setHybridMode (Ok tt) Scenario.enhanced_with_key false)))
  = "Good: Using Gemini API fallback, Chrome AI not available"
  /\ snd (prompt (Scenario.enhanced_world (payload_text "A summary."))
            (fst (setHybridMode (Ok tt) Scenario.enhanced_with_key false))
            "Hello" Options.none)
     = JStr (basicPrompt "Hello").
Proof.
  destruct (proj2 (@recommendation_overlooks_the_hybrid_switch
                     (Scenario.enhanced_world (payload_text "A summary."))
                     (fst (setHybridMode (Ok tt) Scenario.enhanced_with_key false))
                     "Hello" Options.none eq_refl) eq_refl eq_refl)
    as (H1 & _ & H2 & _).
  split; [exact H1|exact H2].
Defined.

Lemma store_cases (stored : res value) :
  unreadable stored
  \/ exists storage, stored = Ok storage /\ storage <> JNull
                     /\ storage <> JUndefined
                     /\ get storage "geminiApiKey"
                        = Ok (prop_of storage "geminiApiKey").
Proof.
  destruct stored as [storage|msg]; [|left; left; exists msg; reflexivity].
  destruct storage; try (left; right; auto; fail);
    right; eexists; (split; [reflexivity|]);
    repeat split; discriminate.
Qed.

(** Property X21.  What [initialize] of the enhanced manager reads from the
    store.  When the store can be read, the key is the stored one and
    hybrid mode is off exactly when the stored [hybridMode] is the
    boolean false: any other value, and no value, leave it on.  When the
    store cannot be read the key and the switch stay as they were.  The
    capabilities are the checked ones, the counters and the session are
    untouched, and the status returned is the status of the manager
    afterwards. *)
Theorem initialization_reads_the_store (G : globals) (stored : res value)
    (m : manager) :
  let '(m', s) := initialize G stored m in
  (forall key, stored_under stored "geminiApiKey" key ->
     geminiApiKey m' = key
     /\ geminiConfigured s = truthy key
     /\ (enabled m' = false <-> stored_under stored "hybridMode" (JBool false)))
  /\ (unreadable stored ->
      geminiApiKey m' = geminiApiKey m /\ enabled m' = enabled m)
  /\ caps m' = checkCapabilities G (caps m)
  /\ stats m' = stats m /\ session m' = session m
  /\ s = getStatus m'.
Proof.
  unfold initialize. cbv zeta. unfold loadGeminiConfig.
  destruct (store_cases stored) as [Hu|(storage & -> & Hn & Hu & Hg)].
  - assert (Hm : forall key name, ~ stored_under stored name key).
    { intros key name (storage & E & Hn & Hu' & _).
      destruct Hu as [[msg ->] | [-> | ->]]; inversion E; subst; contradiction. }
    destruct Hu as [[msg ->] | [-> | ->]]; cbn;
      (split; [intros key H; destruct (Hm _ _ H)|]);
      repeat split; reflexivity.
  - rewrite Hg. cbn [caps session stats geminiApiKey enabled].
    split.
    + intros key (storage' & E & _ & _ & Hkey). inversion E; subst storage'.
      split; [exact Hkey|]. split.
      * cbn [getStatus geminiConfigured geminiApiKey]. rewrite Hkey. reflexivity.
      * split.
        -- intros H. exists storage. repeat split; try assumption.
           destruct (prop_of storage "hybridMode") as [| |[|]| | | |];
             try discriminate; reflexivity.
        -- intros (storage' & E' & _ & _ & Hh). inversion E'; subst storage'.
           rewrite Hh. reflexivity.
    + split.
      * intros [[msg H]|[H|H]]; inversion H; subst; contradiction.
      * repeat split; reflexivity.
Qed.
End EnhancedOperations.

(* ------------------------------------------------------------------ *)
(** ** [AIManager]: Gemini answers, keys and images *)

Section GeminiAnswers.
Import AIManager Observations.

(** Property X22.  Whatever the cloud sends, [AIManager.geminiPrompt] returns
    nothing but a string that is not empty: a value comes back only for
    a response with the [ok] flag and a JSON body, and it is the text
    found in that body at [candidates[0].content.parts[0].text] or at
    [candidates[0].output]. *)
Theorem gemini_answers_are_nonempty_strings (E : engine) (net : network)
    (cfg : geminiConfig) (text : string) (o : options) (v : value) :
  geminiPrompt E net cfg text o = Ok v ->
  exists s r data,
    v = JStr s /\ s <> EmptyString
    /\ net (url cfg) (generateContent (Some (prompt_text text o)) o) = Resolved r
    /\ ok r = true /\ json r = Ok data
    /\ (path_text data = v \/ path_output data = v).
Proof.
  unfold geminiPrompt.
  destruct (net (url cfg) _) as [msg|r]; [discriminate|].
  destruct (json r) as [data|msg] eqn:J; [|discriminate]. cbn [bind].
  destruct (ok r) eqn:K.
  - intros H. destruct (extract_returns_nonempty_string E data H)
      as (s & Hv & Hs & Hp).
    exists s, r, data. repeat split; assumption.
  - destruct (get data "error"); discriminate.
Qed.

Lemma gemini_answer_witness :
  exists s r data,
    JStr "Hi" = JStr s /\ s <> EmptyString
    /\ (fun _ _ => ok_response (payload_output "Hi"))
         (url gemini_config)
         (generateContent (Some (prompt_text "Hello?" Options.none)) Options.none)
       = Resolved r
    /\ ok r = true /\ json r = Ok data
    /\ (path_text data = JStr "Hi" \/ path_output data = JStr "Hi").
Proof.
  exact (@gemini_answers_are_nonempty_strings sample_engine
           (fun _ _ => ok_response (payload_output "Hi"))
           gemini_config "Hello?" Options.none (JStr "Hi") eq_refl).
Defined.

Lemma extract_image_returns_text (E : engine) (data candidates v : value) :
  get data "candidates" = Ok candidates ->
  extract_image E candidates = Ok v ->
  exists s, v = JStr s /\ s <> EmptyString /\ path_text data = v.
Proof.
  intros H1 H. unfold extract_image in H.
  destruct (get candidates "0") as [candidate|] eqn:H2; [|discriminate].
  cbn [bind] in H.
  apply get_ok in H1. apply get_ok in H2.
  unfold path_text, first_candidate. rewrite H1, H2.
  destruct (gt_zero E _); [|discriminate].
  destruct (get candidate "content") as [content|] eqn:H3; [|discriminate].
  cbn [bind] in H.
  destruct (get content "parts") as [parts|] eqn:H4; [|discriminate].
  cbn [bind] in H.
  destruct (get parts "0") as [part|] eqn:H5; [|discriminate].
  cbn [bind] in H.
  destruct (get part "text") as [text|] eqn:H6; [|discriminate].
  cbn [bind] in H.
  apply get_ok in H3. apply get_ok in H4.
  apply get_ok in H5. apply get_ok in H6.
  rewrite H3, H4, H5, H6.
  destruct (truthy text) eqn:T; [|discriminate].
  destruct text as [| |b|q|s|l|props]; try discriminate.
  cbn [bind] in H. inversion H. exists s.
  split; [reflexivity|]. split; [apply truthy_string; exact T|reflexivity].
Qed.

(** Property X23.  [promptWithImage] sends nothing without a key: when the
    configuration has none and the user gives none, it throws before any
    request.  When it returns a value, a key was there for the request,
    the response had the [ok] flag, and the value is the text at
    [candidates[0].content.parts[0].text], a string that is not empty;
    the key of the configuration is the one it had, or the one the user
    gave when it had none. *)
Theorem image_prompt_needs_a_key_and_returns_text (W : world)
    (inet : image_network) (cfg : geminiConfig) (text : string)
    (image : imageData) (o : options) :
  let '(cfg', answer) := promptWithImage W inet cfg text image o in
  (has_key cfg = true -> cfg' = cfg)
  /\ (has_key cfg = false -> cfg' = promptForApiKey W cfg)
  /\ (has_key cfg' = false -> answer = Throw no_multimodal)
  /\ (forall v, answer = Ok v ->
        has_key cfg' = true
        /\ exists s r data body,
             v = JStr s /\ s <> EmptyString
             /\ inet (url cfg') body = Resolved r
             /\ image_text body = text
             /\ ok r = true /\ json r = Ok data /\ path_text data = v).
Proof.
  unfold promptWithImage. cbv zeta.
  set (cfg' := if has_key cfg then cfg else promptForApiKey W cfg).
  assert (H1 : has_key cfg = true -> cfg' = cfg)
    by (unfold cfg'; intros ->; reflexivity).
  assert (H2 : has_key cfg = false -> cfg' = promptForApiKey W cfg)
    by (unfold cfg'; intros ->; reflexivity).
  destruct (has_key cfg') eqn:K; cbn [negb].
  - split; [exact H1|]. split; [exact H2|]. split; [congruence|].
    intros v.
    match goal with
    | |- context [inet ?u ?b] => set (body := b); destruct (inet u body) as [msg|r] eqn:N
    end; [discriminate|].
    destruct (json r) as [data|msg] eqn:J; [|discriminate]. cbn [bind].
    destruct (ok r) eqn:Hok.
    + destruct (get data "candidates") as [candidates|msg] eqn:C; [|discriminate].
      cbn [bind].
      destruct (gt_zero (eng W) (get_opt candidates "length")).
      * intros H. split; [exact K|].
        destruct (extract_image_returns_text (eng W) data C H) as (s & Hv & Hs & Hp).
        exists s, r, data, body. repeat split; assumption.
      * destruct (get data "error"); discriminate.
    + destruct (get data "error"); discriminate.
  - split; [exact H1|]. split; [exact H2|]. split; [reflexivity|].
    intros v H. discriminate.
Qed.

(** Property X24.  [AIManager.prompt] and the key.  A configuration with a key
    is never changed and the user is not asked.  Without a key, and when
    the user gives none, nothing is sent to the cloud: the caller gets
    what Chrome AI answers, its error included, or the error that asks
    for a key when Chrome AI is not the method.  A key that the user
    gives when asked is kept in the configuration and used for the
    request at once. *)
Theorem prompt_asks_for_a_key_only_when_needed (W : world)
    (currentMethod : string) (cfg : geminiConfig) (text : string)
    (o : options) :
  (has_key cfg = true ->
   fst (prompt W currentMethod cfg text o) = cfg)
  /\ (has_key cfg = false -> has_key (promptForApiKey W cfg) = false ->
      snd (prompt W currentMethod cfg text o)
      = (if String.eqb currentMethod "chrome-ai" then chrome W text o
         else Throw no_key)
      /\ forall net',
           prompt (with_cloud W net') currentMethod cfg text o
           = prompt W currentMethod cfg text o)
  /\ (forall key,
        has_key cfg = false -> supplied W = Some key -> key <> EmptyString ->
        (forall answer, chrome W text o <> Ok answer
                        \/ String.eqb currentMethod "chrome-ai" = false) ->
        let cfg' := {| apiKey := Some key; endpoint := endpoint cfg |} in
        prompt W currentMethod cfg text o
        = (cfg', geminiPrompt (eng W) (net W) cfg' text o)).
Proof.
  split; [|split].
  - intros Hk. unfold prompt, gemini_or. rewrite Hk.
    destruct (String.eqb currentMethod "chrome-ai"); [|reflexivity].
    destruct (chrome W text o); reflexivity.
  - intros Hk Hn.
    assert (Hw : forall net', promptForApiKey (with_cloud W net') cfg
                              = promptForApiKey W cfg) by reflexivity.
    split.
    + unfold prompt, gemini_or. rewrite Hk, Hn.
      destruct (String.eqb currentMethod "chrome-ai"); [|reflexivity].
      destruct (chrome W text o); reflexivity.
    + intros net'. unfold prompt, gemini_or. rewrite Hk, Hw, Hn.
      reflexivity.
  - intros key Hk Hs Hne Hc. cbv zeta.
    assert (Hp : promptForApiKey W cfg
                 = {| apiKey := Some key; endpoint := endpoint cfg |}).
    { unfold promptForApiKey. rewrite Hs.
      destruct key; [contradiction|reflexivity]. }
    assert (Hk' : has_key {| apiKey := Some key; endpoint := endpoint cfg |} = true).
    { unfold has_key. cbn. destruct key; [contradiction|reflexivity]. }
    unfold prompt, gemini_or. rewrite Hk, Hp, Hk'.
    destruct (String.eqb currentMethod "chrome-ai") eqn:Em; [|reflexivity].
    destruct (chrome W text o) as [answer|error]; [|reflexivity].
    destruct (Hc answer) as [H|H]; [contradiction|discriminate].
Qed.

Lemma before_semicolon_of_type (mime params : string) :
  has_char ";" mime = false ->
  params = EmptyString \/ (exists p, params = String ";" p) ->
  before_semicolon (mime ++ params) = mime.
Proof.
  intros Hm Hp. induction mime as [|c mime IH].
  - destruct Hp as [->|[p ->]]; reflexivity.
  - cbn [has_char] in Hm. apply orb_false_iff in Hm as [Hc Hm].
    cbn [append before_semicolon]. rewrite Hc, (IH Hm). reflexivity.
Qed.

Lemma data_match_none (s : string) :
  includes "data:" s = false -> data_match s = None.
Proof.
  induction s as [|c s IH]; [reflexivity|].
  cbn [includes data_match]. intros H.
  apply orb_false_iff in H as [Hp Hs]. rewrite Hp. apply IH. exact Hs.
Qed.

Lemma data_url_starts_with_data (mime params payload : string) :
  prefix "data:" (data_url mime params payload) = true.
Proof.
  destruct mime; [destruct params|]; reflexivity.
Qed.

Lemma data_url_split (mime params payload : string) :
  has_char "," (mime ++ params) = false ->
  has_char "," payload = false ->
  split "," (data_url mime params payload)
  = [("data:" ++ mime ++ params)%string; payload].
Proof.
  intros H Hpay. unfold data_url.
  replace ("data:" ++ mime ++ params ++ "," ++ payload)%string
    with (("data:" ++ mime ++ params) ++ String "," payload)%string.
  - rewrite split_app.
    + rewrite (@split_without_separator "," payload Hpay). reflexivity.
    + change (has_char "," ("data:" ++ mime ++ params))
        with (has_char "," (mime ++ params)). exact H.
  - cbn [append]. rewrite !app_assoc_str. reflexivity.
Qed.

Lemma media_type_found (mime params : string) :
  mime <> EmptyString ->
  has_char ";" mime = false ->
  params = EmptyString \/ (exists p, params = String ";" p) ->
  data_match ("data:" ++ mime ++ params) = Some mime.
Proof.
  intros Hne Hm Hp.
  pose proof (@before_semicolon_of_type mime params Hm Hp) as Hb.
  destruct mime as [|c mime']; [contradiction|].
  change (data_match ("data:" ++ String c mime' ++ params))
    with (if is_empty (before_semicolon (String c mime' ++ params))
          then data_match ("ata:" ++ String c mime' ++ params)%string
          else Some (before_semicolon (String c mime' ++ params))).
  rewrite Hb. reflexivity.
Qed.

Lemma media_type_missing (params : string) :
  params = EmptyString \/ (exists p, params = String ";" p) ->
  includes "data:" params = false ->
  data_match ("data:" ++ params) = None.
Proof.
  intros Hp Hd. pose proof (@data_match_none params Hd) as Hn.
  destruct Hp as [->|[p ->]]; [reflexivity|]. exact Hn.
Qed.

(** Property X25.  [processImage] takes a [data:] URL apart without loss: for a
    media type that is not empty and holds no semicolon, a header free
    of commas and a payload free of commas, the result carries exactly
    that media type and that payload, whatever the parameters between
    them.  The same URL without its media type is refused with the
    TypeError of reading the match that failed, unless its parameters
    hold [data:] themselves. *)
Theorem data_url_is_taken_apart (fetched_image : string -> res imageData)
    (mime params payload : string) :
  mime <> EmptyString ->
  has_char ";" mime = false ->
  params = EmptyString \/ (exists p, params = String ";" p) ->
  has_char "," (mime ++ params) = false ->
  has_char "," payload = false ->
  processImage fetched_image (data_url mime params payload)
  = Ok {| base64 := JStr payload; mimeType := JStr mime |}
  /\ (includes "data:" params = false ->
      processImage fetched_image (data_url EmptyString params payload)
      = Throw "Cannot read properties of null (reading '1')").
Proof.
  intros Hne Hm Hp Hc Hpay. split.
  - unfold processImage.
    rewrite data_url_starts_with_data, (@data_url_split mime params payload Hc Hpay).
    cbn [hd tl]. rewrite (@media_type_found mime params Hne Hm Hp). reflexivity.
  - intros Hd. unfold processImage.
    rewrite data_url_starts_with_data, data_url_split.
    + cbn [hd tl append].
      pose proof (@media_type_missing params Hp Hd) as Hn. cbn [append] in Hn.
      rewrite Hn. reflexivity.
    + rewrite has_char_app in Hc. apply orb_false_iff in Hc. apply Hc.
    + exact Hpay.
Qed.

Lemma data_url_witness :
  processImage (fun _ => Throw "Failed to fetch")
    "data:image/png;base64,iVBORw0KGgo="
  = Ok {| base64 := JStr "iVBORw0KGgo="; mimeType := JStr "image/png" |}.
Proof.
  refine (proj1 (@data_url_is_taken_apart (fun _ => Throw "Failed to fetch")
                   "image/png" ";base64" "iVBORw0KGgo=" _ eq_refl _ eq_refl
                   eq_refl)).
  - discriminate.
  - right. exists "base64". reflexivity.
Defined.

(** Property X26.  [analyzeImage] on a [data:] URL and a configuration with a
    key makes one request and nothing else: the request carries the
    question (the default one when none is given), the media type and
    the payload of the URL, and the default generation settings; the
    result depends on the network through the answer to that request
    only, the configuration is unchanged, and a rejected request is the
    error of the call.  A [data:] URL without a media type is refused
    before the key is looked at: no request is made and nobody is asked
    for a key. *)
Theorem image_analysis_sends_the_image_once (W : world)
    (inet inet' : image_network) (fetched_image : string -> res imageData)
    (cfg : geminiConfig) (mime params payload : string)
    (question : option string) :
  mime <> EmptyString ->
  has_char ";" mime = false ->
  params = EmptyString \/ (exists p, params = String ";" p) ->
  has_char "," (mime ++ params) = false ->
  has_char "," payload = false ->
  let request :=
    {| image_text := match question with
                     | Some q => q
                     | None => "What is in this image?"
                     end;
       inline_mime_type := JStr mime;
       inline_data := JStr payload;
       image_temperature := 7 # 10;
       image_maxOutputTokens := 1024 |} in
  let analyze net := analyzeImage W net fetched_image cfg
                       (data_url mime params payload) question in
  (has_key cfg = true ->
   fst (analyze inet) = cfg
   /\ (inet (url cfg) request = inet' (url cfg) request ->
       analyze inet = analyze inet')
   /\ (forall reason, inet (url cfg) request = Rejected reason ->
         snd (analyze inet) = Throw reason))
  /\ (includes "data:" params = false ->
      analyzeImage W inet fetched_image cfg
        (data_url EmptyString params payload) question
      = (cfg, Throw "Cannot read properties of null (reading '1')")).
Proof.
  intros Hne Hm Hp Hc Hpay. cbv zeta. split.
  - intros Hk.
    assert (Hi : processImage fetched_image (data_url mime params payload)
                 = Ok {| base64 := JStr payload; mimeType := JStr mime |}).
    { unfold processImage.
      rewrite data_url_starts_with_data, (@data_url_split mime params payload Hc Hpay).
      cbn [hd tl]. rewrite (@media_type_found mime params Hne Hm Hp). reflexivity. }
    assert (Ht : js_or (JStr mime) (JStr "image/jpeg") = JStr mime).
    { destruct mime; [contradiction|reflexivity]. }
    unfold analyzeImage. rewrite Hi.
    unfold promptWithImage. cbv zeta. rewrite Hk. cbn iota. rewrite Hk.
    cbn [negb].
    cbn [mimeType base64 Options.temperature Options.maxTokens Options.none
         or_Q or_nat fst snd].
    rewrite Ht.
    split; [reflexivity|]. split.
    + intros ->. reflexivity.
    + intros reason ->. reflexivity.
  - intros Hd. unfold analyzeImage, processImage.
    rewrite data_url_starts_with_data, data_url_split.
    + cbn [hd tl append].
      pose proof (@media_type_missing params Hp Hd) as Hn. cbn [append] in Hn.
      rewrite Hn. reflexivity.
    + rewrite has_char_app in Hc. apply orb_false_iff in Hc. apply Hc.
    + exact Hpay.
Qed.

Lemma image_analysis_witness :
  fst (analyzeImage
         {| eng := sample_engine; net := fun _ _ => Rejected "Failed to fetch";
            chrome := fun _ _ => Throw "Prompt API is not available.";
            supplied := None |}
         (fun _ _ => Rejected "Failed to fetch")
         (fun _ => Throw "Failed to fetch") gemini_config
         (data_url "image/png" ";base64" "iVBORw0KGgo=") None)
  = gemini_config.
Proof.
  refine (proj1 (proj1 (@image_analysis_sends_the_image_once
                          {| eng := sample_engine;
                             net := fun _ _ => Rejected "Failed to fetch";
                             chrome := fun _ _ => Throw "Prompt API is not available.";
                             supplied := None |}
                          (fun _ _ => Rejected "Failed to fetch")
                          (fun _ _ => Rejected "Failed to fetch")
                          (fun _ => Throw "Failed to fetch") gemini_config
                          "image/png" ";base64" "iVBORw0KGgo=" None
                          _ eq_refl _ eq_refl eq_refl) eq_refl)).
  - discriminate.
  - right. exists "base64". reflexivity.
Defined.

(** Property X27.  A key given through [setGeminiApiKey] settles the method.
    For a key that is not empty the configuration holds it afterwards,
    with the endpoint it had, whether or not the store accepted it.
    When the store accepted it the method is [chrome-ai] if the Prompt
    API is readily available and [gemini-api] otherwise, never [none];
    when the store threw, the method is left as it was.  In both cases a
    later [prompt] keeps the configuration and never asks the user for a
    key: it gives the same result whatever the user would answer. *)
Theorem key_settles_the_method (W : world) (stored : res unit)
    (prompt_cap : value) (currentMethod : string) (cfg : geminiConfig)
    (key text : string) (o : options) (answer : option string) :
  key <> EmptyString ->
  let '(cfg', method', outcome) :=
    setGeminiApiKey stored prompt_cap currentMethod cfg key in
  apiKey cfg' = Some key /\ endpoint cfg' = endpoint cfg
  /\ outcome = stored
  /\ (stored = Ok tt ->
      (method' = "chrome-ai" \/ method' = "gemini-api")
      /\ method' = determineMethod prompt_cap cfg')
  /\ (forall msg, stored = Throw msg -> method' = currentMethod)
  /\ fst (prompt W method' cfg' text o) = cfg'
  /\ prompt (with_supplied W answer) method' cfg' text o
     = prompt W method' cfg' text o.
Proof.
  intros Hne. unfold setGeminiApiKey. cbv zeta.
  set (cfg' := {| apiKey := Some key; endpoint := endpoint cfg |}).
  assert (Hk : has_key cfg' = true).
  { unfold has_key. cbn. destruct key; [contradiction|reflexivity]. }
  assert (Hp : forall method,
            fst (prompt W method cfg' text o) = cfg'
            /\ prompt (with_supplied W answer) method cfg' text o
               = prompt W method cfg' text o).
  { intros method. unfold prompt, gemini_or. rewrite Hk.
    cbn [with_supplied chrome eng net].
    destruct (String.eqb method "chrome-ai"); [|split; reflexivity].
    destruct (chrome W text o); split; reflexivity. }
  destruct stored as [[]|msg].
  - split; [reflexivity|]. split; [reflexivity|]. split; [reflexivity|].
    split.
    + intros _. split; [|reflexivity].
      unfold determineMethod. rewrite Hk.
      destruct (match get_opt prompt_cap "available" with
                | JStr s => String.eqb s "readily"
                | _ => false
                end); [left|right]; reflexivity.
    + split; [intros msg H; discriminate|]. apply Hp.
  - split; [reflexivity|]. split; [reflexivity|]. split; [reflexivity|].
    split; [intros H; discriminate|].
    split; [intros msg' _; reflexivity|]. apply Hp.
Qed.

Lemma key_settles_witness :
  let '(cfg', method', outcome) :=
    setGeminiApiKey (Ok tt) JNull "none"
      {| apiKey := None; endpoint := endpoint gemini_config |} "key" in
  method' = "gemini-api".
Proof.
  pose proof (@key_settles_the_method
                {| eng := sample_engine;
                   net := fun _ _ => Rejected "Failed to fetch";
                   chrome := fun _ _ => Throw "Prompt API is not available.";
                   supplied := None |}
                (Ok tt) JNull "none"
                {| apiKey := None; endpoint := endpoint gemini_config |}
                "key" "Hello" Options.none None) as H.
  cbv zeta in H. cbn [setGeminiApiKey] in H.
  destruct H as (_ & _ & _ & H & _); [discriminate|].
  exact (proj2 (H eq_refl)).
Defined.
End GeminiAnswers.
